(** * Boss-kill tracker: the tailer, the ingest gate, the buffer window,
    the target resolver and the delivery queue, embedded from the Python
    sources [src/log_monitor.py], [src/main.py], [src/boss_database.py],
    [src/message_parser.py] and [src/discord_notifier.py]. *)

From stdpp Require Import gmap strings list fin_maps pretty.
From Stdlib Require Import Ascii ZArith QArith Lia.

Local Open Scope Z_scope.

(** ** [log_monitor.py]: class [LogMonitor] *)

Module LogMonitor.

(** A Python [str] read from the log is a list of characters.  The game
    client writes ASCII, so character offsets and byte offsets agree and
    the cursor kept in [file_positions] is an index in that list. *)
Abbreviation text := (list ascii).

Definition LF : ascii := "010"%char.
Definition CR : ascii := "013"%char.

Definition is_newline_char (c : ascii) : bool :=
  bool_decide (c = LF) || bool_decide (c = CR).

(** [line.rstrip('\n\r')]. *)
Fixpoint rstrip_nl (s : text) : text :=
  match s with
  | [] => []
  | c :: r =>
      match rstrip_nl r with
      | [] => if is_newline_char c then [] else [c]
      | r' => c :: r'
      end
  end.

(** [f.readline()] on a file opened in text mode with universal newlines:
    the characters up to and including the next line end, which may be
    LF, CR LF or CR and is handed over as LF; at end of file whatever is
    left, also when no line end follows it; [[]] when nothing is left.
    The second component is the unread rest. *)
Fixpoint readline (s : text) : text * text :=
  match s with
  | [] => ([], [])
  | c :: r =>
      if bool_decide (c = LF) then ([LF], r)
      else if bool_decide (c = CR) then
        ([LF], match r with
               | c' :: r' => if bool_decide (c' = LF) then r' else r
               | [] => r
               end)
      else let '(l, r') := readline r in (c :: l, r')
  end.

(** The [while True] loop of [_read_new_lines]: the lines handed to
    [on_new_line], in order.  [None] when the fuel runs out before the
    loop reaches its [break]. *)
Fixpoint read_loop (fuel : nat) (s : text) : option (list text) :=
  match fuel with
  | O => None
  | S fuel' =>
      let '(line, rest) := readline s in
      match line with
      | [] => Some []
      | _ =>
          let line' := rstrip_nl line in
          match read_loop fuel' rest with
          | None => None
          | Some ls => Some (match line' with [] => ls | _ => line' :: ls end)
          end
      end
  end.

(** One entry of the watched directory as a polling tick finds it:
    [f_mtime] is [None] when [stat()] raises, [f_locked] says that
    [open()] raises during this tick. *)
Record File := mkFile {
  f_path : string;
  f_mtime : option Z;
  f_locked : bool;
  f_content : text
}.

(** The result of [log_directory.glob("eqlog_*_*.txt")], in glob order;
    [[]] also when the directory does not exist. *)
Abbreviation Directory := (list File).

Record Monitor := mkMonitor {
  active_file : option string;
  file_positions : gmap string nat;
  active_file_check_counter : nat
}.

Definition initial : Monitor := mkMonitor None ∅ 0.

(** [max(log_files, key=lambda f: f.stat().st_mtime)]: the first file of
    greatest modification time; [None] when a [stat()] raises. *)
Fixpoint max_by_mtime (best : File) (best_m : Z) (fs : list File) : option File :=
  match fs with
  | [] => Some best
  | f :: fs' =>
      match f_mtime f with
      | None => None
      | Some m => if best_m <? m then max_by_mtime f m fs' else max_by_mtime best best_m fs'
      end
  end.

(** [_get_active_file]: [inl] the answer, [inr tt] when it raises. *)
Definition _get_active_file (dir : Directory) : option File + unit :=
  match dir with
  | [] => inl None
  | f :: fs =>
      match f_mtime f with
      | None => inr tt
      | Some m => match max_by_mtime f m fs with
                  | Some g => inl (Some g)
                  | None => inr tt
                  end
      end
  end.

Definition lookup_file (dir : Directory) (p : string) : option File :=
  List.find (fun f => bool_decide (f_path f = p)) dir.

(** [_read_new_lines(filepath)]: the new cursor table and the lines
    handed to [on_new_line]. *)
Definition _read_new_lines (f : File) (pos : gmap string nat)
  : gmap string nat * list text :=
  let current_pos := default 0%nat (pos !! f_path f) in
  if f_locked f then (pos, [])
  else
    let rest := drop current_pos (f_content f) in
    match read_loop (S (length rest)) rest with
    | None => (pos, [])
    | Some ls =>
        (<[f_path f := Nat.max current_pos (length (f_content f))]> pos, ls)
    end.

(** The part of one iteration of [_monitor_loop] that re-elects the
    active file; [None] when [_get_active_file] raises and the iteration
    is abandoned. *)
Definition elect (dir : Directory) (m : Monitor) : option Monitor :=
  let counter := S (active_file_check_counter m) in
  if bool_decide (10 ≤ counter)%nat || bool_decide (active_file m = None) then
    match _get_active_file dir with
    | inr _ => None
    | inl new =>
        let new_path := f_path <$> new in
        if bool_decide (new_path ≠ active_file m) then
          match new with
          | Some f =>
              let end_pos := if f_locked f then 0%nat else length (f_content f) in
              Some (mkMonitor new_path (<[f_path f := end_pos]> (file_positions m)) 0)
          | None => Some (mkMonitor None (file_positions m) 0)
          end
        else Some (mkMonitor (active_file m) (file_positions m) 0)
    end
  else Some (mkMonitor (active_file m) (file_positions m) counter).

(** One iteration of the [while self.running] loop of [_monitor_loop]. *)
Definition tick (dir : Directory) (m : Monitor) : Monitor * list text :=
  match elect dir m with
  | None => (mkMonitor (active_file m) (file_positions m) 0, [])
  | Some m1 =>
      match active_file m1 with
      | None => (m1, [])
      | Some p =>
          match lookup_file dir p with
          | None => (m1, [])
          | Some f =>
              let '(pos, ls) := _read_new_lines f (file_positions m1) in
              (mkMonitor (active_file m1) pos (active_file_check_counter m1), ls)
          end
      end
  end.

(** The text written by a program that ends every line properly: each
    line followed by LF or by CR LF. *)
Inductive Eol := EolLF | EolCRLF.

Definition eol_chars (e : Eol) : text :=
  match e with EolLF => [LF] | EolCRLF => [CR; LF] end.

Definition join_lines (ls : list (text * Eol)) : text :=
  concat ((fun le => fst le ++ eol_chars (snd le)) <$> ls).

Definition plain (l : text) : Prop := Forall (fun c => is_newline_char c = false) l.

Definition nonempty (l : text) : bool := match l with [] => false | _ => true end.

(** What the specification describes instead of [read_loop]: only lines that
    are already terminated are handed over, the unterminated tail is held
    back and the cursor stays in front of it.  Second component: the number
    of characters consumed. *)
Fixpoint spec_complete_lines (cur : text) (s : text) : list text * nat :=
  match s with
  | [] => ([], 0%nat)
  | c :: r =>
      if bool_decide (c = LF) then
        let '(ls, n) := spec_complete_lines [] r in
        ((if nonempty (rstrip_nl cur) then [rstrip_nl cur] else []) ++ ls,
         (S (length cur) + n)%nat)
      else spec_complete_lines (cur ++ [c]) r
  end.

Definition of_string (s : string) : text := Strings.String.list_ascii_of_string s.

(** The loop of [_monitor_loop] run for as many iterations as [dirs] is
    long, the watched directory being [dirs !! i] at the [i]-th of them:
    the monitor afterwards and the lines handed over, in order. *)
Fixpoint run (dirs : list Directory) (m : Monitor) : Monitor * list text :=
  match dirs with
  | [] => (m, [])
  | dir :: dirs' =>
      let '(m1, ls) := tick dir m in
      let '(m2, ls') := run dirs' m1 in
      (m2, ls ++ ls')
  end.

(** [name.rfind('.')]. *)
Fixpoint rfind_dot (s : string) : option nat :=
  match s with
  | EmptyString => None
  | String c r =>
      match rfind_dot r with
      | Some i => Some (S i)
      | None => if bool_decide (c = "."%char) then Some 0%nat else None
      end
  end.

(** [Path.stem], on the last component of the path: the name without its
    last suffix, where a dot that starts or ends the name starts no
    suffix.  [f_path] holds that component: the files of one directory are
    told apart by it. *)
Definition stem (name : string) : string :=
  match rfind_dot name with
  | Some i =>
      if (0 <? i)%nat && (i <? Strings.String.length name - 1)%nat
      then Strings.String.substring 0 i name else name
  | None => name
  end.

(** [s.split(sep)] for a separator of one character. *)
Fixpoint split (sep : ascii) (s : string) : list string :=
  match s with
  | EmptyString => [EmptyString]
  | String c r =>
      if bool_decide (c = sep) then EmptyString :: split sep r
      else match split sep r with
           | h :: t => String c h :: t
           | [] => [String c EmptyString]
           end
  end.

(** [_extract_character_name(filepath)]. *)
Definition _extract_character_name (filepath : string) : option string :=
  match split "_" (stem filepath) with
  | _ :: character :: _ => Some character
  | _ => None
  end.

(** [get_active_character()]. *)
Definition get_active_character (m : Monitor) : option string :=
  match active_file m with
  | Some p => _extract_character_name p
  | None => None
  end.

End LogMonitor.

(** ** Properties of the tailer *)

Section LogMonitorFacts.
Import LogMonitor.

Lemma readline_rest_le (s : text) :
  (length (snd (readline s)) ≤ length s)%nat.
Proof.
  induction s as [|c s IH]; simpl; [done|].
  destruct (bool_decide (c = LF)); [simpl; lia|].
  destruct (bool_decide (c = CR)); simpl.
  - destruct s as [|d s']; simpl; [lia|].
    destruct (bool_decide (d = LF)); simpl; lia.
  - destruct (readline s) as [l r']; simpl in *. lia.
Qed.

Lemma readline_rest_shorter (c : ascii) (s : text) :
  (length (snd (readline (c :: s))) < length (c :: s))%nat.
Proof.
  simpl.
  destruct (bool_decide (c = LF)); [simpl; lia|].
  destruct (bool_decide (c = CR)); simpl.
  - destruct s as [|d s']; simpl; [lia|].
    destruct (bool_decide (d = LF)); simpl; lia.
  - pose proof (readline_rest_le s) as Hle.
    destruct (readline s) as [l r']; simpl in *. lia.
Qed.


(** The loop of [_read_new_lines] terminates: fuel beyond the length of
    the unread text always reaches the [break]. *)
Lemma read_loop_total (fuel : nat) (s : text) :
  (length s < fuel)%nat → is_Some (read_loop fuel s).
Proof.
  revert s. induction fuel as [|fuel IH]; intros s Hlen; [lia|].
  simpl. destruct (readline s) as [line rest] eqn:Hrl.
  destruct line as [|c line]; [by eexists|].
  destruct s as [|d s].
  { simpl in Hrl. by simplify_eq. }
  pose proof (readline_rest_shorter d s) as Hshort.
  rewrite Hrl in Hshort. simpl in Hshort.
  destruct (IH rest) as [ls Hls]; [simpl in Hlen; lia|].
  rewrite Hls. by eexists.
Qed.

Lemma readline_plain (l rest : text) (e : Eol) :
  plain l → readline (l ++ eol_chars e ++ rest) = (l ++ [LF], rest).
Proof.
  intros Hl. induction Hl as [|c l Hc Hl IH]; simpl.
  - by destruct e.
  - unfold is_newline_char in Hc. apply orb_false_iff in Hc as [H1 H2].
    rewrite H1, H2, IH. done.
Qed.

Lemma readline_partial (p : text) : plain p → readline p = (p, []).
Proof.
  intros Hp. induction Hp as [|c l Hc Hl IH]; simpl; [done|].
  unfold is_newline_char in Hc. apply orb_false_iff in Hc as [H1 H2].
  by rewrite H1, H2, IH.
Qed.

Lemma rstrip_nl_plain (l : text) : plain l → rstrip_nl l = l.
Proof.
  intros Hl. induction Hl as [|c l Hc Hl IH]; simpl; [done|].
  rewrite IH, Hc. by destruct l.
Qed.

Lemma rstrip_nl_terminated (l : text) : plain l → rstrip_nl (l ++ [LF]) = l.
Proof.
  intros Hl. induction Hl as [|c l Hc Hl IH]; simpl; [done|].
  rewrite IH, Hc. by destruct l.
Qed.

Lemma join_lines_cons (l : text) (e : Eol) (ls : list (text * Eol)) :
  join_lines ((l, e) :: ls) = l ++ eol_chars e ++ join_lines ls.
Proof. unfold join_lines. simpl. by rewrite <- app_assoc. Qed.

(** Every terminated line and the unterminated tail are handed over, in
    order, empty ones left out. *)
Lemma read_loop_lines (ls : list (text * Eol)) (p : text) (fuel : nat) :
  Forall (fun le => plain (fst le)) ls → plain p →
  (length (join_lines ls ++ p) < fuel)%nat →
  read_loop fuel (join_lines ls ++ p)
  = Some (filter (fun l => nonempty l = true) ((fst <$> ls) ++ [p])).
Proof.
  intros Hls Hp. revert fuel.
  induction Hls as [|[l e] ls Hl Hls IH]; intros fuel Hfuel.
  - simpl in *. destruct fuel as [|fuel]; [lia|]. cbn [read_loop].
    rewrite readline_partial by done.
    destruct p as [|c p]; [done|].
    destruct fuel; [simpl in *; lia|].
    rewrite rstrip_nl_plain by done.
    rewrite filter_cons_True by done. done.
  - destruct fuel as [|fuel]; [lia|].
    rewrite join_lines_cons in *. rewrite <- !app_assoc in *.
    cbn [read_loop]. rewrite readline_plain by done.
    rewrite rstrip_nl_terminated by done.
    rewrite IH.
    2:{ rewrite (length_app l), (length_app (eol_chars e)) in Hfuel.
        destruct e; simpl in Hfuel; lia. }
    simpl. destruct l as [|c l]; simpl.
    + rewrite filter_cons_False by done. done.
    + rewrite filter_cons_True by done. done.
Qed.

Lemma max_by_mtime_elem (best : File) (bm : Z) (fs : list File) (g : File) :
  max_by_mtime best bm fs = Some g → g = best ∨ g ∈ fs.
Proof.
  revert best bm. induction fs as [|f fs IH]; intros best bm H; simpl in H.
  - left. congruence.
  - destruct (f_mtime f) as [m|]; [|done].
    destruct (bm <? m); apply IH in H as [->|H]; auto; right; set_solver.
Qed.

Lemma get_active_file_elem (dir : Directory) (f : File) :
  _get_active_file dir = inl (Some f) → f ∈ dir.
Proof.
  destruct dir as [|g fs]; simpl; [done|].
  destruct (f_mtime g) as [m|]; [|done].
  destruct (max_by_mtime g m fs) as [h|] eqn:Hmax; [|done].
  intros [= ->]. apply max_by_mtime_elem in Hmax as [->|H]; set_solver.
Qed.

Lemma lookup_file_elem (dir : Directory) (f : File) :
  NoDup (f_path <$> dir) → f ∈ dir → lookup_file dir (f_path f) = Some f.
Proof.
  unfold lookup_file. induction dir as [|g dir IH]; intros Hnd Hin.
  - by apply elem_of_nil in Hin.
  - rewrite fmap_cons in Hnd. apply NoDup_cons in Hnd as [Hg Hnd]. simpl.
    apply elem_of_cons in Hin as [->|Hin].
    + by rewrite bool_decide_eq_true_2.
    + rewrite bool_decide_eq_false_2; [by apply IH|].
      intros Heq. apply Hg. rewrite Heq. by apply list_elem_of_fmap_2.
Qed.

Lemma lookup_file_path (dir : Directory) (p : string) (f : File) :
  lookup_file dir p = Some f → f_path f = p.
Proof.
  unfold lookup_file. intros H. apply find_some in H as [_ H].
  by apply bool_decide_eq_true in H.
Qed.

Lemma read_new_lines_unlocked (f : File) (pos : gmap string nat)
    (ls : list (text * Eol)) (p : text) :
  f_locked f = false →
  drop (default 0%nat (pos !! f_path f)) (f_content f) = join_lines ls ++ p →
  Forall (fun le => plain (fst le)) ls → plain p →
  _read_new_lines f pos
  = (<[f_path f := Nat.max (default 0%nat (pos !! f_path f)) (length (f_content f))]> pos,
     filter (fun l => nonempty l = true) ((fst <$> ls) ++ [p])).
Proof.
  intros Hunl Hdrop Hls Hp. unfold _read_new_lines.
  rewrite Hunl, Hdrop, read_loop_lines by (done || lia). done.
Qed.

(** C7 (as the code has it): a tick that can open the file reads from the
    cursor to the end of the file; it hands over every non-empty line,
    once and in order, the unterminated tail included (it is not held
    back); the cursor ends at the end of the file, so that the next tick
    hands over what was appended since and nothing of what was read. *)
Theorem C7_tick_reads_to_end_of_file (f : File) (pos : gmap string nat)
    (ls : list (text * Eol)) (p : text) :
  f_locked f = false →
  (default 0%nat (pos !! f_path f) ≤ length (f_content f))%nat →
  drop (default 0%nat (pos !! f_path f)) (f_content f) = join_lines ls ++ p →
  Forall (fun le => plain (fst le)) ls → plain p →
  _read_new_lines f pos
  = (<[f_path f := length (f_content f)]> pos,
     filter (fun l => nonempty l = true) ((fst <$> ls) ++ [p]))
  ∧ ∀ (ls' : list (text * Eol)) (p' : text),
      Forall (fun le => plain (fst le)) ls' → plain p' →
      snd (_read_new_lines
             (mkFile (f_path f) (f_mtime f) false (f_content f ++ join_lines ls' ++ p'))
             (fst (_read_new_lines f pos)))
      = filter (fun l => nonempty l = true) ((fst <$> ls') ++ [p']).
Proof.
  intros Hunl Hpos Hdrop Hls Hp.
  assert (_read_new_lines f pos
          = (<[f_path f := length (f_content f)]> pos,
             filter (fun l => nonempty l = true) ((fst <$> ls) ++ [p]))) as Hfirst.
  { rewrite (read_new_lines_unlocked f pos ls p) by done.
    by rewrite Nat.max_r by done. }
  split; [done|]. intros ls' p' Hls' Hp'. rewrite Hfirst. simpl.
  rewrite (read_new_lines_unlocked _ _ ls' p'); simpl; try done.
  rewrite lookup_insert_eq. simpl. by rewrite drop_app_length.
Qed.

Lemma C7_tick_reads_to_end_of_file_witness :
  _read_new_lines
    (mkFile "eqlog_Xanax_pq.proj.txt" (Some 0) false (of_string "one" ++ [CR; LF] ++ of_string "tw"))
    ∅
  = (<[ "eqlog_Xanax_pq.proj.txt" := 7%nat ]> ∅, [of_string "one"; of_string "tw"]).
Proof.
  pose proof (C7_tick_reads_to_end_of_file
    (mkFile "eqlog_Xanax_pq.proj.txt" (Some 0) false (of_string "one" ++ [CR; LF] ++ of_string "tw"))
    ∅ [(of_string "one", EolCRLF)] (of_string "tw")) as H.
  simpl in H. apply H.
  - reflexivity.
  - vm_compute. lia.
  - reflexivity.
  - repeat constructor.
  - repeat constructor.
Defined.

(** C7 as stated fails: an unterminated tail is handed over at once, and the
    cursor moves past it, so the line it belongs to is never handed over
    whole.  The specification's reading ([spec_complete_lines]) would hand
    over nothing and leave the cursor at 0. *)
Lemma C7_partial_line_is_emitted :
  let f1 := mkFile "eqlog_Xanax_pq.proj.txt" (Some 0) false (of_string "abc") in
  let f2 := mkFile "eqlog_Xanax_pq.proj.txt" (Some 1) false (of_string "abcdef" ++ [LF]) in
  _read_new_lines f1 ∅ = (<[ "eqlog_Xanax_pq.proj.txt" := 3%nat ]> ∅, [of_string "abc"])
  ∧ spec_complete_lines [] (f_content f1) = ([], 0%nat)
  ∧ snd (_read_new_lines f2 (fst (_read_new_lines f1 ∅))) = [of_string "def"]
  ∧ fst (spec_complete_lines [] (f_content f2)) = [of_string "abcdef"].
Proof. vm_compute. done. Qed.

Lemma elect_activates (dir : Directory) (m : Monitor) (f : File) :
  ((10 ≤ S (active_file_check_counter m))%nat ∨ active_file m = None) →
  _get_active_file dir = inl (Some f) →
  active_file m ≠ Some (f_path f) →
  elect dir m
  = Some (mkMonitor (Some (f_path f))
            (<[f_path f := if f_locked f then 0%nat else length (f_content f)]>
               (file_positions m)) 0).
Proof.
  intros Hdue Hget Hne. unfold elect. rewrite Hget.
  assert (bool_decide (10 ≤ S (active_file_check_counter m))%nat
          || bool_decide (active_file m = None) = true) as ->.
  { apply orb_true_iff. destruct Hdue; [left|right]; by apply bool_decide_eq_true. }
  simpl. rewrite bool_decide_eq_true_2; [done|]. congruence.
Qed.

(** Between two elections a tick reads the active file from its cursor,
    and the cursor never moves back. *)
Lemma tick_without_election (dir : Directory) (m : Monitor) (p : string) (f : File) :
  active_file m = Some p →
  (S (active_file_check_counter m) < 10)%nat →
  lookup_file dir p = Some f →
  tick dir m
  = (mkMonitor (Some p) (fst (_read_new_lines f (file_positions m)))
       (S (active_file_check_counter m)),
     snd (_read_new_lines f (file_positions m)))
  ∧ (default 0%nat (file_positions m !! p)
     ≤ default 0%nat (fst (_read_new_lines f (file_positions m)) !! p))%nat.
Proof.
  intros Hact Hcount Hlook. split.
  - unfold tick, elect. rewrite Hact.
    rewrite (bool_decide_eq_false_2 (10 ≤ _)%nat) by lia.
    rewrite (bool_decide_eq_false_2 (Some p = None)) by done.
    cbn [orb active_file file_positions active_file_check_counter]. rewrite Hlook.
    by destruct (_read_new_lines f (file_positions m)).
  - unfold _read_new_lines. rewrite (lookup_file_path _ _ _ Hlook).
    destruct (f_locked f); [done|].
    destruct (read_loop _ _); [|done]. cbn [fst].
    rewrite lookup_insert_eq. simpl. lia.
Qed.

(** C4 (as the code has it): when an election makes [f] the active file and
    [f] can be opened, the cursor of [f] is put at its end, whatever the
    cursor table held for it before; that tick hands over nothing, and the
    next tick hands over exactly what was appended to [f] since. *)
Theorem C4_activation_seeks_to_end (dir : Directory) (m : Monitor) (f : File) :
  NoDup (f_path <$> dir) →
  ((10 ≤ S (active_file_check_counter m))%nat ∨ active_file m = None) →
  _get_active_file dir = inl (Some f) →
  active_file m ≠ Some (f_path f) →
  f_locked f = false →
  tick dir m
  = (mkMonitor (Some (f_path f))
       (<[f_path f := length (f_content f)]> (file_positions m)) 0, [])
  ∧ ∀ (dir' : Directory) (f' : File) (extra : text),
      lookup_file dir' (f_path f) = Some f' →
      f_locked f' = false →
      f_content f' = f_content f ++ extra →
      ∃ ls, read_loop (S (length extra)) extra = Some ls
            ∧ snd (tick dir' (fst (tick dir m))) = ls.
Proof.
  intros Hnd Hdue Hget Hne Hunl.
  assert (tick dir m
          = (mkMonitor (Some (f_path f))
               (<[f_path f := length (f_content f)]> (file_positions m)) 0, [])) as Htick.
  { unfold tick. rewrite (elect_activates dir m f) by done. simpl.
    rewrite lookup_file_elem by eauto using get_active_file_elem.
    unfold _read_new_lines. rewrite Hunl. simpl.
    rewrite lookup_insert_eq. simpl. rewrite drop_all. simpl.
    rewrite insert_insert_eq. by rewrite Nat.max_id. }
  split; [done|]. intros dir' f' extra Hlook Hunl' Hcontent.
  destruct (read_loop_total (S (length extra)) extra) as [ls Hls]; [lia|].
  exists ls. split; [done|]. rewrite Htick.
  cbn [fst]. unfold tick, elect.
  cbn [active_file file_positions active_file_check_counter].
  rewrite (bool_decide_eq_false_2 (10 ≤ 1)%nat) by lia.
  rewrite (bool_decide_eq_false_2 (Some (f_path f) = None)) by done.
  cbn [orb active_file file_positions active_file_check_counter]. rewrite Hlook.
  unfold _read_new_lines. rewrite Hunl'.
  rewrite (lookup_file_path _ _ _ Hlook), lookup_insert_eq. cbn -[read_loop].
  rewrite Hcontent, drop_app_length, Hls. done.
Qed.

Lemma C4_activation_seeks_to_end_witness :
  tick [mkFile "eqlog_Old_pq.proj.txt" (Some 5) false (of_string "seen" ++ [LF]);
        mkFile "eqlog_New_pq.proj.txt" (Some 9) false (of_string "history" ++ [LF])]
       (mkMonitor (Some "eqlog_Old_pq.proj.txt") {[ "eqlog_Old_pq.proj.txt" := 5%nat ]} 9)
  = (mkMonitor (Some "eqlog_New_pq.proj.txt")
       (<[ "eqlog_New_pq.proj.txt" := 8%nat ]> {[ "eqlog_Old_pq.proj.txt" := 5%nat ]}) 0, []).
Proof.
  refine (proj1 (C4_activation_seeks_to_end
    [mkFile "eqlog_Old_pq.proj.txt" (Some 5) false (of_string "seen" ++ [LF]);
     mkFile "eqlog_New_pq.proj.txt" (Some 9) false (of_string "history" ++ [LF])]
    (mkMonitor (Some "eqlog_Old_pq.proj.txt") {[ "eqlog_Old_pq.proj.txt" := 5%nat ]} 9)
    (mkFile "eqlog_New_pq.proj.txt" (Some 9) false (of_string "history" ++ [LF]))
    _ _ _ _ _)).
  - apply (bool_decide_unpack _). by vm_compute.
  - left. simpl. lia.
  - reflexivity.
  - simpl. congruence.
  - reflexivity.
Defined.

(** C4 as stated fails: when the newly active file cannot be opened at the
    moment of the election, the cursor falls back to 0, and the next tick
    that can open the file hands over the whole history. *)
Lemma C4_locked_activation_rereads_history :
  let locked := mkFile "eqlog_New_pq.proj.txt" (Some 9) true (of_string "history" ++ [LF]) in
  let free := mkFile "eqlog_New_pq.proj.txt" (Some 9) false (of_string "history" ++ [LF]) in
  let m1 := fst (tick [locked] initial) in
  active_file m1 = Some "eqlog_New_pq.proj.txt"
  ∧ file_positions m1 !! "eqlog_New_pq.proj.txt" = Some 0%nat
  ∧ snd (tick [free] m1) = [of_string "history"].
Proof. vm_compute. done. Qed.

(** *** Which file is elected *)

Definition older_than (m : Z) (f : File) : Prop := ∃ k, f_mtime f = Some k ∧ k < m.
Definition not_newer_than (m : Z) (f : File) : Prop := ∃ k, f_mtime f = Some k ∧ k ≤ m.

Lemma max_by_mtime_keeps (best : File) (bm : Z) (fs : list File) :
  Forall (not_newer_than bm) fs → max_by_mtime best bm fs = Some best.
Proof.
  induction 1 as [|f fs (k & Hk & Hle) _ IH]; simpl; [done|].
  rewrite Hk. by rewrite (proj2 (Z.ltb_ge _ _)).
Qed.

Lemma max_by_mtime_takes (best g : File) (bm m : Z) (pre post : list File) :
  bm < m → Forall (older_than m) pre → f_mtime g = Some m →
  Forall (not_newer_than m) post →
  max_by_mtime best bm (pre ++ g :: post) = Some g.
Proof.
  intros Hbm Hpre Hg Hpost. revert best bm Hbm.
  induction Hpre as [|f pre (k & Hk & Hlt) _ IH]; intros best bm Hbm; simpl.
  - rewrite Hg, (proj2 (Z.ltb_lt _ _)) by done. by apply max_by_mtime_keeps.
  - rewrite Hk. destruct (bm <? k); by apply IH.
Qed.

Lemma max_by_mtime_spec (best : File) (bm : Z) (fs : list File) (g : File) :
  max_by_mtime best bm fs = Some g →
  (g = best ∧ Forall (not_newer_than bm) fs)
  ∨ ∃ pre post m, fs = pre ++ g :: post ∧ f_mtime g = Some m ∧ bm < m
                  ∧ Forall (older_than m) pre ∧ Forall (not_newer_than m) post.
Proof.
  revert best bm. induction fs as [|f fs IH]; intros best bm H; simpl in H.
  - left. split; [congruence|constructor].
  - destruct (f_mtime f) as [k|] eqn:Hk; [|done].
    destruct (bm <? k) eqn:Hlt.
    + apply Z.ltb_lt in Hlt. right.
      apply IH in H as [[-> Hall]|(pre & post & m & -> & Hg & Hm & Hpre & Hpost)].
      * exists [], fs, k. repeat split; try done.
      * exists (f :: pre), post, m. repeat split; try done; [lia|].
        constructor; [|done]. exists k. split; [done|lia].
    + apply Z.ltb_ge in Hlt.
      apply IH in H as [[-> Hall]|(pre & post & m & -> & Hg & Hm & Hpre & Hpost)].
      * left. split; [done|]. constructor; [|done]. by exists k.
      * right. exists (f :: pre), post, m. repeat split; try done.
        constructor; [|done]. exists k. split; [done|lia].
Qed.

Lemma max_by_mtime_raises (best : File) (bm : Z) (fs : list File) :
  max_by_mtime best bm fs = None ↔ Exists (fun f => f_mtime f = None) fs.
Proof.
  revert best bm. induction fs as [|f fs IH]; intros best bm; simpl.
  - split; [done|]. by intros ?%Exists_nil.
  - rewrite Exists_cons. destruct (f_mtime f) as [k|] eqn:Hk.
    + destruct (bm <? k); rewrite IH;
        (split; [by right|intros [?|?]; [congruence|done]]).
    + split; [by left|done].
Qed.

(** X1: [_get_active_file] gives no file exactly when the directory holds no
    log file; it raises exactly when the [stat()] of one of the files
    raises; and otherwise it gives the first, in the order of the listing,
    among the files of greatest modification time: every file listed
    before it is strictly older, no file listed after it is newer. *)
Theorem get_active_file_first_newest (dir : Directory) :
  (_get_active_file dir = inl None ↔ dir = [])
  ∧ (_get_active_file dir = inr tt ↔ Exists (fun f => f_mtime f = None) dir)
  ∧ ∀ g : File,
      _get_active_file dir = inl (Some g)
      ↔ ∃ pre post m, dir = pre ++ g :: post ∧ f_mtime g = Some m
                      ∧ Forall (older_than m) pre ∧ Forall (not_newer_than m) post.
Proof.
  destruct dir as [|f fs]; simpl.
  { split; [done|]. split.
    - split; [done|]. by intros ?%Exists_nil.
    - intros g. split; [done|]. intros (pre & post & m & H & _). by destruct pre. }
  split; [|split].
  - destruct (f_mtime f); [destruct (max_by_mtime _ _ _)|]; done.
  - rewrite Exists_cons. destruct (f_mtime f) as [k|] eqn:Hk.
    + pose proof (max_by_mtime_raises f k fs) as Hr.
      destruct (max_by_mtime f k fs).
      * split; [done|]. intros [?|H]; [congruence|]. by apply Hr in H.
      * split; [|done]. intros _. right. by apply Hr.
    + split; [by left|done].
  - intros g. destruct (f_mtime f) as [k|] eqn:Hk.
    + split.
      * destruct (max_by_mtime f k fs) as [h|] eqn:Hmax; [|done].
        intros [= ->].
        apply max_by_mtime_spec in Hmax
          as [[-> Hall]|(pre & post & m & -> & Hg & Hm & Hpre & Hpost)].
        -- by exists [], fs, k.
        -- exists (f :: pre), post, m. repeat split; try done.
           constructor; [|done]. by exists k.
      * intros (pre & post & m & Hdir & Hg & Hpre & Hpost).
        destruct pre as [|f' pre]; simpl in Hdir.
        -- injection Hdir as <- <-. assert (m = k) as -> by congruence.
           by rewrite max_by_mtime_keeps.
        -- injection Hdir as <- ->.
           apply Forall_cons in Hpre as [(k' & Hk' & Hlt) Hpre].
           assert (k' = k) as -> by congruence.
           by rewrite (max_by_mtime_takes f g k m pre post).
    + split; [done|]. intros (pre & post & m & Hdir & Hg & Hpre & Hpost).
      destruct pre as [|f' pre]; simpl in Hdir.
      * injection Hdir as <- <-. congruence.
      * injection Hdir as <- ->.
        apply Forall_cons in Hpre as [(k' & Hk' & _) _]. congruence.
Qed.

(** *** A file that shrank *)

(** X2: When the file is shorter than the cursor kept for it (it was truncated
    or replaced by a shorter one), a tick that opens it hands over nothing
    and leaves the cursor where it was: what is written to the file below
    the old cursor is never handed over. *)
Theorem read_new_lines_below_cursor (f : File) (pos : gmap string nat) (cur : nat) :
  f_locked f = false →
  pos !! f_path f = Some cur →
  (length (f_content f) ≤ cur)%nat →
  _read_new_lines f pos = (pos, []).
Proof.
  intros Hunl Hcur Hlen. unfold _read_new_lines.
  rewrite Hunl, Hcur. simpl. rewrite drop_ge by done. simpl.
  rewrite Nat.max_l by done. by rewrite insert_id.
Qed.

Lemma read_new_lines_below_cursor_witness :
  _read_new_lines
    (mkFile "eqlog_Xanax_pq.proj.txt" (Some 7) false (of_string "new" ++ [LF]))
    {[ "eqlog_Xanax_pq.proj.txt" := 120%nat ]}
  = ({[ "eqlog_Xanax_pq.proj.txt" := 120%nat ]}, []).
Proof.
  apply (read_new_lines_below_cursor _ _ 120).
  - reflexivity.
  - reflexivity.
  - vm_compute. lia.
Defined.

(** *** How long an election takes *)

Lemma tick_elected (dir : Directory) (m m1 : Monitor) :
  elect dir m = Some m1 →
  active_file (tick dir m).1 = active_file m1
  ∧ active_file_check_counter (tick dir m).1 = active_file_check_counter m1.
Proof.
  intros He. unfold tick. rewrite He.
  destruct (active_file m1) as [p|] eqn:Hp; [|by simpl].
  destruct (lookup_file dir p); [|by simpl].
  by destruct (_read_new_lines _ _).
Qed.

Lemma elect_due (dir : Directory) (m : Monitor) (new : option File) :
  _get_active_file dir = inl new →
  (10 ≤ S (active_file_check_counter m))%nat ∨ active_file m = None →
  ∃ m1, elect dir m = Some m1 ∧ active_file m1 = f_path <$> new
        ∧ active_file_check_counter m1 = 0%nat.
Proof.
  intros Hget Hdue. unfold elect. rewrite Hget.
  assert (bool_decide (10 ≤ S (active_file_check_counter m))%nat
          || bool_decide (active_file m = None) = true) as ->.
  { apply orb_true_iff. destruct Hdue; [left|right]; by apply bool_decide_eq_true. }
  case_bool_decide as Hne.
  - destruct new as [f|]; eauto.
  - eexists. split; [done|]. simpl. by rewrite Hne.
Qed.

Lemma elect_not_due (dir : Directory) (m : Monitor) :
  (S (active_file_check_counter m) < 10)%nat → active_file m ≠ None →
  elect dir m
  = Some (mkMonitor (active_file m) (file_positions m) (S (active_file_check_counter m))).
Proof.
  intros Hc Ha. unfold elect.
  rewrite (bool_decide_eq_false_2 (10 ≤ _)%nat) by lia.
  by rewrite (bool_decide_eq_false_2 (active_file m = None)).
Qed.

(** The active file is [p], or the next election is at most [k] iterations
    away. *)
Definition elected_within (p : option string) (k : nat) (m : Monitor) : Prop :=
  active_file m = p ∨ active_file m = None
  ∨ (10 ≤ S (active_file_check_counter m) + k)%nat.

Lemma tick_towards_election (dir : Directory) (m : Monitor) (new : option File) (k : nat) :
  _get_active_file dir = inl new →
  elected_within (f_path <$> new) k m →
  active_file (tick dir m).1 = f_path <$> new
  ∨ ((0 < k)%nat ∧ elected_within (f_path <$> new) (k - 1) (tick dir m).1).
Proof.
  intros Hget Hk.
  destruct (decide ((10 ≤ S (active_file_check_counter m))%nat ∨ active_file m = None))
    as [Hdue|Hnot].
  - destruct (elect_due dir m new Hget Hdue) as (m1 & He & Ha & _).
    left. by rewrite (proj1 (tick_elected dir m m1 He)).
  - assert ((S (active_file_check_counter m) < 10)%nat ∧ active_file m ≠ None) as [Hc Ha]
      by (split; [apply Nat.nle_gt|]; intros ?; apply Hnot; auto).
    pose proof (tick_elected dir m _ (elect_not_due dir m Hc Ha)) as [Hact Hcount].
    simpl in Hact, Hcount.
    destruct Hk as [Hp|[Hnone|Hle]]; [|done|].
    + left. by rewrite Hact.
    + right. split; [lia|]. right. right. rewrite Hcount. lia.
Qed.

Lemma run_elects (dirs : list Directory) (m : Monitor) (p : option string) (k : nat) :
  Forall (fun dir => ∃ new, _get_active_file dir = inl new ∧ f_path <$> new = p) dirs →
  elected_within p k m → (k < length dirs)%nat →
  active_file (run dirs m).1 = p.
Proof.
  intros Hdirs. revert m k.
  induction Hdirs as [|dir dirs (new & Hget & <-) _ IH]; intros m k Hk Hlen;
    [simpl in Hlen; lia|].
  cbn [run].
  pose proof (tick_towards_election dir m new k Hget Hk) as Hstep.
  destruct (tick dir m) as [m1 ls]. simpl in Hstep.
  assert (∀ m', active_file m' = f_path <$> new →
                active_file (run dirs m').1 = f_path <$> new) as Hstable.
  { clear -IH. intros m' Hm'. destruct dirs as [|d ds]; [done|].
    apply (IH m' 0%nat); [by left|simpl; lia]. }
  destruct Hstep as [Hp|[Hpos Hk1]].
  - specialize (Hstable m1 Hp). by destruct (run dirs m1).
  - specialize (IH m1 (k - 1)%nat Hk1). simpl in Hlen.
    destruct (run dirs m1); simpl in *. apply IH. lia.
Qed.

Lemma tick_counter (dir : Directory) (m : Monitor) :
  (active_file_check_counter (tick dir m).1 ≤ 9)%nat.
Proof.
  destruct (decide ((10 ≤ S (active_file_check_counter m))%nat ∨ active_file m = None))
    as [Hdue|Hnot].
  - destruct (_get_active_file dir) as [new|[]] eqn:Hget.
    + destruct (elect_due dir m new Hget Hdue) as (m1 & He & _ & Hc).
      rewrite (proj2 (tick_elected dir m m1 He)). lia.
    + unfold tick, elect. rewrite Hget.
      assert (bool_decide (10 ≤ S (active_file_check_counter m))%nat
              || bool_decide (active_file m = None) = true) as ->; [|simpl; lia].
      apply orb_true_iff. destruct Hdue; [left|right]; by apply bool_decide_eq_true.
  - assert ((S (active_file_check_counter m) < 10)%nat ∧ active_file m ≠ None) as [Hc Ha]
      by (split; [apply Nat.nle_gt|]; intros ?; apply Hnot; auto).
    rewrite (proj2 (tick_elected dir m _ (elect_not_due dir m Hc Ha))). simpl. lia.
Qed.

Lemma run_counter (dirs : list Directory) (m : Monitor) :
  dirs ≠ [] → (active_file_check_counter (run dirs m).1 ≤ 9)%nat.
Proof.
  revert m. induction dirs as [|dir dirs IH]; intros m Hne; [done|].
  cbn [run]. pose proof (tick_counter dir m) as Hc.
  destruct (tick dir m) as [m1 ls]. destruct dirs as [|dir' dirs'].
  - simpl in *. done.
  - specialize (IH m1). destruct (run (dir' :: dirs') m1). simpl in *. by apply IH.
Qed.

(** X3: A log file that has become the most recently modified one is the
    active file after at most ten iterations of the loop, whatever the
    monitor held before, provided that the listing of the directory does
    not raise in the meantime and elects that file each time; the counter
    of iterations since the last election never exceeds 9. *)
Theorem newest_file_active_within_ten_ticks (dirs : list Directory) (m : Monitor)
    (p : option string) :
  Forall (fun dir => ∃ new, _get_active_file dir = inl new ∧ f_path <$> new = p) dirs →
  (10 ≤ length dirs)%nat →
  active_file (run dirs m).1 = p
  ∧ (active_file_check_counter (run dirs m).1 ≤ 9)%nat.
Proof.
  intros Hdirs Hlen. split.
  - apply (run_elects dirs m p 9); [done| |lia]. right. right. lia.
  - apply run_counter. intros ->. simpl in Hlen. lia.
Qed.

Lemma newest_file_active_within_ten_ticks_witness :
  let dir := [mkFile "eqlog_Old_pq.proj.txt" (Some 5) false (of_string "seen" ++ [LF]);
              mkFile "eqlog_New_pq.proj.txt" (Some 9) false (of_string "history" ++ [LF])] in
  active_file
    (run (replicate 10 dir)
       (mkMonitor (Some "eqlog_Old_pq.proj.txt") {[ "eqlog_Old_pq.proj.txt" := 5%nat ]} 0)).1
  = Some "eqlog_New_pq.proj.txt".
Proof.
  intros dir.
  refine (proj1 (newest_file_active_within_ten_ticks (replicate 10 dir) _ _ _ _)).
  - simpl. repeat (constructor; [eexists; split; reflexivity|]). constructor.
  - simpl. lia.
Defined.

(** *** The character a log file belongs to *)

Lemma string_cons_app (x : ascii) (a b : string) :
  String x a +:+ b = String x (a +:+ b).
Proof. reflexivity. Qed.

Lemma string_app_assoc (a b c : string) : (a +:+ b) +:+ c = a +:+ b +:+ c.
Proof.
  induction a as [|x a IH]; [done|]. by rewrite !string_cons_app, IH.
Qed.

Lemma string_length_app (p q : string) :
  Strings.String.length (p +:+ q)
  = (Strings.String.length p + Strings.String.length q)%nat.
Proof.
  induction p as [|x p IH]; [done|]. rewrite string_cons_app. simpl. by rewrite IH.
Qed.

Lemma rfind_dot_txt (p : string) :
  rfind_dot (p +:+ ".txt") = Some (Strings.String.length p).
Proof.
  induction p as [|x p IH]; [done|]. rewrite string_cons_app. simpl. by rewrite IH.
Qed.

Lemma substring_prefix (p q : string) :
  Strings.String.substring 0 (Strings.String.length p) (p +:+ q) = p.
Proof.
  induction p as [|x p IH]; [by destruct q|].
  rewrite string_cons_app. simpl. by rewrite IH.
Qed.

Lemma stem_txt (p : string) : p ≠ EmptyString → stem (p +:+ ".txt") = p.
Proof.
  intros Hp. unfold stem. rewrite rfind_dot_txt, string_length_app.
  destruct p as [|x p]; [done|]. cbn [Strings.String.length].
  rewrite (proj2 (Nat.ltb_lt 0 _)) by lia.
  rewrite (proj2 (Nat.ltb_lt _ _)) by (simpl; lia).
  apply (substring_prefix (String x p)).
Qed.

Lemma split_app_sep (sep : ascii) (a b : string) :
  sep ∉ of_string a → split sep (a +:+ String sep b) = a :: split sep b.
Proof.
  induction a as [|x a IH]; intros Hsep.
  - change (EmptyString +:+ String sep b) with (String sep b). simpl.
    by rewrite bool_decide_eq_true_2.
  - unfold of_string in *. simpl in Hsep.
    apply not_elem_of_cons in Hsep as [Hx Ha].
    rewrite string_cons_app. simpl.
    rewrite bool_decide_eq_false_2 by done. by rewrite IH.
Qed.

Lemma head_split_app (sep : ascii) (a b : string) :
  head (split sep (a +:+ String sep b)) = head (split sep a).
Proof.
  induction a as [|x a IH].
  - change (EmptyString +:+ String sep b) with (String sep b). simpl.
    by rewrite bool_decide_eq_true_2.
  - rewrite string_cons_app. simpl. case_bool_decide; [done|].
    destruct (split sep (a +:+ String sep b)), (split sep a); simpl in *; congruence.
Qed.

Lemma split_plain (sep : ascii) (a : string) :
  sep ∉ of_string a → split sep a = [a].
Proof.
  induction a as [|x a IH]; intros Hsep; simpl; [done|].
  unfold of_string in *. simpl in Hsep.
  apply not_elem_of_cons in Hsep as [Hx Ha].
  rewrite bool_decide_eq_false_2 by done. by rewrite IH.
Qed.

Lemma head_split_is_Some (sep : ascii) (s : string) : is_Some (head (split sep s)).
Proof.
  induction s as [|x s [h IH]]; simpl; [by eexists|].
  case_bool_decide; [by eexists|].
  destruct (split sep s); simpl in *; by eexists.
Qed.

(** X4: For every file name of the form the monitor looks for,
    [eqlog_{character}_{server}.txt], a character name is found: it is the
    part of [character] before its first underscore, so [character] itself
    when it has none; dots in the server name ([pq.proj]) do not matter.
    [get_active_character] gives that name while such a file is the
    active one. *)
Theorem extract_character_name_of_log_name (character server : string) :
  let filepath := "eqlog_" +:+ character +:+ "_" +:+ server +:+ ".txt" in
  _extract_character_name filepath = head (split "_" character)
  ∧ is_Some (_extract_character_name filepath)
  ∧ ("_"%char ∉ of_string character → _extract_character_name filepath = Some character)
  ∧ ∀ m : Monitor,
      active_file m = Some filepath →
      get_active_character m = head (split "_" character).
Proof.
  intros filepath.
  assert (_extract_character_name filepath = head (split "_" character)) as Hhead.
  { unfold _extract_character_name, filepath.
    replace ("eqlog_" +:+ character +:+ "_" +:+ server +:+ ".txt")
      with (("eqlog_" +:+ character +:+ "_" +:+ server) +:+ ".txt")
      by (by rewrite !string_app_assoc).
    rewrite stem_txt by done.
    change ("eqlog_" +:+ character +:+ "_" +:+ server)
      with ("eqlog" +:+ String "_" (character +:+ String "_" server)).
    rewrite split_app_sep by (apply (bool_decide_unpack _); by vm_compute).
    rewrite <- (head_split_app "_" character server).
    by destruct (split "_" (character +:+ String "_" server)). }
  split; [done|]. split; [|split].
  - rewrite Hhead. apply head_split_is_Some.
  - intros Hplain. by rewrite Hhead, split_plain.
  - intros m Hm. unfold get_active_character. by rewrite Hm.
Qed.

(** *** What the monitor hands over, character by character *)

(** The characters of a text that are no line ends. *)
Definition content_chars (s : text) : text :=
  filter (fun c => is_newline_char c = false) s.

Lemma content_chars_cons_plain (c : ascii) (s : text) :
  is_newline_char c = false → content_chars (c :: s) = c :: content_chars s.
Proof. intros Hc. unfold content_chars. by rewrite filter_cons_True. Qed.


Lemma rstrip_nl_content (l : text) (c : ascii) :
  plain l → is_newline_char c = true → rstrip_nl (l ++ [c]) = l.
Proof.
  intros Hl Hc. induction Hl as [|d l Hd Hl IH]; simpl; [by rewrite Hc|].
  rewrite IH, Hd. by destruct l.
Qed.

Lemma content_chars_plain (l : text) : plain l → content_chars l = l.
Proof.
  induction 1 as [|c l Hc Hl IH]; [done|].
  by rewrite content_chars_cons_plain, IH.
Qed.





End LogMonitorFacts.

(** ** Python built-ins used by the pipeline *)

Module Py.

(** Strings are byte strings; the case and white-space functions below
    are Python's restricted to ASCII, other bytes are left alone. *)

Definition lower_char (c : ascii) : ascii :=
  let n := nat_of_ascii c in
  if (65 <=? n)%nat && (n <=? 90)%nat then ascii_of_nat (n + 32) else c.

(** [str.lower()]. *)
Fixpoint lower (s : string) : string :=
  match s with
  | EmptyString => EmptyString
  | String c r => String (lower_char c) (lower r)
  end.

(** [str.isspace()] on one ASCII character. *)
Definition is_space (c : ascii) : bool :=
  let n := nat_of_ascii c in
  ((9 <=? n)%nat && (n <=? 13)%nat) || ((28 <=? n)%nat && (n <=? 32)%nat).

Fixpoint lstrip (s : string) : string :=
  match s with
  | EmptyString => EmptyString
  | String c r => if is_space c then lstrip r else s
  end.

Fixpoint rstrip (s : string) : string :=
  match s with
  | EmptyString => EmptyString
  | String c r =>
      match rstrip r with
      | EmptyString => if is_space c then EmptyString else String c EmptyString
      | r' => String c r'
      end
  end.

(** [str.strip()]. *)
Definition strip (s : string) : string := rstrip (lstrip s).

(** Truth value of a [str]. *)
Definition truthy (s : string) : bool :=
  match s with EmptyString => false | _ => true end.

(** A Python [set] is kept as the list of its elements in the order in
    which they were first added.  Membership and [add] do not depend on
    that order; iteration ([list(s)]) does not follow it, see
    [set_iteration] below. *)
Definition set_add `{EqDecision A} (x : A) (s : list A) : list A :=
  if bool_decide (x ∈ s) then s else s ++ [x].

(** [l[-n:]]. *)
Definition last_n {A} (n : nat) (l : list A) : list A :=
  drop (length l - n) l.

End Py.

(** ** [discord_notifier.py]: class [DiscordNotifier] *)

Module DiscordNotifier.

(** An entry of [message_queue]: [(webhook_url, message)], or [None], the
    stop signal. *)
Abbreviation Item := (option (string * string)).

(** [notify(message, webhook_url)]: the queue afterwards. *)
Definition notify (default_webhook_url : option string) (message : string)
    (webhook_url : option string) (queue : list (string * string))
  : list (string * string) :=
  let url :=
    match webhook_url with
    | None => Py.strip (default "" default_webhook_url)
    | Some u => Py.strip u
    end in
  if Py.truthy url then queue ++ [(url, message)] else queue.

(** What [requests.post] followed by [raise_for_status] does for one call:
    it returns, it raises a [RequestException] (connection errors, timeouts
    and HTTP error statuses are all of that class), or it raises something
    else. *)
Inductive PostResult := PostOk | PostRequestException | PostOtherException.

(** What the worker thread does, as the outside sees it. *)
Inductive Event :=
  | Post (webhook_url message : string)   (* requests.post(webhook_url, json={'content': message}) *)
  | LogSent                               (* logger.info: message sent successfully *)
  | LogSendError                          (* logger.error: Error sending Discord notification *)
  | LogSkippedEmptyWebhook                (* logger.warning: webhook URL is empty *)
  | TaskDone                              (* message_queue.task_done() *)
  | Sleep.                                (* time.sleep(0.5) *)

(** [_send_message(webhook_url, message)]: the events, and whether an
    exception leaves the function. *)
Definition _send_message (r : PostResult) (webhook_url message : string)
  : list Event * bool :=
  if negb (Py.truthy webhook_url) then ([], false)
  else
    match r with
    | PostOk => ([Post webhook_url message; LogSent], false)
    | PostRequestException => ([Post webhook_url message; LogSendError], false)
    | PostOtherException => ([Post webhook_url message], true)
    end.

(** The loop of [_worker] run on the queue as it stands: [net k] is what
    the [k]-th call of [requests.post] does.  It returns the events and
    the queue left behind when the worker stops on the stop signal or
    blocks on the empty queue.  Nothing in the loop puts an item on the
    queue. *)
Fixpoint _worker (net : nat → PostResult) (k : nat) (queue : list Item)
  : list Event * list Item :=
  match queue with
  | [] => ([], [])
  | None :: rest => ([], rest)
  | Some (webhook_url, message) :: rest =>
      if negb (Py.truthy webhook_url && Py.truthy (Py.strip webhook_url)) then
        let '(evs, q) := _worker net k rest in
        (LogSkippedEmptyWebhook :: TaskDone :: evs, q)
      else
        let '(sent, raised) := _send_message (net k) webhook_url message in
        let '(evs, q) := _worker net (S k) rest in
        (sent ++ (if raised then [] else [TaskDone; Sleep]) ++ evs, q)
  end.

(** The calls of [requests.post] among the events. *)
Definition posts (evs : list Event) : list (string * string) :=
  omap (fun e => match e with Post u m => Some (u, m) | _ => None end) evs.

Definition sendable (it : Item) : bool :=
  match it with
  | Some (u, _) => Py.truthy u && Py.truthy (Py.strip u)
  | None => false
  end.

End DiscordNotifier.

(** ** Properties of the delivery worker *)

Section DiscordNotifierFacts.
Import DiscordNotifier.

(** The queue entries the worker takes before it stops. *)
Fixpoint until_stop (queue : list Item) : list (string * string) :=
  match queue with
  | Some it :: rest => it :: until_stop rest
  | _ => []
  end.

Definition n_sendable (pre : list (string * string)) : nat :=
  length (filter (fun it => sendable (Some it) = true) pre).

Lemma worker_app (net : nat → PostResult) (k : nat)
    (pre : list (string * string)) (rest : list Item) :
  _worker net k ((Some <$> pre) ++ rest)
  = ((_worker net k (Some <$> pre)).1 ++ (_worker net (k + n_sendable pre) rest).1,
     (_worker net (k + n_sendable pre) rest).2).
Proof.
  revert k. induction pre as [|[u m] pre IH]; intros k.
  - simpl. unfold n_sendable. simpl. rewrite Nat.add_0_r.
    by destruct (_worker net k rest).
  - rewrite fmap_cons. cbn [app _worker]. unfold n_sendable.
    destruct (Py.truthy u && Py.truthy (Py.strip u)) eqn:Hs; cbn [negb].
    + rewrite filter_cons_True by (simpl; by rewrite Hs).
      rewrite (IH (S k)). cbn [length].
      replace (k + S (length (filter (λ it, sendable (Some it) = true) pre)))%nat
        with (S k + n_sendable pre)%nat by (unfold n_sendable; lia).
      destruct (_send_message (net k) u m) as [sent raised].
      destruct (_worker net (S k) (Some <$> pre)) as [e1 q1].
      destruct (_worker net (S k + n_sendable pre) rest) as [e2 q2].
      simpl. by rewrite <- !app_assoc.
    + rewrite filter_cons_False by (simpl; by rewrite Hs).
      rewrite (IH k). fold (n_sendable pre).
      destruct (_worker net k (Some <$> pre)) as [e1 q1].
      destruct (_worker net (k + n_sendable pre) rest) as [e2 q2].
      done.
Qed.

Lemma worker_posts (net : nat → PostResult) (k : nat) (queue : list Item) :
  posts (_worker net k queue).1
  = filter (fun it => sendable (Some it) = true) (until_stop queue).
Proof.
  revert k. induction queue as [|[[u m]|] rest IH]; intros k; [done| |done].
  cbn [_worker until_stop].
  destruct (Py.truthy u && Py.truthy (Py.strip u)) eqn:Hs; cbn [negb].
  - rewrite filter_cons_True by (simpl; by rewrite Hs).
    specialize (IH (S k)). unfold _send_message.
    assert (Py.truthy u = true) as -> by (by apply andb_true_iff in Hs as [? _]).
    cbn [negb].
    destruct (_worker net (S k) rest) as [evs q]. simpl in IH.
    destruct (net k); simpl; unfold posts in *; simpl; by rewrite IH.
  - rewrite filter_cons_False by (simpl; by rewrite Hs).
    specialize (IH k). destruct (_worker net k rest) as [evs q]. simpl in *.
    done.
Qed.




End DiscordNotifierFacts.

(** ** [message_parser.py], [boss_database.py] and [main.py] *)

(** [SAME_KILL_WINDOW_SECONDS]. *)
Definition SAME_KILL_WINDOW_SECONDS : Z := 9.

(** The dataclass [BossKillMessage]; Python compares two of them field by
    field ([==] of a dataclass), which is Rocq's equality here. *)
Record BossKillMessage := mkMsg {
  timestamp : string;
  server : string;
  player : string;
  guild : string;
  monster : string;
  location : string
}.

Global Instance BossKillMessage_eq_dec : EqDecision BossKillMessage.
Proof. solve_decision. Defined.

(** What [boss['last_killed']] holds: the parsed log time ([isoformat] of
    it), or the wall clock when the log time does not parse. *)
Inductive KillTime := LogTime (t : Z) | ClockTime.

(** A boss dictionary of [BossDatabase.bosses], each field read with the
    default the code gives to [dict.get]. *)
Record Boss := mkBoss {
  name : string;
  boss_location : string;
  enabled : bool;
  kill_count : Z;
  last_killed : option KillTime;
  last_killed_timestamp : option string;
  note : string;
  respawn_hours : option Q;
  respawn_hours_is_default : bool
}.

(** The reason codes handed to [_add_activity_entry] as [status]. *)
Inductive Status :=
  | DuplicateExactTimestamp          (* "Duplicate detected (exact timestamp match)" *)
  | LocationMismatchNoEntry (loc : string)
                                     (* "Location mismatch (no {loc} entry for this boss)" *)
  | LateDuplicatePosted (diff : Z)   (* "Late duplicate (posted {diff:.1f}s ago)" *)
  | DuplicateSameTimestampInBuffer   (* "Duplicate detected (same timestamp already in buffer)" *)
  | LateDuplicateExact               (* "Late duplicate (exact timestamp match)" *)
  | LateDuplicateWithin (diff : Z)   (* "Late duplicate (within {diff:.1f}s)" *)
  | Cancelled                        (* "Kill detected but cancelled (duplicate name selection)" *)
  | LocationMismatchSelected (boss_loc msg_loc : string)
                                     (* "Location mismatch (selected boss is .., message is ..)" *)
  | LocationMismatch (boss_loc msg_loc : string)
                                     (* "Location mismatch (boss is .., message is ..)" *)
  | Disabled                         (* "Boss kill detected (disabled - not posted)" *)
  | NewBossDetected                  (* "New boss detected (not in database)" *)
  | SkippedByBuffer (selected_loc : string)
                                     (* "Duplicate message skipped (buffer selected {loc} message instead)" *)
  | BossNotFound                     (* "Error: Boss not found or selection cancelled" *)
  | DuplicateExactMatch              (* "Duplicate detected (exact match), skipped" *)
  | DuplicateWithin (diff : Z)       (* "Duplicate (within {diff:.1f}s of previous kill)" *)
  | DuplicatePosted (elapsed : Q)    (* "Duplicate (posted {elapsed:.0f}s ago), skipped" *)
  | DuplicateOnDiscord               (* "Duplicate detected, skipped" *)
  | NotPostedNoWebhook               (* "Not posted (no webhook URL in settings)" *)
  | PostedToDiscord.                 (* "Posted to Discord" *)

(** A row of the activity log, as [activity_db.add_activity] receives it. *)
Record Activity := mkActivity {
  a_parsed : BossKillMessage;
  a_status : Status;
  a_posted : bool;
  a_message : option string
}.

(** An entry of [message_buffer]; the timer is the event [timer_fired]. *)
Record Buffer := mkBuffer {
  messages : list BossKillMessage;
  processed : bool
}.

(** How showing [DuplicateBossDialog] ends. *)
Inductive DialogOutcome :=
  | DialogImportError                 (* the import raises ImportError *)
  | DialogException                   (* anything else raises *)
  | DialogAccepted (sel : option nat) (* OK, with the checked radio button *)
  | DialogRejected.                   (* Cancel, or the window is closed *)

(** What one handler reads from outside while it runs. *)
Record Env := mkEnv {
  dialog : DialogOutcome;
  new_boss_default_action : string;     (* settings['new_boss_default_action'] *)
  default_webhook_url : option string;  (* discord_notifier.default_webhook_url *)
  settings_file_1 : option string;      (* default_webhook_url in settings.json, first read; *)
  settings_file_2 : option string;      (* second read; *)
  settings_file_3 : option string;      (* third read.  None: file missing or unreadable *)
  checker_ready : bool;                 (* discord_checker and discord_checker.ready *)
  channel_id_found : bool;              (* _get_channel_id gives an id *)
  check_duplicate_sync : option bool;   (* None: the check raises *)
  clock_cooldown : Q;                   (* time.time() at the wall-clock check *)
  clock_post : Q;                       (* time.time() at the post *)
  lockout_message_template : string;
  message_template : string
}.

(** The state of [BossTrackerApp] that the pipeline reads and writes,
    with the registry ([boss_db.bosses]), the activity log
    ([activity_db]) and the delivery queue ([discord_notifier.message_queue])
    it drives.  [selection_requests] lists the calls of
    [_handle_duplicate_boss_selection], [deferred_kills] the calls of
    [_process_boss_kill] that a zero-delay timer still has to make.  Log
    output, sounds, tray notifications and window refreshes are left out:
    no handler reads them back. *)
Record App := mkApp {
  bosses : list Boss;
  recently_processed_kills : list (string * string);
  recently_processed_lines : list string;
  recent_kills_by_monster : gmap string (list (Z * string));
  _last_discord_post_time_by_monster : gmap string Q;
  message_buffer : gmap string Buffer;
  pending_boss_kills : gmap string BossKillMessage;
  active_new_boss_dialogs : gset string;
  _active_duplicate_dialogs : gset string;
  log_line_queue : list string;
  activity : list Activity;
  message_queue : list (string * string);
  selection_requests : list (string * list nat);
  deferred_kills : list (BossKillMessage * nat)
}.

Definition duplicate_boss_names : list string :=
  ["Thall Va Xakra"; "Kaas Thox Xi Aten Ha Ra"].

Definition is_lockout (loc : string) : bool := bool_decide (loc = "Lockouts").

Definition Qltb (x y : Q) : bool := negb (Qle_bool y x).

(** *** [BossDatabase] *)

Definition name_matches (monster_name : string) (b : Boss) : bool :=
  bool_decide (Py.lower (name b) = Py.lower monster_name).

Definition db_exists (bs : list Boss) (monster_name : string) : bool :=
  existsb (name_matches monster_name) bs.

(** Bosses are handed around by reference: a reference is the position of
    the dictionary in [bosses]. *)
Fixpoint indices_from (i : nat) (bs : list Boss) (monster_name : string) : list nat :=
  match bs with
  | [] => []
  | b :: bs' =>
      if name_matches monster_name b
      then i :: indices_from (S i) bs' monster_name
      else indices_from (S i) bs' monster_name
  end.

Definition get_bosses_by_name (bs : list Boss) (monster_name : string) : list nat :=
  indices_from 0 bs monster_name.

Definition get_boss (bs : list Boss) (monster_name : string) : option nat :=
  head (get_bosses_by_name bs monster_name).

(** [boss.get('enabled', False)] and the like, through a reference. *)
Definition boss_enabled (bs : list Boss) (ref : nat) : bool :=
  from_option enabled false (bs !! ref).
Definition boss_loc (bs : list Boss) (ref : nat) : string :=
  from_option boss_location "" (bs !! ref).
Definition boss_note (bs : list Boss) (ref : nat) : string :=
  from_option (fun b => Py.strip (note b)) "" (bs !! ref).

(** [add_boss(monster_name, location, enabled)]: the registry afterwards
    and the reference returned. *)
Definition add_boss (bs : list Boss) (monster_name loc : string) (en : bool)
  : list Boss * nat :=
  let allow_duplicate := bool_decide (monster_name ∈ duplicate_boss_names) in
  match (if allow_duplicate then None else get_boss bs monster_name) with
  | Some ref =>
      (if Py.truthy loc && negb (Py.truthy (boss_loc bs ref))
       then alter (fun b => mkBoss (name b) loc (enabled b) (kill_count b)
                              (last_killed b) (last_killed_timestamp b) (note b)
                              (respawn_hours b) (respawn_hours_is_default b)) ref bs
       else bs, ref)
  | None =>
      (bs ++ [mkBoss monster_name loc en 0 None None "" None false], length bs)
  end.


(** Assignment to one attribute of the application object. *)
Definition set_bosses v (st : App) : App :=
  mkApp v (recently_processed_kills st) (recently_processed_lines st)
    (recent_kills_by_monster st) (_last_discord_post_time_by_monster st)
    (message_buffer st) (pending_boss_kills st) (active_new_boss_dialogs st)
    (_active_duplicate_dialogs st) (log_line_queue st) (activity st) (message_queue st)
    (selection_requests st) (deferred_kills st).
Definition set_recently_processed_kills v (st : App) : App :=
  mkApp (bosses st) v (recently_processed_lines st) (recent_kills_by_monster st)
    (_last_discord_post_time_by_monster st) (message_buffer st) (pending_boss_kills st)
    (active_new_boss_dialogs st) (_active_duplicate_dialogs st) (log_line_queue st)
    (activity st) (message_queue st) (selection_requests st) (deferred_kills st).
Definition set_recently_processed_lines v (st : App) : App :=
  mkApp (bosses st) (recently_processed_kills st) v (recent_kills_by_monster st)
    (_last_discord_post_time_by_monster st) (message_buffer st) (pending_boss_kills st)
    (active_new_boss_dialogs st) (_active_duplicate_dialogs st) (log_line_queue st)
    (activity st) (message_queue st) (selection_requests st) (deferred_kills st).
Definition set_recent_kills_by_monster v (st : App) : App :=
  mkApp (bosses st) (recently_processed_kills st) (recently_processed_lines st) v
    (_last_discord_post_time_by_monster st) (message_buffer st) (pending_boss_kills st)
    (active_new_boss_dialogs st) (_active_duplicate_dialogs st) (log_line_queue st)
    (activity st) (message_queue st) (selection_requests st) (deferred_kills st).
Definition set_last_discord_post_time_by_monster v (st : App) : App :=
  mkApp (bosses st) (recently_processed_kills st) (recently_processed_lines st)
    (recent_kills_by_monster st) v (message_buffer st) (pending_boss_kills st)
    (active_new_boss_dialogs st) (_active_duplicate_dialogs st) (log_line_queue st)
    (activity st) (message_queue st) (selection_requests st) (deferred_kills st).
Definition set_message_buffer v (st : App) : App :=
  mkApp (bosses st) (recently_processed_kills st) (recently_processed_lines st)
    (recent_kills_by_monster st) (_last_discord_post_time_by_monster st) v
    (pending_boss_kills st) (active_new_boss_dialogs st) (_active_duplicate_dialogs st)
    (log_line_queue st) (activity st) (message_queue st) (selection_requests st)
    (deferred_kills st).
Definition set_pending_boss_kills v (st : App) : App :=
  mkApp (bosses st) (recently_processed_kills st) (recently_processed_lines st)
    (recent_kills_by_monster st) (_last_discord_post_time_by_monster st)
    (message_buffer st) v (active_new_boss_dialogs st) (_active_duplicate_dialogs st)
    (log_line_queue st) (activity st) (message_queue st) (selection_requests st)
    (deferred_kills st).
Definition set_active_new_boss_dialogs v (st : App) : App :=
  mkApp (bosses st) (recently_processed_kills st) (recently_processed_lines st)
    (recent_kills_by_monster st) (_last_discord_post_time_by_monster st)
    (message_buffer st) (pending_boss_kills st) v (_active_duplicate_dialogs st)
    (log_line_queue st) (activity st) (message_queue st) (selection_requests st)
    (deferred_kills st).
Definition set_active_duplicate_dialogs v (st : App) : App :=
  mkApp (bosses st) (recently_processed_kills st) (recently_processed_lines st)
    (recent_kills_by_monster st) (_last_discord_post_time_by_monster st)
    (message_buffer st) (pending_boss_kills st) (active_new_boss_dialogs st) v
    (log_line_queue st) (activity st) (message_queue st) (selection_requests st)
    (deferred_kills st).
Definition set_log_line_queue v (st : App) : App :=
  mkApp (bosses st) (recently_processed_kills st) (recently_processed_lines st)
    (recent_kills_by_monster st) (_last_discord_post_time_by_monster st)
    (message_buffer st) (pending_boss_kills st) (active_new_boss_dialogs st)
    (_active_duplicate_dialogs st) v (activity st) (message_queue st)
    (selection_requests st) (deferred_kills st).
Definition set_activity v (st : App) : App :=
  mkApp (bosses st) (recently_processed_kills st) (recently_processed_lines st)
    (recent_kills_by_monster st) (_last_discord_post_time_by_monster st)
    (message_buffer st) (pending_boss_kills st) (active_new_boss_dialogs st)
    (_active_duplicate_dialogs st) (log_line_queue st) v (message_queue st)
    (selection_requests st) (deferred_kills st).
Definition set_message_queue v (st : App) : App :=
  mkApp (bosses st) (recently_processed_kills st) (recently_processed_lines st)
    (recent_kills_by_monster st) (_last_discord_post_time_by_monster st)
    (message_buffer st) (pending_boss_kills st) (active_new_boss_dialogs st)
    (_active_duplicate_dialogs st) (log_line_queue st) (activity st) v
    (selection_requests st) (deferred_kills st).
Definition set_selection_requests v (st : App) : App :=
  mkApp (bosses st) (recently_processed_kills st) (recently_processed_lines st)
    (recent_kills_by_monster st) (_last_discord_post_time_by_monster st)
    (message_buffer st) (pending_boss_kills st) (active_new_boss_dialogs st)
    (_active_duplicate_dialogs st) (log_line_queue st) (activity st) (message_queue st)
    v (deferred_kills st).
Definition set_deferred_kills v (st : App) : App :=
  mkApp (bosses st) (recently_processed_kills st) (recently_processed_lines st)
    (recent_kills_by_monster st) (_last_discord_post_time_by_monster st)
    (message_buffer st) (pending_boss_kills st) (active_new_boss_dialogs st)
    (_active_duplicate_dialogs st) (log_line_queue st) (activity st) (message_queue st)
    (selection_requests st) v.

(** A call that returns a value or lets an exception out. *)
Inductive Outcome (A : Type) := Returned (a : A) | Raised.
Arguments Returned {A} a.
Arguments Raised {A}.

(** *** The handlers of [BossTrackerApp] *)

Section Tracker.

(** Library functions the handlers call:
    [datetime.strptime(s, "%a %b %d %H:%M:%S %Y")] as seconds ([None]:
    it raises [ValueError]); [DiscordNotifier.format_message] applied to
    a template, the fields of the message and the note; the hex digest
    of [hashlib.md5]; the two grammars of [MessageParser]; and the order
    in which [list(s)] goes through a set, given the order in which its
    elements were added. *)
Variable strptime : string → option Z.
Variable format_message : string → BossKillMessage → string → string.
Variable md5 : string → string.
Variable parse_line : string → option BossKillMessage.
Variable parse_lockout_line : string → option BossKillMessage.
Variable set_iteration : ∀ A : Type, list A → list A.

Definition kill_key_of (parsed : BossKillMessage) : string * string :=
  (timestamp parsed, Py.lower (monster parsed)).

(** [increment_kill_count(monster_name, kill_timestamp, boss=boss)]. *)
Definition increment_kill_count (bs : list Boss) (kill_timestamp : string)
    (ref : nat) : list Boss :=
  alter (fun b =>
    let is_default :=
      if bool_decide (respawn_hours b ≠ None) && respawn_hours_is_default b
      then false else respawn_hours_is_default b in
    let count := kill_count b + 1 in
    if Py.truthy kill_timestamp then
      match strptime kill_timestamp with
      | Some t =>
          mkBoss (name b) (boss_location b) (enabled b) count
            (Some (LogTime t)) (Some kill_timestamp) (note b)
            (respawn_hours b) is_default
      | None =>
          mkBoss (name b) (boss_location b) (enabled b) count
            (Some ClockTime) (last_killed_timestamp b) (note b)
            (respawn_hours b) is_default
      end
    else
      mkBoss (name b) (boss_location b) (enabled b) count
        (Some ClockTime) (last_killed_timestamp b) (note b)
        (respawn_hours b) is_default) ref bs.

(** [_add_activity_entry(parsed, status, posted, message)]; the activity
    database is taken not to fail. *)
Definition _add_activity_entry (parsed : BossKillMessage) (status : Status)
    (posted : bool) (message : option string) (st : App) : App :=
  set_activity (activity st ++ [mkActivity parsed status posted message]) st.

(** [_get_webhook_url_for_post()], given what the settings file holds. *)
Definition _get_webhook_url_for_post (file : option string) : string :=
  match file with
  | Some raw => Py.strip raw
  | None => ""
  end.

(** The scan of [recent_kills_by_monster[monster_key]] for a kill within
    the same-kill window: the [time_diff] of the first one found. *)
Definition time_window_hit (kill_time : Z) (recent : list (Z * string)) : option Z :=
  match List.find (fun p => Z.abs (kill_time - fst p) <=? SAME_KILL_WINDOW_SECONDS) recent with
  | Some p => Some (Z.abs (kill_time - fst p))
  | None => None
  end.

Definition recent_kill_check (st : App) (parsed : BossKillMessage) : option Z :=
  match strptime (timestamp parsed) with
  | None => None
  | Some kill_time =>
      match recent_kills_by_monster st !! Py.lower (monster parsed) with
      | None => None
      | Some recent => time_window_hit kill_time recent
      end
  end.

(** Lines 1728-1740 of [_process_boss_kill]: mark the kill as processed. *)
Definition record_kill (parsed : BossKillMessage) (st : App) : App :=
  let st1 := set_recently_processed_kills
               (Py.set_add (kill_key_of parsed) (recently_processed_kills st)) st in
  match strptime (timestamp parsed) with
  | None => st1
  | Some kill_time =>
      let monster_key := Py.lower (monster parsed) in
      let appended :=
        default [] (recent_kills_by_monster st1 !! monster_key)
          ++ [(kill_time, location parsed)] in
      let cutoff_time := kill_time - 60 in
      set_recent_kills_by_monster
        (<[monster_key := Py.last_n 3 (filter (fun p => cutoff_time < fst p) appended)]>
           (recent_kills_by_monster st1)) st1
  end.

(** The delivery-side duplicate check of [_process_boss_kill]:
    [is_duplicate] after the [if self.discord_checker ...] block. *)
Definition is_duplicate_on_discord (env : Env) : bool :=
  let webhook_url := _get_webhook_url_for_post (settings_file_1 env) in
  if checker_ready env && Py.truthy webhook_url then
    if channel_id_found env
    then default false (check_duplicate_sync env)
    else false
  else false.

(** The wall-clock guard of [_process_boss_kill]: [elapsed] when the last
    post for this monster is less than the same-kill window ago. *)
Definition cooldown_hit (env : Env) (monster_key : string) (st : App) : option Q :=
  match _last_discord_post_time_by_monster st !! monster_key with
  | Some last =>
      let elapsed := (clock_cooldown env - last)%Q in
      if Qltb elapsed (inject_Z SAME_KILL_WINDOW_SECONDS) then Some elapsed else None
  | None => None
  end.

(** [_process_boss_kill(parsed, boss)]. *)
Definition _process_boss_kill (env : Env) (parsed : BossKillMessage) (boss : nat)
    (st : App) : App :=
  if bool_decide (kill_key_of parsed ∈ recently_processed_kills st) then
    _add_activity_entry parsed DuplicateExactMatch false None st
  else
    let monster_key := Py.lower (monster parsed) in
    match recent_kill_check st parsed with
    | Some time_diff =>
        _add_activity_entry parsed (DuplicateWithin time_diff) false None st
    | None =>
        let st := record_kill parsed st in
        let is_duplicate := is_duplicate_on_discord env in
        match cooldown_hit env monster_key st with
        | Some elapsed =>
            _add_activity_entry parsed (DuplicatePosted elapsed) false None st
        | None =>
            if is_duplicate then
              _add_activity_entry parsed DuplicateOnDiscord false None st
            else
              let template :=
                if is_lockout (location parsed)
                then lockout_message_template env else message_template env in
              let message := format_message template parsed (boss_note (bosses st) boss) in
              let webhook_url := _get_webhook_url_for_post (settings_file_2 env) in
              if negb (Py.truthy webhook_url) then
                _add_activity_entry parsed NotPostedNoWebhook false None st
              else
                let webhook_again := _get_webhook_url_for_post (settings_file_3 env) in
                if negb (Py.truthy webhook_again) then
                  _add_activity_entry parsed NotPostedNoWebhook false None st
                else
                  let st := set_last_discord_post_time_by_monster
                              (<[monster_key := clock_post env]>
                                 (_last_discord_post_time_by_monster st)) st in
                  let st := set_message_queue
                              (DiscordNotifier.notify (default_webhook_url env) message
                                 (Some webhook_again) (message_queue st)) st in
                  let st := set_bosses
                              (increment_kill_count (bosses st) (timestamp parsed) boss) st in
                  _add_activity_entry parsed PostedToDiscord true (Some message) st
        end
    end.

(** What [_handle_duplicate_boss_selection] hands back, given how the
    dialog ends.  In the two [except] branches the log call evaluates
    [duplicate_bosses[0]] before the [return], so an empty list lets an
    [IndexError] out. *)
Definition selection_outcome (env : Env) (duplicate_bosses : list nat)
  : Outcome (option nat) :=
  match dialog env with
  | DialogAccepted (Some i) => Returned (duplicate_bosses !! i)
  | DialogAccepted None => Returned None
  | DialogRejected => Returned None
  | DialogImportError | DialogException =>
      match duplicate_bosses with
      | [] => Raised
      | first :: _ => Returned (Some first)
      end
  end.

(** [_handle_duplicate_boss_selection(boss_name, duplicate_bosses, parsed)].
    Each call is noted in [selection_requests] with the candidates it was
    given. *)
Definition _handle_duplicate_boss_selection (env : Env) (boss_name : string)
    (duplicate_bosses : list nat) (st : App) : App * Outcome (option nat) :=
  (set_selection_requests
     (selection_requests st ++ [(boss_name, duplicate_bosses)]) st,
   selection_outcome env duplicate_bosses).

(** [_add_new_boss(name, location, enabled)]; the call of
    [_process_boss_kill] that [QTimer.singleShot(0, ...)] schedules is
    put in [deferred_kills]. *)
Definition _add_new_boss (boss_name loc : string) (en : bool) (st : App) : App :=
  let '(bs, boss) := add_boss (bosses st) boss_name loc en in
  let st := set_bosses bs st in
  if en then
    let boss_key := Py.lower boss_name in
    match pending_boss_kills st !! boss_key with
    | Some parsed =>
        let st := set_deferred_kills (deferred_kills st ++ [(parsed, boss)]) st in
        set_pending_boss_kills (delete boss_key (pending_boss_kills st)) st
    | None => st
    end
  else st.

(** [_handle_new_boss(parsed)]. *)
Definition _handle_new_boss (env : Env) (parsed : BossKillMessage) (st : App) : App :=
  let boss_key := Py.lower (monster parsed) in
  if db_exists (bosses st) (monster parsed) then st
  else
    let new_boss_default := new_boss_default_action env in
    if bool_decide (new_boss_default ∈ ["enable"; "disable"]) then
      _add_new_boss (monster parsed) (location parsed)
        (bool_decide (new_boss_default = "enable")) st
    else if bool_decide (boss_key ∈ active_new_boss_dialogs st) then st
    else set_active_new_boss_dialogs ({[boss_key]} ∪ active_new_boss_dialogs st) st.

(** The first lines of the new-boss branches: remember the kill and log
    "New boss detected". *)
Definition new_boss_detected (env : Env) (parsed : BossKillMessage) (st : App) : App :=
  let st := set_pending_boss_kills
              (<[Py.lower (monster parsed) := parsed]> (pending_boss_kills st)) st in
  let st := _add_activity_entry parsed NewBossDetected false None st in
  _handle_new_boss env parsed st.

(** The choice of [selected_message] in [_process_buffered_messages]. *)
Definition select_message (msgs : list BossKillMessage) : option BossKillMessage :=
  let guild_messages := filter (fun msg => location msg ≠ "Lockouts") msgs in
  let lockout_messages := filter (fun msg => location msg = "Lockouts") msgs in
  match guild_messages with
  | first :: _ => Some first
  | [] => head lockout_messages
  end.

(** [skipped_messages]: the comparison is the dataclass's [!=]. *)
Definition skipped_messages (msgs : list BossKillMessage)
    (selected_message : BossKillMessage) : list BossKillMessage :=
  filter (fun msg => msg ≠ selected_message) msgs.

(** Lines 1384-1426 of [_process_buffered_messages]: once [boss] is set,
    check the location type and the enabled flag, and process the kill. *)
Definition finish_selected (env : Env) (selected_message : BossKillMessage)
    (all_bosses : list nat) (st : App) (boss : nat) : App :=
  let boss_location := boss_loc (bosses st) boss in
  let parsed_is_lockout := is_lockout (location selected_message) in
  let boss_is_lockout := is_lockout boss_location in
  let is_known_dup := bool_decide (monster selected_message ∈ duplicate_boss_names) in
  if (1 <? length all_bosses)%nat && negb (eqb parsed_is_lockout boss_is_lockout)
     && negb is_known_dup then
    if boss_enabled (bosses st) boss then
      _add_activity_entry selected_message
        (LocationMismatch boss_location (location selected_message)) false None st
    else st
  else if boss_enabled (bosses st) boss then
    _process_boss_kill env selected_message boss st
  else _add_activity_entry selected_message Disabled false None st.

(** The condition under which [_process_buffered_messages] shows the
    selection dialog. *)
Definition needs_selection (bs : list Boss) (selected_message : BossKillMessage) : bool :=
  let all_bosses := get_bosses_by_name bs (monster selected_message) in
  let bosses_with_notes :=
    filter (fun b => Py.truthy (boss_note bs b) = true) all_bosses in
  let has_multiple_variants := (1 <? length bosses_with_notes)%nat in
  let is_known_duplicate := bool_decide (monster selected_message ∈ duplicate_boss_names) in
  (1 <? length all_bosses)%nat && (has_multiple_variants || is_known_duplicate).

(** Lines 1277-1426 of [_process_buffered_messages]: resolve the selected
    message against the registry and process it. *)
Definition resolve_selected (env : Env) (selected_message : BossKillMessage)
    (st : App) : App :=
  if negb (db_exists (bosses st) (monster selected_message)) then
    new_boss_detected env selected_message st
  else
    let all_bosses := get_bosses_by_name (bosses st) (monster selected_message) in
    if needs_selection (bosses st) selected_message then
      let dialog_key := Py.lower (monster selected_message) in
      if bool_decide (dialog_key ∈ _active_duplicate_dialogs st) then st
      else
        let st := set_active_duplicate_dialogs
                    ({[dialog_key]} ∪ _active_duplicate_dialogs st) st in
        let '(st, boss) :=
          _handle_duplicate_boss_selection env (monster selected_message) all_bosses st in
        let finally (st : App) : App :=
          set_active_duplicate_dialogs (_active_duplicate_dialogs st ∖ {[dialog_key]}) st in
        match boss with
        | Raised => finally st
        | Returned None =>
            finally (_add_activity_entry selected_message Cancelled false None st)
        | Returned (Some boss) =>
            finish_selected env selected_message all_bosses (finally st) boss
        end
    else
      match all_bosses with
      | [boss] => finish_selected env selected_message all_bosses st boss
      | _ => _add_activity_entry selected_message BossNotFound false None st
      end.

(** [_process_buffered_messages(monster_key)]. *)
Definition _process_buffered_messages (env : Env) (monster_key : string)
    (st : App) : App :=
  match message_buffer st !! monster_key with
  | None => st
  | Some buffer_data =>
      if processed buffer_data then st
      else
        let msgs := messages buffer_data in
        let st := set_message_buffer
                    (<[monster_key := mkBuffer msgs true]> (message_buffer st)) st in
        match select_message msgs with
        | None => set_message_buffer (delete monster_key (message_buffer st)) st
        | Some selected_message =>
            let st :=
              foldl (fun st skipped =>
                       _add_activity_entry skipped
                         (SkippedByBuffer (location selected_message)) false None st)
                    st (skipped_messages msgs selected_message) in
            let st := set_message_buffer (delete monster_key (message_buffer st)) st in
            resolve_selected env selected_message st
        end
  end.

(** The closure connected to the buffer's timer. *)
Definition timer_fired (env : Env) (monster_key : string) (st : App) : App :=
  match message_buffer st !! monster_key with
  | Some buffer_data =>
      if processed buffer_data then st
      else _process_buffered_messages env monster_key st
  | None => st
  end.

(** A callback scheduled by [QTimer.singleShot(0, ...)] runs. *)
Definition run_deferred (env : Env) (st : App) : App :=
  match deferred_kills st with
  | [] => st
  | (parsed, boss) :: rest =>
      _process_boss_kill env parsed boss (set_deferred_kills rest st)
  end.

(** [_on_new_log_line(line)], the ingest gate. *)
Definition _on_new_log_line (line : string) (st : App) : App :=
  let line_hash := md5 line in
  if bool_decide (line_hash ∈ recently_processed_lines st) then st
  else
    let st := set_recently_processed_lines
                (Py.set_add line_hash (recently_processed_lines st)) st in
    set_log_line_queue (log_line_queue st ++ [line]) st.

(** The clean-up of [_process_log_line] (lines 924-935):
    [if len(s) > ceiling: entries_list = list(s); s = set(entries_list[len(entries_list)//2:])]. *)
Definition evict_half {A : Type} (ceiling : nat) (s : list A) : list A :=
  if (ceiling <? length s)%nat then
    let entries_list := set_iteration A s in
    drop (length entries_list / 2) entries_list
  else s.

(** The "late message" scan of [_process_log_line]. *)
Definition late_check (st : App) (parsed : BossKillMessage) : option Z :=
  recent_kill_check st parsed.

(** Lines 1037-1188 of [_process_log_line]: a late message is processed
    at once. *)
Definition process_late (env : Env) (parsed : BossKillMessage) (st : App) : App :=
  let all_bosses := get_bosses_by_name (bosses st) (monster parsed) in
  let parsed_is_lockout := is_lockout (location parsed) in
  let process_or_disabled (st : App) (boss : nat) : App :=
    if boss_enabled (bosses st) boss then _process_boss_kill env parsed boss st
    else _add_activity_entry parsed Disabled false None st in
  if bool_decide (monster parsed ∈ duplicate_boss_names) && (0 <? length all_bosses)%nat then
    if (1 <? length all_bosses)%nat then
      let '(st, boss) :=
        _handle_duplicate_boss_selection env (monster parsed) all_bosses st in
      match boss with
      | Raised => st
      | Returned None => _add_activity_entry parsed Cancelled false None st
      | Returned (Some boss) =>
          let boss_location := boss_loc (bosses st) boss in
          if negb (eqb parsed_is_lockout (is_lockout boss_location)) then
            _add_activity_entry parsed
              (LocationMismatchSelected boss_location (location parsed)) false None st
          else process_or_disabled st boss
      end
    else
      match all_bosses with
      | boss :: _ =>
          let boss_location := boss_loc (bosses st) boss in
          if negb (eqb parsed_is_lockout (is_lockout boss_location)) then
            _add_activity_entry parsed
              (LocationMismatch boss_location (location parsed)) false None st
          else process_or_disabled st boss
      | [] => st
      end
  else if negb (db_exists (bosses st) (monster parsed)) then
    new_boss_detected env parsed st
  else
    let resolved : App * Outcome (option nat) :=
      if (1 <? length all_bosses)%nat then
        if bool_decide (monster parsed ∈ duplicate_boss_names) then
          _handle_duplicate_boss_selection env (monster parsed) all_bosses st
        else
          let matching_boss :=
            List.find (fun b => eqb parsed_is_lockout (is_lockout (boss_loc (bosses st) b)))
                      all_bosses in
          (st, Returned (match matching_boss with
                         | Some b => Some b
                         | None => head all_bosses
                         end))
      else (st, Returned (get_boss (bosses st) (monster parsed))) in
    let '(st, boss) := resolved in
    match boss with
    | Raised => st
    | Returned None =>
        if (1 <? length all_bosses)%nat
           && bool_decide (monster parsed ∈ duplicate_boss_names)
        then _add_activity_entry parsed Cancelled false None st
        else st
    | Returned (Some boss) =>
        let boss_location := boss_loc (bosses st) boss in
        if (1 <? length all_bosses)%nat
           && negb (eqb parsed_is_lockout (is_lockout boss_location)) then
          if boss_enabled (bosses st) boss then
            _add_activity_entry parsed
              (LocationMismatch boss_location (location parsed)) false None st
          else st
        else process_or_disabled st boss
    end.

(** [_process_log_line(line)]. *)
Definition _process_log_line (env : Env) (line : string) (st : App) : App :=
  let parsed_opt :=
    match parse_line line with
    | Some parsed => Some parsed
    | None => parse_lockout_line line
    end in
  match parsed_opt with
  | None => st
  | Some parsed =>
      let line_hash := md5 line in
      let kill_key := kill_key_of parsed in
      if bool_decide (kill_key ∈ recently_processed_kills st) then
        _add_activity_entry parsed DuplicateExactTimestamp false None st
      else
        let all_bosses := get_bosses_by_name (bosses st) (monster parsed) in
        let parsed_is_lockout := is_lockout (location parsed) in
        let has_matching_location_type :=
          existsb (fun b => eqb (is_lockout (boss_loc (bosses st) b)) parsed_is_lockout)
                  all_bosses in
        if negb (bool_decide (monster parsed ∈ duplicate_boss_names)
                 && (0 <? length all_bosses)%nat)
           && db_exists (bosses st) (monster parsed)
           && (1 <? length all_bosses)%nat && negb has_matching_location_type then
          match all_bosses with
          | first_boss :: _ =>
              if boss_enabled (bosses st) first_boss then
                _add_activity_entry parsed
                  (LocationMismatchNoEntry (location parsed)) false None st
              else st
          | [] => st
          end
        else
          let st := set_recently_processed_lines
                      (Py.set_add line_hash (recently_processed_lines st)) st in
          let st := set_recently_processed_lines
                      (evict_half 2000 (recently_processed_lines st)) st in
          let st := set_recently_processed_kills
                      (evict_half 1000 (recently_processed_kills st)) st in
          let monster_key := Py.lower (monster parsed) in
          match message_buffer st !! monster_key with
          | None =>
              match late_check st parsed with
              | Some time_diff =>
                  _add_activity_entry parsed (LateDuplicatePosted time_diff) false None st
              | None =>
                  set_message_buffer
                    (<[monster_key := mkBuffer [parsed] false]> (message_buffer st)) st
              end
          | Some buffer_data =>
              if bool_decide (kill_key ∈ recently_processed_kills st) then
                _add_activity_entry parsed DuplicateSameTimestampInBuffer false None st
              else if negb (processed buffer_data) then
                set_message_buffer
                  (<[monster_key := mkBuffer (messages buffer_data ++ [parsed]) false]>
                     (message_buffer st)) st
              else if bool_decide (kill_key ∈ recently_processed_kills st) then
                _add_activity_entry parsed LateDuplicateExact false None st
              else
                match late_check st parsed with
                | Some time_diff =>
                    _add_activity_entry parsed (LateDuplicateWithin time_diff) false None st
                | None => process_late env parsed st
                end
          end
  end.

(** [_process_queued_log_lines()]: at most ten queued lines per call;
    [envs] gives what each of them reads from outside. *)
Fixpoint process_queued (envs : list Env) (n : nat) (st : App) : App :=
  match n, log_line_queue st, envs with
  | S n', line :: rest, env :: envs' =>
      process_queued envs' n' (_process_log_line env line (set_log_line_queue rest st))
  | _, _, _ => st
  end.

Definition _process_queued_log_lines (envs : list Env) (st : App) : App :=
  process_queued envs 10 st.

(** *** Facts about the handlers *)

Lemma rstrip_idemp (s : string) : Py.rstrip (Py.rstrip s) = Py.rstrip s.
Proof.
  induction s as [|c r IH]; [done|]. simpl.
  destruct (Py.rstrip r) as [|d r'] eqn:Hr.
  - destruct (Py.is_space c) eqn:Hc; simpl; [done|]. by rewrite Hc.
  - simpl in *. by rewrite IH.
Qed.

Lemma lstrip_head (s : string) :
  Py.lstrip s = EmptyString
  ∨ ∃ c r, Py.lstrip s = String c r ∧ Py.is_space c = false.
Proof.
  induction s as [|c r IH]; simpl; [by left|].
  destruct (Py.is_space c) eqn:Hc; [done|]. right. eauto.
Qed.

Lemma rstrip_keeps_head (c : ascii) (r : string) :
  Py.is_space c = false → ∃ r', Py.rstrip (String c r) = String c r'.
Proof.
  intros Hc. simpl. destruct (Py.rstrip r); [rewrite Hc|]; eauto.
Qed.

(** [s.strip().strip() == s.strip()]. *)
Lemma strip_idemp (s : string) : Py.strip (Py.strip s) = Py.strip s.
Proof.
  unfold Py.strip. destruct (lstrip_head s) as [->|(c & r & -> & Hc)]; [done|].
  destruct (rstrip_keeps_head c r Hc) as [r' Hr']. rewrite Hr'.
  simpl Py.lstrip. rewrite Hc. rewrite <- Hr'. apply rstrip_idemp.
Qed.

Lemma notify_enqueues (dflt : option string) (message : string)
    (file : option string) (queue : list (string * string)) :
  Py.truthy (_get_webhook_url_for_post file) = true →
  DiscordNotifier.notify dflt message (Some (_get_webhook_url_for_post file)) queue
  = queue ++ [(_get_webhook_url_for_post file, message)].
Proof.
  intros Ht. unfold DiscordNotifier.notify.
  destruct file as [raw|]; simpl in *; [|done].
  by rewrite strip_idemp, Ht.
Qed.

(** The state in which [_process_boss_kill] leaves the application when it
    posts. *)
Definition posted_state (env : Env) (parsed : BossKillMessage) (boss : nat)
    (st : App) : App :=
  let st1 := record_kill parsed st in
  let template :=
    if is_lockout (location parsed)
    then lockout_message_template env else message_template env in
  let message := format_message template parsed (boss_note (bosses st) boss) in
  _add_activity_entry parsed PostedToDiscord true (Some message)
    (set_bosses (increment_kill_count (bosses st) (timestamp parsed) boss)
       (set_message_queue
          (message_queue st ++ [(_get_webhook_url_for_post (settings_file_3 env), message)])
          (set_last_discord_post_time_by_monster
             (<[Py.lower (monster parsed) := clock_post env]>
                (_last_discord_post_time_by_monster st)) st1))).

(** The conditions under which [_process_boss_kill] posts. *)
Definition will_post (env : Env) (parsed : BossKillMessage) (st : App) : bool :=
  negb (bool_decide (kill_key_of parsed ∈ recently_processed_kills st))
  && bool_decide (recent_kill_check st parsed = None)
  && bool_decide (cooldown_hit env (Py.lower (monster parsed)) st = None)
  && negb (is_duplicate_on_discord env)
  && Py.truthy (_get_webhook_url_for_post (settings_file_2 env))
  && Py.truthy (_get_webhook_url_for_post (settings_file_3 env)).

Lemma record_kill_bosses (parsed : BossKillMessage) (st : App) :
  bosses (record_kill parsed st) = bosses st.
Proof. unfold record_kill. by destruct (strptime (timestamp parsed)). Qed.

Lemma record_kill_message_queue (parsed : BossKillMessage) (st : App) :
  message_queue (record_kill parsed st) = message_queue st.
Proof. unfold record_kill. by destruct (strptime (timestamp parsed)). Qed.

Lemma record_kill_last_post (parsed : BossKillMessage) (st : App) :
  _last_discord_post_time_by_monster (record_kill parsed st)
  = _last_discord_post_time_by_monster st.
Proof. unfold record_kill. by destruct (strptime (timestamp parsed)). Qed.

Lemma record_kill_activity (parsed : BossKillMessage) (st : App) :
  activity (record_kill parsed st) = activity st.
Proof. unfold record_kill. by destruct (strptime (timestamp parsed)). Qed.

Lemma cooldown_hit_record_kill (env : Env) (key : string) (parsed : BossKillMessage)
    (st : App) :
  cooldown_hit env key (record_kill parsed st) = cooldown_hit env key st.
Proof. unfold cooldown_hit. by rewrite record_kill_last_post. Qed.

Lemma process_boss_kill_posts (env : Env) (parsed : BossKillMessage) (boss : nat)
    (st : App) :
  will_post env parsed st = true →
  _process_boss_kill env parsed boss st = posted_state env parsed boss st.
Proof.
  unfold will_post. rewrite !andb_true_iff.
  intros [[[[[Hk Hr] Hc] Hd] Hw2] Hw3].
  apply negb_true_iff in Hk, Hd. apply bool_decide_eq_true in Hr, Hc.
  unfold _process_boss_kill, posted_state.
  rewrite Hk, Hr, cooldown_hit_record_kill, Hc, Hd, Hw2, Hw3. cbn [negb].
  rewrite notify_enqueues by done.
  cbn [bosses message_queue set_message_queue set_last_discord_post_time_by_monster].
  by rewrite record_kill_bosses, record_kill_message_queue, record_kill_last_post.
Qed.

Lemma process_boss_kill_skips (env : Env) (parsed : BossKillMessage) (boss : nat)
    (st : App) :
  will_post env parsed st = false →
  ∃ status,
    status ≠ PostedToDiscord
    ∧ (_process_boss_kill env parsed boss st
       = _add_activity_entry parsed status false None st
       ∨ _process_boss_kill env parsed boss st
         = _add_activity_entry parsed status false None (record_kill parsed st)).
Proof.
  unfold will_post, _process_boss_kill. intros Hw.
  destruct (bool_decide (kill_key_of parsed ∈ recently_processed_kills st));
    [exists DuplicateExactMatch; split; [done|by left]|].
  destruct (recent_kill_check st parsed) as [d|];
    [exists (DuplicateWithin d); split; [done|by left]|].
  rewrite cooldown_hit_record_kill.
  destruct (cooldown_hit env (Py.lower (monster parsed)) st) as [e|];
    [exists (DuplicatePosted e); split; [done|by right]|].
  destruct (is_duplicate_on_discord env);
    [exists DuplicateOnDiscord; split; [done|by right]|].
  destruct (Py.truthy (_get_webhook_url_for_post (settings_file_2 env)));
    [|exists NotPostedNoWebhook; split; [done|by right]].
  destruct (Py.truthy (_get_webhook_url_for_post (settings_file_3 env)));
    [|exists NotPostedNoWebhook; split; [done|by right]].
  done.
Qed.

(** The kill bookkeeping of one registry record. *)
Definition kill_record (b : Boss) : Z * option KillTime * option string :=
  (kill_count b, last_killed b, last_killed_timestamp b).

Definition unposted (new : list Activity) : Prop :=
  Forall (fun a => a_posted a = false) new.

(** Nothing was put on the delivery queue, no kill was recorded (records
    the handler added to the registry start without a kill), and every
    new row of the activity log says "not posted". *)
Definition quiet (st st' : App) : Prop :=
  message_queue st' = message_queue st
  ∧ (∃ added, kill_record <$> bosses st' = (kill_record <$> bosses st) ++ added
              ∧ Forall (fun r => r = (0, None, None)) added)
  ∧ ∃ new, activity st' = activity st ++ new ∧ unposted new.

(** One message was put on the delivery queue, and one record of the
    registry had its kill counter raised by one and its last-kill time
    set; the last row of the activity log says "posted", the rows before
    it "not posted". *)
Definition dispatched_once (st st' : App) : Prop :=
  ∃ parsed boss b b' url message new,
    message_queue st' = message_queue st ++ [(url, message)]
    ∧ bosses st !! boss = Some b
    ∧ bosses st' = <[boss := b']> (bosses st)
    ∧ kill_count b' = kill_count b + 1
    ∧ is_Some (last_killed b')
    ∧ activity st' = activity st ++ new ++ [mkActivity parsed PostedToDiscord true (Some message)]
    ∧ unposted new.

Lemma quiet_refl (st : App) : quiet st st.
Proof.
  split; [done|]. split.
  - exists []. by rewrite app_nil_r.
  - exists []. rewrite app_nil_r. split; [done|constructor].
Qed.

Lemma quiet_audit (parsed : BossKillMessage) (status : Status)
    (message : option string) (st0 st : App) :
  quiet st0 st → quiet st0 (_add_activity_entry parsed status false message st).
Proof.
  intros (Hq & Hb & new & Ha & Hn). split; [done|]. split; [done|].
  exists (new ++ [mkActivity parsed status false message]). simpl.
  rewrite Ha, <- app_assoc. split; [done|].
  apply Forall_app. split; [done|]. by apply Forall_singleton.
Qed.

Lemma increment_kill_count_insert (bs : list Boss) (ts : string) (boss : nat) (b : Boss) :
  bs !! boss = Some b →
  ∃ b', increment_kill_count bs ts boss = <[boss := b']> bs
        ∧ kill_count b' = kill_count b + 1 ∧ is_Some (last_killed b').
Proof.
  intros Hb. unfold increment_kill_count.
  match goal with |- context [alter ?f boss bs] => set (f0 := f) end.
  exists (f0 b). split.
  - rewrite list_insert_alter. apply list_alter_ext; [|done].
    intros x Hx. congruence.
  - unfold f0. destruct (Py.truthy ts); [destruct (strptime ts)|]; simpl; eauto.
Qed.

Lemma process_boss_kill_effect (env : Env) (parsed : BossKillMessage) (boss : nat)
    (b : Boss) (st : App) :
  bosses st !! boss = Some b →
  quiet st (_process_boss_kill env parsed boss st)
  ∨ dispatched_once st (_process_boss_kill env parsed boss st).
Proof.
  intros Hb. destruct (will_post env parsed st) eqn:Hw.
  - right. rewrite process_boss_kill_posts by done. unfold posted_state.
    destruct (increment_kill_count_insert (bosses st) (timestamp parsed) boss b Hb)
      as (b' & Hinc & Hcount & Hlast).
    eexists parsed, boss, b, b', _, _, []. simpl.
    rewrite record_kill_activity. repeat split; try done.
    by constructor.
  - left. destruct (process_boss_kill_skips env parsed boss st Hw)
      as (status & _ & [-> | ->]).
    + apply quiet_audit, quiet_refl.
    + apply quiet_audit. split; [apply record_kill_message_queue|].
      split.
      * exists []. by rewrite record_kill_bosses, app_nil_r.
      * exists []. rewrite record_kill_activity, app_nil_r. split; [done|constructor].
Qed.

Lemma indices_from_elem (k : nat) (bs : list Boss) (n : string) (i : nat) :
  i ∈ indices_from k bs n
  ↔ (k ≤ i)%nat ∧ ∃ b, bs !! (i - k)%nat = Some b ∧ name_matches n b = true.
Proof.
  revert k. induction bs as [|b bs IH]; intros k; simpl.
  - split; [by intros ?%elem_of_nil|]. by intros (_ & b & ? & _).
  - destruct (name_matches n b) eqn:Hm.
    + rewrite elem_of_cons, IH. split.
      * intros [->|(Hle & c & Hc & Hmc)].
        -- split; [lia|]. exists b. by rewrite Nat.sub_diag.
        -- split; [lia|]. exists c. split; [|done].
           replace (i - k)%nat with (S (i - S k)) by lia. done.
      * intros (Hle & c & Hc & Hmc).
        destruct (decide (i = k)) as [->|Hne]; [by left|]. right.
        split; [lia|]. exists c. split; [|done].
        replace (i - k)%nat with (S (i - S k)) in Hc by lia. done.
    + rewrite IH. split.
      * intros (Hle & c & Hc & Hmc). split; [lia|]. exists c. split; [|done].
        replace (i - k)%nat with (S (i - S k)) by lia. done.
      * intros (Hle & c & Hc & Hmc).
        destruct (decide (i = k)) as [->|Hne].
        { rewrite Nat.sub_diag in Hc. simpl in Hc. congruence. }
        split; [lia|]. exists c. split; [|done].
        replace (i - k)%nat with (S (i - S k)) in Hc by lia. done.
Qed.

(** [get_bosses_by_name] gives the references of all records whose name
    is the given one up to case, and only those. *)
Lemma get_bosses_by_name_elem (bs : list Boss) (n : string) (i : nat) :
  i ∈ get_bosses_by_name bs n
  ↔ ∃ b, bs !! i = Some b ∧ Py.lower (name b) = Py.lower n.
Proof.
  unfold get_bosses_by_name. rewrite indices_from_elem, Nat.sub_0_r.
  unfold name_matches. split.
  - intros (_ & b & Hb & Hm). exists b. split; [done|]. by apply bool_decide_eq_true in Hm.
  - intros (b & Hb & Hm). split; [lia|]. exists b. split; [done|].
    by apply bool_decide_eq_true.
Qed.

Lemma quiet_after_audit (st st1 st2 : App) (pre : list Activity) :
  message_queue st1 = message_queue st → bosses st1 = bosses st →
  activity st1 = activity st ++ pre → unposted pre →
  quiet st1 st2 → quiet st st2.
Proof.
  intros Hq Hb Ha Hpre (Hq2 & Hb2 & new & Ha2 & Hnew).
  split; [congruence|]. split; [by rewrite <- Hb|].
  exists (pre ++ new). rewrite Ha2, Ha, <- app_assoc. split; [done|].
  by apply Forall_app.
Qed.

Lemma dispatched_after_audit (st st1 st2 : App) (pre : list Activity) :
  message_queue st1 = message_queue st → bosses st1 = bosses st →
  activity st1 = activity st ++ pre → unposted pre →
  dispatched_once st1 st2 → dispatched_once st st2.
Proof.
  intros Hq Hb Ha Hpre (parsed & boss & b & b' & url & message & new & H).
  destruct H as (Hq2 & Hlook & Hb2 & Hcount & Hlast & Ha2 & Hnew).
  exists parsed, boss, b, b', url, message, (pre ++ new).
  rewrite <- Hq, <- Hb. repeat split; try done.
  - rewrite Ha2, Ha. by rewrite <- !app_assoc.
  - by apply Forall_app.
Qed.

Lemma effect_after_audit (st st1 st2 : App) (pre : list Activity) :
  message_queue st1 = message_queue st → bosses st1 = bosses st →
  activity st1 = activity st ++ pre → unposted pre →
  quiet st1 st2 ∨ dispatched_once st1 st2 →
  quiet st st2 ∨ dispatched_once st st2.
Proof.
  intros ???? [?|?]; [left|right];
    eauto using quiet_after_audit, dispatched_after_audit.
Qed.

Lemma unposted_nil : unposted [].
Proof. constructor. Qed.

Lemma finish_selected_effect (env : Env) (selected_message : BossKillMessage)
    (all_bosses : list nat) (st : App) (boss : nat) (b : Boss) :
  bosses st !! boss = Some b →
  quiet st (finish_selected env selected_message all_bosses st boss)
  ∨ dispatched_once st (finish_selected env selected_message all_bosses st boss).
Proof.
  intros Hb. unfold finish_selected.
  repeat match goal with |- context [if ?c then _ else _] => destruct c end;
    eauto using process_boss_kill_effect, quiet_audit, quiet_refl.
Qed.

Lemma add_boss_kill_records (bs : list Boss) (n loc : string) (en : bool) :
  ∃ added, kill_record <$> (add_boss bs n loc en).1 = (kill_record <$> bs) ++ added
           ∧ Forall (fun r => r = (0, None, None)) added.
Proof.
  unfold add_boss.
  destruct (if bool_decide (n ∈ duplicate_boss_names) then None else get_boss bs n)
    as [ref|].
  - exists []. rewrite app_nil_r. split; [|constructor].
    destruct (Py.truthy loc && negb (Py.truthy (boss_loc bs ref))); [|done].
    cbn [fst]. erewrite list_fmap_alter with (h := id); [by rewrite list_alter_id|].
    by apply Forall_true.
  - exists [(0, None, None)]. cbn [fst]. rewrite fmap_app. split; [done|].
    by apply Forall_singleton.
Qed.

Lemma add_new_boss_quiet (n loc : string) (en : bool) (st : App) :
  quiet st (_add_new_boss n loc en st).
Proof.
  unfold _add_new_boss.
  pose proof (add_boss_kill_records (bosses st) n loc en) as Hrec.
  destruct (add_boss (bosses st) n loc en) as [bs boss]. simpl in Hrec.
  assert (quiet st (set_bosses bs st)) as Hq.
  { split; [done|]. split; [done|]. exists []. rewrite app_nil_r.
    split; [done|constructor]. }
  destruct en; [|done]. cbn [pending_boss_kills set_bosses].
  destruct (pending_boss_kills st !! Py.lower n); done.
Qed.

Lemma handle_new_boss_quiet (env : Env) (parsed : BossKillMessage) (st : App) :
  quiet st (_handle_new_boss env parsed st).
Proof.
  unfold _handle_new_boss.
  repeat match goal with |- context [if ?c then _ else _] => destruct c end;
    auto using add_new_boss_quiet, quiet_refl.
  split; [done|]. split.
  - exists []. by rewrite app_nil_r.
  - exists []. rewrite app_nil_r. split; [done|constructor].
Qed.

Lemma new_boss_detected_quiet (env : Env) (parsed : BossKillMessage) (st : App) :
  quiet st (new_boss_detected env parsed st).
Proof.
  unfold new_boss_detected.
  eapply (quiet_after_audit st _ _ [mkActivity parsed NewBossDetected false None]);
    [..|apply handle_new_boss_quiet]; try done.
  by apply Forall_singleton.
Qed.

Lemma selection_returns_candidate (env : Env) (cands : list nat) (boss : nat) :
  selection_outcome env cands = Returned (Some boss) → boss ∈ cands.
Proof.
  unfold selection_outcome.
  destruct (dialog env) as [| |[i|]|]; try done.
  - destruct cands; [done|]. intros [= ->]. by left.
  - destruct cands; [done|]. intros [= ->]. by left.
  - intros [= Hi]. by eapply list_elem_of_lookup_2.
Qed.

Lemma resolve_selected_effect (env : Env) (selected_message : BossKillMessage)
    (st : App) :
  quiet st (resolve_selected env selected_message st)
  ∨ dispatched_once st (resolve_selected env selected_message st).
Proof.
  unfold resolve_selected.
  destruct (db_exists (bosses st) (monster selected_message)); cbn [negb];
    [|left; apply new_boss_detected_quiet].
  destruct (needs_selection (bosses st) selected_message).
  - case_bool_decide; [left; apply quiet_refl|].
    unfold _handle_duplicate_boss_selection.
    pose proof (selection_returns_candidate env
                  (get_bosses_by_name (bosses st) (monster selected_message))) as Hcand.
    destruct (selection_outcome env
                (get_bosses_by_name (bosses st) (monster selected_message)))
      as [[boss|]|].
    + specialize (Hcand boss eq_refl).
      apply get_bosses_by_name_elem in Hcand as (b & Hb & _).
      eapply effect_after_audit with (pre := []); cycle 4.
      { eapply finish_selected_effect. simpl. exact Hb. }
      all: simpl; try done; try (by rewrite app_nil_r); try apply unposted_nil.
    + left. split; [done|]. split.
      * exists []. by rewrite app_nil_r.
      * exists [mkActivity selected_message Cancelled false None].
        split; [done|]. by apply Forall_singleton.
    + left. split; [done|]. split.
      * exists []. by rewrite app_nil_r.
      * exists []. rewrite app_nil_r. split; [done|constructor].
  - destruct (get_bosses_by_name (bosses st) (monster selected_message))
      as [|boss [|]] eqn:Hall;
      try (left; apply quiet_audit, quiet_refl).
    assert (boss ∈ get_bosses_by_name (bosses st) (monster selected_message)) as Hin
      by (rewrite Hall; by left).
    apply get_bosses_by_name_elem in Hin as (b & Hb & _).
    by eapply finish_selected_effect.
Qed.

Lemma audit_skipped (loc : string) (skipped : list BossKillMessage) (st : App) :
  foldl (fun st m => _add_activity_entry m (SkippedByBuffer loc) false None st) st skipped
  = set_activity
      (activity st ++ ((fun m => mkActivity m (SkippedByBuffer loc) false None) <$> skipped))
      st.
Proof.
  revert st. induction skipped as [|m skipped IH]; intros st; simpl.
  - rewrite app_nil_r. by destruct st.
  - rewrite IH. unfold _add_activity_entry. simpl. by rewrite <- app_assoc.
Qed.

(** The two outcomes of a flush of a buffer. *)
Lemma process_buffered_messages_effect (env : Env) (monster_key : string) (st : App) :
  quiet st (_process_buffered_messages env monster_key st)
  ∨ dispatched_once st (_process_buffered_messages env monster_key st).
Proof.
  unfold _process_buffered_messages.
  destruct (message_buffer st !! monster_key) as [buffer_data|];
    [|left; apply quiet_refl].
  destruct (processed buffer_data); [left; apply quiet_refl|].
  destruct (select_message (messages buffer_data)) as [selected_message|].
  - rewrite audit_skipped.
    eapply effect_after_audit; [..|apply resolve_selected_effect]; simpl; try done.
    unfold unposted. apply Forall_fmap. by apply Forall_true.
  - left. split; [done|]. split.
    + exists []. by rewrite app_nil_r.
    + exists []. rewrite app_nil_r. split; [done|constructor].
Qed.

(** The attributes that [_process_boss_kill] and the audit never touch. *)
Definition same_wiring (st st' : App) : Prop :=
  selection_requests st' = selection_requests st
  ∧ deferred_kills st' = deferred_kills st
  ∧ pending_boss_kills st' = pending_boss_kills st
  ∧ message_buffer st' = message_buffer st
  ∧ _active_duplicate_dialogs st' = _active_duplicate_dialogs st
  ∧ active_new_boss_dialogs st' = active_new_boss_dialogs st
  ∧ log_line_queue st' = log_line_queue st
  ∧ recently_processed_lines st' = recently_processed_lines st.

Lemma record_kill_wiring (parsed : BossKillMessage) (st : App) :
  same_wiring st (record_kill parsed st).
Proof.
  unfold record_kill, same_wiring. by destruct (strptime (timestamp parsed)).
Qed.

Lemma process_boss_kill_wiring (env : Env) (parsed : BossKillMessage) (boss : nat)
    (st : App) :
  same_wiring st (_process_boss_kill env parsed boss st).
Proof.
  pose proof (record_kill_wiring parsed st) as Hrec.
  destruct (will_post env parsed st) eqn:Hw.
  - rewrite process_boss_kill_posts by done. unfold posted_state. apply Hrec.
  - destruct (process_boss_kill_skips env parsed boss st Hw)
      as (status & _ & [-> | ->]); [done|apply Hrec].
Qed.

Lemma finish_selected_wiring (env : Env) (selected_message : BossKillMessage)
    (all_bosses : list nat) (st : App) (boss : nat) :
  same_wiring st (finish_selected env selected_message all_bosses st boss).
Proof.
  unfold finish_selected.
  repeat match goal with |- context [if ?c then _ else _] => destruct c end;
    try done; apply process_boss_kill_wiring.
Qed.

Lemma db_exists_candidates (bs : list Boss) (n : string) :
  db_exists bs n = negb (bool_decide (get_bosses_by_name bs n = [])).
Proof.
  unfold db_exists, get_bosses_by_name. generalize 0%nat.
  induction bs as [|b bs IH]; intros k; simpl; [done|].
  destruct (name_matches n b); simpl; [done|]. apply IH.
Qed.

Lemma needs_selection_exists (bs : list Boss) (sel : BossKillMessage) :
  needs_selection bs sel = true → db_exists bs (monster sel) = true.
Proof.
  unfold needs_selection. rewrite db_exists_candidates.
  destruct (get_bosses_by_name bs (monster sel)); [done|].
  intros _. by rewrite bool_decide_eq_false_2.
Qed.

(** The flush of a buffer whose selected message needs a selection and is
    not already waiting for one: the state just before the dialog ends. *)
Definition before_selection (monster_key : string) (msgs : list BossKillMessage)
    (selected_message : BossKillMessage) (st : App) : App :=
  set_selection_requests
    (selection_requests st
       ++ [(monster selected_message,
            get_bosses_by_name (bosses st) (monster selected_message))])
    (set_message_buffer (delete monster_key (message_buffer st))
       (set_activity
          (activity st
             ++ ((fun m => mkActivity m (SkippedByBuffer (location selected_message)) false None)
                   <$> skipped_messages msgs selected_message)) st)).

(** The state in which [_process_buffered_messages] hands the selected
    message on: the other buffered messages audited, the buffer deleted. *)
Definition flushed (monster_key : string) (msgs : list BossKillMessage)
    (selected_message : BossKillMessage) (st : App) : App :=
  set_message_buffer (delete monster_key (message_buffer st))
    (set_activity
       (activity st
          ++ ((fun m => mkActivity m (SkippedByBuffer (location selected_message)) false None)
                <$> skipped_messages msgs selected_message)) st).

Lemma buffered_flush (env : Env) (monster_key : string) (buffer_data : Buffer)
    (selected_message : BossKillMessage) (st : App) :
  message_buffer st !! monster_key = Some buffer_data →
  processed buffer_data = false →
  select_message (messages buffer_data) = Some selected_message →
  _process_buffered_messages env monster_key st
  = resolve_selected env selected_message
      (flushed monster_key (messages buffer_data) selected_message st).
Proof.
  intros Hbuf Hproc Hsel. unfold _process_buffered_messages.
  rewrite Hbuf, Hproc, Hsel, audit_skipped. f_equal.
  unfold flushed, set_message_buffer, set_activity. simpl.
  by rewrite delete_insert_eq.
Qed.

(** The state in which the selection, once asked for, leaves the
    application: the request noted, the dialog no longer marked active. *)
Definition requested (selected_message : BossKillMessage) (st : App) : App :=
  set_selection_requests
    (selection_requests st
       ++ [(monster selected_message,
            get_bosses_by_name (bosses st) (monster selected_message))]) st.

Lemma resolve_selected_selection (env : Env) (selected_message : BossKillMessage)
    (st : App) :
  needs_selection (bosses st) selected_message = true →
  Py.lower (monster selected_message) ∉ _active_duplicate_dialogs st →
  let all_bosses := get_bosses_by_name (bosses st) (monster selected_message) in
  resolve_selected env selected_message st
  = match selection_outcome env all_bosses with
    | Raised => requested selected_message st
    | Returned None =>
        _add_activity_entry selected_message Cancelled false None
          (requested selected_message st)
    | Returned (Some boss) =>
        finish_selected env selected_message all_bosses
          (requested selected_message st) boss
    end.
Proof.
  intros Hneeds Hkey all_bosses. unfold resolve_selected.
  rewrite (needs_selection_exists _ _ Hneeds), Hneeds. cbn [negb].
  rewrite bool_decide_eq_false_2 by done.
  unfold _handle_duplicate_boss_selection. fold all_bosses.
  assert (({[Py.lower (monster selected_message)]} ∪ _active_duplicate_dialogs st)
            ∖ {[Py.lower (monster selected_message)]}
          = _active_duplicate_dialogs st) as Hrestore.
  { clear -Hkey. apply set_eq. intros x.
    rewrite elem_of_difference, elem_of_union, elem_of_singleton. split.
    - by intros [[?|?] ?].
    - intros Hx. split; [by right|]. by intros ->. }
  destruct (selection_outcome env all_bosses) as [[boss|]|].
  - f_equal. unfold requested. fold all_bosses. destruct st; simpl in *.
    by rewrite Hrestore.
  - unfold requested. fold all_bosses. destruct st; simpl in *.
    unfold _add_activity_entry, set_active_duplicate_dialogs. simpl.
    by rewrite Hrestore.
  - unfold requested. fold all_bosses. destruct st; simpl in *.
    unfold set_active_duplicate_dialogs. simpl. by rewrite Hrestore.
Qed.

Lemma needs_selection_multiple (bs : list Boss) (sel : BossKillMessage) :
  needs_selection bs sel = true →
  (1 < length (get_bosses_by_name bs (monster sel)))%nat.
Proof.
  unfold needs_selection. intros [H _]%andb_true_iff. by apply Nat.ltb_lt in H.
Qed.

(** C3: a cancelled disambiguation prompt.  When the selected message of
    a flushed buffer resolves to several records, the prompt is shown and
    yields no selection, then nothing is put on the delivery queue, the
    registry is left as it was (no kill is counted), the kill is not
    marked as processed, nothing is deferred, and the activity log ends
    with the row "Kill detected but cancelled (duplicate name
    selection)", not posted. *)
Theorem C3_cancelled_selection_records_nothing (env : Env) (monster_key : string)
    (buffer_data : Buffer) (selected_message : BossKillMessage) (st : App) :
  message_buffer st !! monster_key = Some buffer_data →
  processed buffer_data = false →
  select_message (messages buffer_data) = Some selected_message →
  needs_selection (bosses st) selected_message = true →
  Py.lower (monster selected_message) ∉ _active_duplicate_dialogs st →
  selection_outcome env (get_bosses_by_name (bosses st) (monster selected_message))
    = Returned None →
  let st' := _process_buffered_messages env monster_key st in
  (1 < length (get_bosses_by_name (bosses st) (monster selected_message)))%nat
  ∧ message_queue st' = message_queue st
  ∧ bosses st' = bosses st
  ∧ recently_processed_kills st' = recently_processed_kills st
  ∧ recent_kills_by_monster st' = recent_kills_by_monster st
  ∧ deferred_kills st' = deferred_kills st
  ∧ pending_boss_kills st' = pending_boss_kills st
  ∧ activity st'
    = activity st
        ++ ((fun m => mkActivity m (SkippedByBuffer (location selected_message)) false None)
              <$> skipped_messages (messages buffer_data) selected_message)
        ++ [mkActivity selected_message Cancelled false None].
Proof.
  intros Hbuf Hproc Hsel Hneeds Hkey Hout st'. unfold st'.
  rewrite (buffered_flush env monster_key buffer_data selected_message) by done.
  rewrite resolve_selected_selection by done.
  cbn [bosses flushed set_message_buffer set_activity]. rewrite Hout.
  split; [by apply needs_selection_multiple|].
  simpl. by rewrite <- app_assoc.
Qed.

(** C5 (as the code has it): when the selected message of a flushed
    buffer meets the condition [needs_selection] (several records of that
    name, and at least two of them annotated or the name one of the two
    known duplicates) and no selection for that name is under way, the
    selection is asked for exactly once, with all records of that name up
    to case; when it does not meet the condition, no selection is asked
    for. *)
Theorem C5_selection_requested_once (env : Env) (monster_key : string)
    (buffer_data : Buffer) (selected_message : BossKillMessage) (st : App) :
  message_buffer st !! monster_key = Some buffer_data →
  processed buffer_data = false →
  select_message (messages buffer_data) = Some selected_message →
  let st' := _process_buffered_messages env monster_key st in
  let all_bosses := get_bosses_by_name (bosses st) (monster selected_message) in
  (∀ i b, bosses st !! i = Some b →
          Py.lower (name b) = Py.lower (monster selected_message) → i ∈ all_bosses)
  ∧ (needs_selection (bosses st) selected_message = true →
     Py.lower (monster selected_message) ∉ _active_duplicate_dialogs st →
     selection_requests st'
     = selection_requests st ++ [(monster selected_message, all_bosses)])
  ∧ (needs_selection (bosses st) selected_message = false →
     selection_requests st' = selection_requests st).
Proof.
  intros Hbuf Hproc Hsel st' all_bosses. unfold st'.
  rewrite (buffered_flush env monster_key buffer_data selected_message) by done.
  set (st0 := flushed monster_key (messages buffer_data) selected_message st).
  assert (bosses st0 = bosses st) as Hb by done.
  assert (selection_requests st0 = selection_requests st) as Hr by done.
  assert (_active_duplicate_dialogs st0 = _active_duplicate_dialogs st) as Ha by done.
  split; [|split].
  - intros i b Hi Hn. apply get_bosses_by_name_elem. eauto.
  - intros Hneeds Hkey. rewrite resolve_selected_selection by (by rewrite ?Hb, ?Ha).
    rewrite Hb. fold all_bosses.
    destruct (selection_outcome env all_bosses) as [[boss|]|].
    + destruct (finish_selected_wiring env selected_message all_bosses
                  (requested selected_message st0) boss) as [-> _].
      unfold requested; simpl; by rewrite ?Hb, ?Hr.
    + unfold requested; simpl; by rewrite ?Hb, ?Hr.
    + unfold requested; simpl; by rewrite ?Hb, ?Hr.
  - intros Hneeds. unfold resolve_selected. rewrite Hb, Hneeds.
    destruct (db_exists (bosses st) (monster selected_message)); cbn [negb].
    + destruct (get_bosses_by_name (bosses st) (monster selected_message))
        as [|boss [|]]; try done.
      destruct (finish_selected_wiring env selected_message [boss] st0 boss) as [-> _].
      done.
    + unfold new_boss_detected, _handle_new_boss, _add_new_boss.
      repeat match goal with
             | |- context [if ?c then _ else _] => destruct c
             | |- context [let '(_, _) := ?p in _] => destruct p
             | |- context [match ?o with Some _ => _ | None => _ end] => destruct o
             end; done.
Qed.


(** *** The same-kill window *)

(** A destination is configured at both reads of the settings file and the
    delivery-side check does not report the kill as already posted. *)
Definition delivery_ready (env : Env) : bool :=
  negb (is_duplicate_on_discord env)
  && Py.truthy (_get_webhook_url_for_post (settings_file_2 env))
  && Py.truthy (_get_webhook_url_for_post (settings_file_3 env)).

Lemma Qltb_window (elapsed : Q) :
  (inject_Z SAME_KILL_WINDOW_SECONDS <= elapsed)%Q →
  Qltb elapsed (inject_Z SAME_KILL_WINDOW_SECONDS) = false.
Proof.
  intros H. unfold Qltb. apply negb_false_iff. by apply Qle_bool_iff.
Qed.

Lemma set_add_elem `{EqDecision A} (x y : A) (s : list A) :
  y ∈ Py.set_add x s ↔ y = x ∨ y ∈ s.
Proof.
  unfold Py.set_add. case_bool_decide.
  - split; [by right|]. by intros [->|?].
  - rewrite elem_of_app, list_elem_of_singleton. tauto.
Qed.

Lemma record_kill_fresh (parsed : BossKillMessage) (t : Z) (st : App) :
  strptime (timestamp parsed) = Some t →
  recent_kills_by_monster st !! Py.lower (monster parsed) = None →
  recent_kills_by_monster (record_kill parsed st)
  = <[Py.lower (monster parsed) := [(t, location parsed)]]> (recent_kills_by_monster st).
Proof.
  intros Ht Hnone. unfold record_kill. rewrite Ht. simpl. rewrite Hnone. simpl.
  rewrite filter_cons_True by (simpl; lia). done.
Qed.

Lemma record_kill_kills (parsed : BossKillMessage) (st : App) :
  recently_processed_kills (record_kill parsed st)
  = Py.set_add (kill_key_of parsed) (recently_processed_kills st).
Proof. unfold record_kill. by destruct (strptime (timestamp parsed)). Qed.

(** C2 (as the code has it): two kill events of the same target name, the
    first one met with no recent kill and no recent post of that name, a
    destination configured and no duplicate reported by the delivery side.
    The first is dispatched.  If the log timestamps are at most 9 seconds
    apart, the second is not dispatched and records nothing: it is audited
    as an exact duplicate when the two timestamp strings are the same, and
    as a time-window duplicate otherwise.  If they are 10 seconds or more
    apart, the second is dispatched too provided that on the wall clock
    at least 9 seconds have passed since the first was posted. *)
Theorem C2_same_kill_window (env1 env2 : Env) (e1 e2 : BossKillMessage)
    (boss1 boss2 : nat) (t1 t2 : Z) (st : App) :
  Py.lower (monster e1) = Py.lower (monster e2) →
  strptime (timestamp e1) = Some t1 →
  strptime (timestamp e2) = Some t2 →
  recent_kills_by_monster st !! Py.lower (monster e1) = None →
  _last_discord_post_time_by_monster st !! Py.lower (monster e1) = None →
  kill_key_of e1 ∉ recently_processed_kills st →
  kill_key_of e2 ∉ recently_processed_kills st →
  delivery_ready env1 = true →
  delivery_ready env2 = true →
  let st1 := _process_boss_kill env1 e1 boss1 st in
  let st2 := _process_boss_kill env2 e2 boss2 st1 in
  st1 = posted_state env1 e1 boss1 st
  ∧ (Z.abs (t2 - t1) ≤ SAME_KILL_WINDOW_SECONDS →
     message_queue st2 = message_queue st1
     ∧ bosses st2 = bosses st1
     ∧ ∃ status,
         activity st2 = activity st1 ++ [mkActivity e2 status false None]
         ∧ (timestamp e2 = timestamp e1 → status = DuplicateExactMatch)
         ∧ (timestamp e2 ≠ timestamp e1 → status = DuplicateWithin (Z.abs (t2 - t1))))
  ∧ (10 ≤ Z.abs (t2 - t1) →
     (inject_Z SAME_KILL_WINDOW_SECONDS <= clock_cooldown env2 - clock_post env1)%Q →
     st2 = posted_state env2 e2 boss2 st1).
Proof.
  intros Hname Ht1 Ht2 Hrecent Hlast Hk1 Hk2 Hready1 Hready2 st1 st2.
  unfold delivery_ready in *.
  apply andb_true_iff in Hready1 as [[Hd1 Hw12]%andb_true_iff Hw13].
  apply andb_true_iff in Hready2 as [[Hd2 Hw22]%andb_true_iff Hw23].
  assert (st1 = posted_state env1 e1 boss1 st) as Hst1.
  { apply process_boss_kill_posts. unfold will_post, recent_kill_check, cooldown_hit.
    rewrite Ht1, Hrecent, Hlast, Hd1, Hw12, Hw13.
    rewrite bool_decide_eq_false_2 by done. done. }
  assert (recently_processed_kills st1
          = Py.set_add (kill_key_of e1) (recently_processed_kills st)) as Hkills.
  { rewrite Hst1. unfold posted_state. simpl. apply record_kill_kills. }
  assert (recent_kills_by_monster st1 !! Py.lower (monster e2)
          = Some [(t1, location e1)]) as Hrec1.
  { rewrite Hst1. unfold posted_state. simpl.
    rewrite (record_kill_fresh e1 t1) by done. rewrite <- Hname.
    apply lookup_insert_eq. }
  assert (_last_discord_post_time_by_monster st1 !! Py.lower (monster e2)
          = Some (clock_post env1)) as Hpost1.
  { rewrite Hst1. unfold posted_state. simpl. rewrite <- Hname.
    apply lookup_insert_eq. }
  split; [done|]. split.
  - intros Hwin. unfold st2, _process_boss_kill.
    destruct (decide (timestamp e2 = timestamp e1)) as [Heq|Hne].
    + rewrite bool_decide_eq_true_2.
      2:{ rewrite Hkills. apply set_add_elem. left. unfold kill_key_of.
          by rewrite Heq, Hname. }
      simpl. repeat split; try done. exists DuplicateExactMatch. by repeat split.
    + rewrite bool_decide_eq_false_2.
      2:{ rewrite Hkills. intros [Hin|Hin]%set_add_elem; [|done].
          unfold kill_key_of in Hin. congruence. }
      unfold recent_kill_check. rewrite Ht2, Hrec1.
      unfold time_window_hit. simpl.
      rewrite (proj2 (Z.leb_le _ _)) by done.
      simpl. repeat split; try done. exists (DuplicateWithin (Z.abs (t2 - t1))).
      by repeat split.
  - intros Hfar Hclock. apply process_boss_kill_posts.
    unfold will_post, recent_kill_check, cooldown_hit, time_window_hit.
    rewrite Ht2, Hrec1, Hpost1, Hd2, Hw22, Hw23. simpl.
    rewrite (proj2 (Z.leb_gt _ _)) by (unfold SAME_KILL_WINDOW_SECONDS; lia).
    rewrite Qltb_window by done.
    rewrite bool_decide_eq_false_2; [done|].
    rewrite Hkills. intros [Hin|Hin]%set_add_elem; [|done].
    unfold kill_key_of in Hin. injection Hin as Hts _.
    rewrite Hts in Ht2. assert (t1 = t2) by congruence. lia.
Qed.

(** *** The ingest gate *)


(** *** The buffer window *)

Lemma select_message_prefers_zone (pre post : list BossKillMessage) (z : BossKillMessage) :
  Forall (fun m => location m = "Lockouts") pre →
  location z ≠ "Lockouts" →
  select_message (pre ++ z :: post) = Some z.
Proof.
  intros Hpre Hz. unfold select_message. rewrite filter_app.
  assert (filter (fun msg => location msg ≠ "Lockouts") pre = []) as ->.
  { induction Hpre as [|m pre Hm Hpre IH]; [done|].
    by rewrite filter_cons_False by (by intros ?). }
  by rewrite filter_cons_True.
Qed.

Lemma select_message_lockouts_only (msgs : list BossKillMessage) :
  Forall (fun m => location m = "Lockouts") msgs →
  select_message msgs = head msgs.
Proof.
  intros Hall. unfold select_message.
  assert (filter (fun msg => location msg ≠ "Lockouts") msgs = []) as ->.
  { induction Hall as [|m l Hm Hl IH]; [done|].
    by rewrite filter_cons_False by (by intros ?). }
  f_equal. induction Hall as [|m l Hm Hl IH]; [done|].
  by rewrite filter_cons_True, IH.
Qed.

(** Whatever a handler queues, defers or audits from here on, it does so
    for the message [parsed]. *)
Definition only_about (parsed : BossKillMessage) (st st' : App) : Prop :=
  (message_queue st' = message_queue st
   ∨ ∃ url template boss_note,
       message_queue st' = message_queue st ++ [(url, format_message template parsed boss_note)])
  ∧ (deferred_kills st' = deferred_kills st
     ∨ ∃ boss, deferred_kills st' = deferred_kills st ++ [(parsed, boss)])
  ∧ ∃ new, activity st' = activity st ++ new ∧ Forall (fun a => a_parsed a = parsed) new.

Lemma only_about_refl (parsed : BossKillMessage) (st : App) : only_about parsed st st.
Proof.
  split; [by left|]. split; [by left|]. exists []. rewrite app_nil_r.
  split; [done|constructor].
Qed.

Lemma only_about_audit (parsed : BossKillMessage) (status : Status) (posted : bool)
    (message : option string) (st : App) :
  only_about parsed st (_add_activity_entry parsed status posted message st).
Proof.
  split; [by left|]. split; [by left|].
  exists [mkActivity parsed status posted message]. split; [done|].
  by apply Forall_singleton.
Qed.

Lemma process_boss_kill_only_about (env : Env) (parsed : BossKillMessage) (boss : nat)
    (st : App) :
  only_about parsed st (_process_boss_kill env parsed boss st).
Proof.
  destruct (record_kill_wiring parsed st) as (_ & Hdef & _).
  destruct (will_post env parsed st) eqn:Hw.
  - rewrite process_boss_kill_posts by done. unfold posted_state. split; [|split].
    + right. simpl. eauto.
    + left. simpl. done.
    + eexists [_]. simpl. rewrite record_kill_activity. split; [done|].
      by apply Forall_singleton.
  - destruct (process_boss_kill_skips env parsed boss st Hw)
      as (status & _ & [-> | ->]); [apply only_about_audit|].
    split; [left; apply record_kill_message_queue|]. split; [by left|].
    eexists [_]. simpl. rewrite record_kill_activity. split; [done|].
    by apply Forall_singleton.
Qed.

Lemma finish_selected_only_about (env : Env) (selected_message : BossKillMessage)
    (all_bosses : list nat) (st : App) (boss : nat) :
  only_about selected_message st
    (finish_selected env selected_message all_bosses st boss).
Proof.
  unfold finish_selected.
  repeat match goal with |- context [if ?c then _ else _] => destruct c end;
    auto using only_about_refl, only_about_audit, process_boss_kill_only_about.
Qed.

Lemma new_boss_detected_only_about (env : Env) (parsed : BossKillMessage) (st : App) :
  only_about parsed st (new_boss_detected env parsed st).
Proof.
  unfold new_boss_detected, _handle_new_boss, _add_new_boss.
  cbn [bosses set_pending_boss_kills _add_activity_entry set_activity
       active_new_boss_dialogs].
  assert (∃ new, activity st ++ [mkActivity parsed NewBossDetected false None]
                 = activity st ++ new
                 ∧ Forall (fun a => a_parsed a = parsed) new) as Hact.
  { eexists [_]. split; [done|]. by apply Forall_singleton. }
  destruct (db_exists (bosses st) (monster parsed));
    [split; [by left|]; split; [by left|]; exact Hact|].
  case_bool_decide.
  - destruct (add_boss (bosses st) (monster parsed) (location parsed)
                (bool_decide (new_boss_default_action env = "enable"))) as [bs boss].
    destruct (bool_decide (new_boss_default_action env = "enable")).
    + cbn [pending_boss_kills set_bosses _add_activity_entry set_activity
           set_pending_boss_kills].
      rewrite lookup_insert_eq.
      split; [by left|]. split; [right; by exists boss|]. exact Hact.
    + split; [by left|]. split; [by left|]. exact Hact.
  - case_bool_decide; (split; [by left|]; split; [by left|]; exact Hact).
Qed.

Lemma resolve_selected_only_about (env : Env) (selected_message : BossKillMessage)
    (st : App) :
  only_about selected_message st (resolve_selected env selected_message st).
Proof.
  unfold resolve_selected.
  destruct (db_exists (bosses st) (monster selected_message)); cbn [negb];
    [|apply new_boss_detected_only_about].
  destruct (needs_selection (bosses st) selected_message).
  - case_bool_decide; [apply only_about_refl|].
    unfold _handle_duplicate_boss_selection.
    destruct (selection_outcome env _) as [[boss|]|].
    + match goal with |- only_about _ _ (finish_selected ?e ?m ?a ?s ?b) =>
        pose proof (finish_selected_only_about e m a s b) as H1
      end.
      destruct H1 as (Hq & Hd & Ha). split; [exact Hq|]. split; [exact Hd|exact Ha].
    + split; [by left|]. split; [by left|]. eexists [_]. split; [done|].
      by apply Forall_singleton.
    + split; [by left|]. split; [by left|]. exists []. rewrite app_nil_r.
      split; [done|constructor].
  - destruct (get_bosses_by_name (bosses st) (monster selected_message)) as [|boss [|]];
      auto using only_about_audit, finish_selected_only_about.
Qed.

(** The part of C1 that the code keeps: when a buffer is flushed, the
    selected message is the first zone-sourced one if there is any and the
    first lockout-sourced one otherwise ([select_message_prefers_zone],
    [select_message_lockouts_only]); every buffered message that differs
    from it in some field is audited as skipped, in order of arrival; and
    whatever is queued, deferred or audited after that is for the selected
    message. *)
Lemma buffer_flush_handles_only_the_winner (env : Env) (monster_key : string)
    (buffer_data : Buffer) (selected_message : BossKillMessage) (st : App) :
  message_buffer st !! monster_key = Some buffer_data →
  processed buffer_data = false →
  select_message (messages buffer_data) = Some selected_message →
  let st' := _process_buffered_messages env monster_key st in
  let skipped :=
    (fun m => mkActivity m (SkippedByBuffer (location selected_message)) false None)
      <$> filter (fun m => m ≠ selected_message) (messages buffer_data) in
  (message_queue st' = message_queue st
   ∨ ∃ url template boss_note,
       message_queue st'
       = message_queue st ++ [(url, format_message template selected_message boss_note)])
  ∧ (deferred_kills st' = deferred_kills st
     ∨ ∃ boss, deferred_kills st' = deferred_kills st ++ [(selected_message, boss)])
  ∧ ∃ new, activity st' = activity st ++ skipped ++ new
           ∧ Forall (fun a => a_parsed a = selected_message) new.
Proof.
  intros Hbuf Hproc Hsel st' skipped. unfold st'.
  rewrite (buffered_flush env monster_key buffer_data selected_message) by done.
  destruct (resolve_selected_only_about env selected_message
              (flushed monster_key (messages buffer_data) selected_message st))
    as (Hq & Hd & new & Ha & Hnew).
  split; [exact Hq|]. split; [exact Hd|].
  exists new. split; [|done]. rewrite Ha. simpl. by rewrite <- app_assoc.
Qed.

(** *** The late path of [_process_log_line] *)

Lemma effect_same_core (st st1 st2 : App) :
  message_queue st1 = message_queue st → bosses st1 = bosses st →
  activity st1 = activity st →
  quiet st1 st2 ∨ dispatched_once st1 st2 →
  quiet st st2 ∨ dispatched_once st st2.
Proof.
  intros Hq Hb Ha. apply (effect_after_audit st st1 st2 []); try done.
  - by rewrite app_nil_r.
  - apply unposted_nil.
Qed.

Lemma process_or_disabled_effect (env : Env) (parsed : BossKillMessage) (boss : nat)
    (b : Boss) (st : App) :
  bosses st !! boss = Some b →
  let st' := if boss_enabled (bosses st) boss
             then _process_boss_kill env parsed boss st
             else _add_activity_entry parsed Disabled false None st in
  quiet st st' ∨ dispatched_once st st'.
Proof.
  intros Hb. simpl. destruct (boss_enabled (bosses st) boss).
  - by eapply process_boss_kill_effect.
  - left. apply quiet_audit, quiet_refl.
Qed.

Lemma process_late_effect (env : Env) (parsed : BossKillMessage) (st : App) :
  quiet st (process_late env parsed st) ∨ dispatched_once st (process_late env parsed st).
Proof.
  unfold process_late, _handle_duplicate_boss_selection.
  set (all_bosses := get_bosses_by_name (bosses st) (monster parsed)).
  set (st1 := set_selection_requests
                (selection_requests st ++ [(monster parsed, all_bosses)]) st).
  assert (∀ boss, boss ∈ all_bosses → ∃ b, bosses st !! boss = Some b) as Hvalid.
  { intros boss (b & Hb & _)%get_bosses_by_name_elem. eauto. }
  pose proof (selection_returns_candidate env all_bosses) as Hcand.
  assert (∀ s, quiet st (_add_activity_entry parsed s false None st1)) as Haudit1.
  { intros s. split; [done|]. split.
    - exists []. by rewrite app_nil_r.
    - eexists [_]. split; [done|]. by apply Forall_singleton. }
  assert (quiet st st1) as Hq1.
  { split; [done|]. split.
    - exists []. by rewrite app_nil_r.
    - exists []. rewrite app_nil_r. split; [done|apply unposted_nil]. }
  destruct (bool_decide (monster parsed ∈ duplicate_boss_names)
            && (0 <? length all_bosses)%nat) eqn:Hknown.
  - destruct (1 <? length all_bosses)%nat.
    + destruct (selection_outcome env all_bosses) as [[boss|]|]; [|by left|by left].
      destruct (Hvalid boss (Hcand boss eq_refl)) as [b Hb].
      destruct (negb _); [by left|].
      apply (effect_same_core st st1); try done.
      by eapply (process_or_disabled_effect env parsed boss b st1).
    + destruct all_bosses as [|boss rest] eqn:Hall; [left; apply quiet_refl|].
      destruct (Hvalid boss) as [b Hb]; [by left|].
      destruct (negb _); [left; apply quiet_audit, quiet_refl|].
      by eapply (process_or_disabled_effect env parsed boss b st).
  - destruct (db_exists (bosses st) (monster parsed)); cbn [negb];
      [|left; apply new_boss_detected_quiet].
    destruct (1 <? length all_bosses)%nat eqn:Hmany.
    + destruct (bool_decide (monster parsed ∈ duplicate_boss_names)).
      * destruct (selection_outcome env all_bosses) as [[boss|]|];
          [|cbn [andb]; by left|by left].
        destruct (Hvalid boss (Hcand boss eq_refl)) as [b Hb].
        cbn [andb]. destruct (negb _).
        -- destruct (boss_enabled _ _); by left.
        -- apply (effect_same_core st st1); try done.
           by eapply (process_or_disabled_effect env parsed boss b st1).
      * assert (∃ boss, (match List.find
                            (fun b => eqb (is_lockout (location parsed))
                                          (is_lockout (boss_loc (bosses st) b)))
                            all_bosses with
                         | Some b => Some b
                         | None => head all_bosses
                         end) = Some boss ∧ boss ∈ all_bosses) as (boss & -> & Hin).
        { destruct (List.find _ all_bosses) as [b|] eqn:Hfind.
          - exists b. split; [done|]. apply find_some in Hfind as [Hin _].
            by apply list_elem_of_In.
          - destruct all_bosses as [|b rest]; [done|]. exists b. split; [done|]. by left. }
        destruct (Hvalid boss Hin) as [b Hb].
        cbn [andb]. destruct (negb _).
        -- destruct (boss_enabled _ _); [left; apply quiet_audit|left]; apply quiet_refl.
        -- by eapply (process_or_disabled_effect env parsed boss b st).
    + destruct (get_boss (bosses st) (monster parsed)) as [boss|] eqn:Hget;
        [|left; apply quiet_refl].
      assert (boss ∈ all_bosses) as Hin.
      { unfold get_boss in Hget. fold all_bosses in Hget.
        destruct all_bosses as [|b rest]; [done|]. injection Hget as ->. by left. }
      destruct (Hvalid boss Hin) as [b Hb]. cbn [andb].
      by eapply (process_or_disabled_effect env parsed boss b st).
Qed.

Lemma quiet_same_core (st st1 : App) :
  message_queue st1 = message_queue st → bosses st1 = bosses st →
  activity st1 = activity st → quiet st st1.
Proof.
  intros Hq Hb Ha. split; [done|]. split.
  - exists []. by rewrite Hb, app_nil_r.
  - exists []. rewrite Ha, app_nil_r. split; [done|apply unposted_nil].
Qed.

Lemma quiet_same_core_audit (parsed : BossKillMessage) (status : Status) (st st1 : App) :
  message_queue st1 = message_queue st → bosses st1 = bosses st →
  activity st1 = activity st →
  quiet st (_add_activity_entry parsed status false None st1).
Proof.
  intros Hq Hb Ha. by apply quiet_audit, quiet_same_core.
Qed.

(** The counterpart of C6 for a line taken from the queue, its late path
    included. *)
Lemma process_log_line_effect (env : Env) (line : string) (st : App) :
  quiet st (_process_log_line env line st)
  ∨ dispatched_once st (_process_log_line env line st).
Proof.
  unfold _process_log_line.
  destruct (match parse_line line with
            | Some parsed => Some parsed
            | None => parse_lockout_line line
            end) as [parsed|]; [|left; apply quiet_refl].
  destruct (bool_decide (kill_key_of parsed ∈ recently_processed_kills st));
    [left; apply quiet_audit, quiet_refl|].
  match goal with |- context [if ?c then _ else _] => destruct c end.
  { destruct (get_bosses_by_name (bosses st) (monster parsed)) as [|first_boss rest];
      [left; apply quiet_refl|].
    destruct (boss_enabled (bosses st) first_boss); left;
      [apply quiet_audit|]; apply quiet_refl. }
  match goal with |- context [message_buffer ?s !! _] => set (st_e := s) end.
  assert (message_queue st_e = message_queue st) as Hq by done.
  assert (bosses st_e = bosses st) as Hb by done.
  assert (activity st_e = activity st) as Ha by done.
  destruct (message_buffer st_e !! Py.lower (monster parsed)) as [buffer_data|].
  - destruct (bool_decide (kill_key_of parsed ∈ recently_processed_kills st_e));
      [left; by apply quiet_same_core_audit|].
    destruct (processed buffer_data); cbn [negb]; [|left; by apply quiet_same_core].
    destruct (late_check st_e parsed); [left; by apply quiet_same_core_audit|].
    apply (effect_same_core st st_e); try done. apply process_late_effect.
  - destruct (late_check st_e parsed); left;
      [by apply quiet_same_core_audit|by apply quiet_same_core].
Qed.

(** C6: the registry's kill bookkeeping is done if and only if a message
    was put on the delivery queue, and then once.  Whenever the buffer of
    a target is flushed, and whenever a line is taken from the queue
    (its late path included), either nothing is queued, no kill is
    recorded and every new audit row says "not posted" (duplicates,
    disabled targets, location mismatches, cancellations, no webhook
    configured), or exactly one message is queued, exactly one registry
    record has its counter raised by one and its last-kill time set, and
    the last audit row says "posted"; the same holds of
    [_process_boss_kill] for any record of the registry. *)
Theorem C6_kill_recorded_iff_dispatched (env : Env) (monster_key line : string)
    (st : App) :
  (quiet st (_process_buffered_messages env monster_key st)
   ∨ dispatched_once st (_process_buffered_messages env monster_key st))
  ∧ (quiet st (_process_log_line env line st)
     ∨ dispatched_once st (_process_log_line env line st))
  ∧ ∀ (parsed : BossKillMessage) (boss : nat) (b : Boss),
      bosses st !! boss = Some b →
      (will_post env parsed st = false → quiet st (_process_boss_kill env parsed boss st))
      ∧ (will_post env parsed st = true →
         dispatched_once st (_process_boss_kill env parsed boss st)).
Proof.
  split; [apply process_buffered_messages_effect|].
  split; [apply process_log_line_effect|].
  intros parsed boss b Hb. split; intros Hw.
  - destruct (process_boss_kill_skips env parsed boss st Hw)
      as (status & _ & [-> | ->]).
    + apply quiet_audit, quiet_refl.
    + apply quiet_audit, quiet_same_core;
        auto using record_kill_message_queue, record_kill_bosses, record_kill_activity.
  - destruct (process_boss_kill_effect env parsed boss b st Hb) as [Hquiet|Hd]; [|done].
    destruct Hquiet as (Hq & _). rewrite process_boss_kill_posts in Hq by done.
    unfold posted_state in Hq. simpl in Hq.
    apply (f_equal length) in Hq. rewrite length_app in Hq. simpl in Hq. lia.
Qed.

(** The counterpart of C3 on the late path of [_process_log_line]. *)
Lemma process_late_cancelled (env : Env) (parsed : BossKillMessage) (st : App) :
  monster parsed ∈ duplicate_boss_names →
  (1 < length (get_bosses_by_name (bosses st) (monster parsed)))%nat →
  selection_outcome env (get_bosses_by_name (bosses st) (monster parsed)) = Returned None →
  process_late env parsed st
  = _add_activity_entry parsed Cancelled false None (requested parsed st).
Proof.
  intros Hknown Hmany Hout. unfold process_late, _handle_duplicate_boss_selection.
  rewrite bool_decide_eq_true_2 by done.
  rewrite (proj2 (Nat.ltb_lt 0 _)) by lia.
  rewrite (proj2 (Nat.ltb_lt 1 _)) by done.
  cbn [andb]. by rewrite Hout.
Qed.

(** How the failing input of C1 comes about: two different lines that the
    lockout grammar reads as the same message are both put in the buffer
    of the target. *)
Lemma identical_copies_reach_the_buffer (env1 env2 : Env) (line1 line2 : string)
    (e : BossKillMessage) (boss : nat) (st : App) :
  parse_line line1 = None → parse_lockout_line line1 = Some e →
  parse_line line2 = None → parse_lockout_line line2 = Some e →
  kill_key_of e ∉ recently_processed_kills st →
  get_bosses_by_name (bosses st) (monster e) = [boss] →
  (length (recently_processed_lines st) + 2 ≤ 2000)%nat →
  (length (recently_processed_kills st) ≤ 1000)%nat →
  message_buffer st !! Py.lower (monster e) = None →
  recent_kills_by_monster st !! Py.lower (monster e) = None →
  message_buffer (_process_log_line env2 line2 (_process_log_line env1 line1 st))
    !! Py.lower (monster e)
  = Some (mkBuffer [e; e] false).
Proof.
  intros Hp1 Hl1 Hp2 Hl2 Hkey Hall Hlines Hkills Hbuf Hrecent.
  assert (∀ (x : string) (s : list string),
            (length (Py.set_add x s) ≤ S (length s))%nat) as Hadd.
  { intros x s. unfold Py.set_add. case_bool_decide; [lia|].
    rewrite length_app. simpl. lia. }
  assert (∀ (A : Type) (n : nat) (s : list A), (length s ≤ n)%nat → evict_half n s = s)
    as Hevict.
  { intros A n s Hn. unfold evict_half. by rewrite (proj2 (Nat.ltb_ge _ _)). }
  assert (_process_log_line env1 line1 st = set_message_buffer
                  (<[Py.lower (monster e) := mkBuffer [e] false]> (message_buffer st))
                  (set_recently_processed_lines
                     (Py.set_add (md5 line1) (recently_processed_lines st)) st)) as Hst1.
  { unfold _process_log_line. rewrite Hp1, Hl1.
    rewrite bool_decide_eq_false_2 by done. rewrite Hall.
    cbn [length Nat.ltb Nat.leb andb negb].
    rewrite !andb_false_r. cbn [andb recently_processed_lines set_recently_processed_lines
      recently_processed_kills set_recently_processed_kills].
    rewrite !Hevict by first [done | etrans; [apply Hadd|lia]].
    unfold late_check, recent_kill_check.
    cbn [message_buffer recent_kills_by_monster set_recently_processed_lines
         set_recently_processed_kills].
    rewrite Hbuf, Hrecent. destruct (strptime (timestamp e)); by destruct st. }
  rewrite Hst1. unfold _process_log_line. rewrite Hp2, Hl2.
  cbn [recently_processed_kills bosses set_message_buffer set_recently_processed_lines].
  rewrite bool_decide_eq_false_2 by done. rewrite Hall.
  cbn [length Nat.ltb Nat.leb andb negb]. rewrite !andb_false_r.
  cbn [andb recently_processed_lines set_recently_processed_lines set_message_buffer
       recently_processed_kills set_recently_processed_kills message_buffer].
  rewrite !Hevict by first [done | etrans; [apply Hadd|]; etrans;
                                   [apply le_n_S, Hadd|lia]].
  cbn [message_buffer set_recently_processed_lines set_recently_processed_kills
       recently_processed_kills].
  rewrite lookup_insert_eq. rewrite bool_decide_eq_false_2 by done.
  cbn [processed negb messages app message_buffer set_message_buffer].
  by rewrite lookup_insert_eq.
Qed.

(** *** A kill that was handled once *)



(** *** What [record_kill] remembers *)

(** X6: When the timestamp of a kill parses, marking it as processed leaves at
    most three entries for the target in [recent_kills_by_monster], the
    last of them this kill, none of them 60 seconds or more older than it;
    so any later event for the same name whose timestamp is at most 9
    seconds away from this kill meets the same-kill check. *)
Theorem recorded_kill_is_remembered (parsed : BossKillMessage) (t : Z) (st : App) :
  strptime (timestamp parsed) = Some t →
  ∃ recent,
    recent_kills_by_monster (record_kill parsed st) !! Py.lower (monster parsed)
    = Some recent
    ∧ (length recent ≤ 3)%nat
    ∧ last recent = Some (t, location parsed)
    ∧ Forall (fun p => t - 60 < fst p) recent
    ∧ ∀ (later : BossKillMessage) (t' : Z),
        Py.lower (monster later) = Py.lower (monster parsed) →
        strptime (timestamp later) = Some t' →
        Z.abs (t' - t) ≤ SAME_KILL_WINDOW_SECONDS →
        is_Some (recent_kill_check (record_kill parsed st) later).
Proof.
  intros Ht. unfold record_kill. rewrite Ht.
  cbn [recent_kills_by_monster set_recent_kills_by_monster set_recently_processed_kills].
  set (old := default [] (recent_kills_by_monster st !! Py.lower (monster parsed))).
  set (kept := filter (fun p : Z * string => t - 60 < fst p) old).
  assert (filter (fun p : Z * string => t - 60 < fst p) (old ++ [(t, location parsed)])
          = kept ++ [(t, location parsed)]) as ->.
  { rewrite filter_app. fold kept. f_equal.
    rewrite filter_cons_True by (simpl; lia). done. }
  set (recent := Py.last_n 3 (kept ++ [(t, location parsed)])).
  assert (recent = drop (length kept - 2) kept ++ [(t, location parsed)]) as Hrecent.
  { unfold recent, Py.last_n. rewrite length_app. simpl.
    replace (length kept + 1 - 3)%nat with (length kept - 2)%nat by lia.
    apply drop_app_le. lia. }
  exists recent. rewrite lookup_insert_eq. split; [done|].
  assert (last recent = Some (t, location parsed)) as Hlast
    by (by rewrite Hrecent, last_snoc).
  split; [|split; [done|split]].
  - rewrite Hrecent, length_app, length_drop. simpl. lia.
  - rewrite Hrecent. apply Forall_app. split.
    + apply Forall_drop. unfold kept. apply Forall_forall.
      intros p Hp. by apply list_elem_of_filter in Hp as [? _].
    + apply Forall_singleton. simpl. lia.
  - intros later t' Hname Ht' Hwin. unfold recent_kill_check.
    cbn [recent_kills_by_monster set_recent_kills_by_monster].
    rewrite Ht', Hname, lookup_insert_eq. unfold time_window_hit.
    destruct (List.find _ recent) as [p|] eqn:Hfind; [by eexists|].
    apply last_Some_elem_of, list_elem_of_In in Hlast.
    apply (find_none _ _ Hfind) in Hlast. simpl in Hlast.
    apply Z.leb_gt in Hlast. lia.
Qed.

(** *** Buffers between two handlers *)

(** No buffer is marked as processed, and none is empty. *)
Definition buffers_open (st : App) : Prop :=
  ∀ k b, message_buffer st !! k = Some b → processed b = false ∧ messages b ≠ [].

(** The handler posts nothing, counts nothing, shows no dialog, defers
    nothing and leaves the queue of lines alone. *)
Definition ingest_only (st st' : App) : Prop :=
  message_queue st' = message_queue st
  ∧ bosses st' = bosses st
  ∧ selection_requests st' = selection_requests st
  ∧ deferred_kills st' = deferred_kills st
  ∧ log_line_queue st' = log_line_queue st.

Lemma buffers_open_same (st st' : App) :
  message_buffer st' = message_buffer st → buffers_open st → buffers_open st'.
Proof. unfold buffers_open. by intros ->. Qed.

Lemma buffers_open_insert (st st' : App) (k : string) (b : Buffer) :
  message_buffer st' = <[k := b]> (message_buffer st) →
  processed b = false → messages b ≠ [] →
  buffers_open st → buffers_open st'.
Proof.
  unfold buffers_open. intros -> Hp Hm Hopen k' b' Hlook.
  destruct (decide (k = k')) as [<-|Hne].
  - rewrite lookup_insert_eq in Hlook. by simplify_eq.
  - rewrite lookup_insert_ne in Hlook by done. eauto.
Qed.

Lemma buffers_open_delete (st st' : App) (k : string) :
  message_buffer st' = delete k (message_buffer st) →
  buffers_open st → buffers_open st'.
Proof.
  unfold buffers_open. intros -> Hopen k' b' Hlook.
  apply lookup_delete_Some in Hlook as [_ Hlook]. eauto.
Qed.

Lemma new_boss_detected_buffer (env : Env) (parsed : BossKillMessage) (st : App) :
  message_buffer (new_boss_detected env parsed st) = message_buffer st.
Proof.
  unfold new_boss_detected, _handle_new_boss, _add_new_boss.
  repeat match goal with
         | |- context [if ?c then _ else _] => destruct c
         | |- context [let '(_, _) := ?p in _] => destruct p
         | |- context [match ?o with Some _ => _ | None => _ end] => destruct o
         end; done.
Qed.

Lemma resolve_selected_buffer (env : Env) (selected_message : BossKillMessage)
    (st : App) :
  message_buffer (resolve_selected env selected_message st) = message_buffer st.
Proof.
  unfold resolve_selected.
  destruct (db_exists (bosses st) (monster selected_message)); cbn [negb];
    [|apply new_boss_detected_buffer].
  destruct (needs_selection (bosses st) selected_message).
  - case_bool_decide; [done|]. unfold _handle_duplicate_boss_selection.
    destruct (selection_outcome env _) as [[boss|]|]; try done.
    match goal with
    | |- message_buffer (finish_selected ?e ?s ?a ?t ?b) = _ =>
        destruct (finish_selected_wiring e s a t b) as (_ & _ & _ & -> & _)
    end.
    done.
  - destruct (get_bosses_by_name (bosses st) (monster selected_message))
      as [|boss [|]]; try done.
    by destruct (finish_selected_wiring env selected_message [boss] st boss)
      as (_ & _ & _ & -> & _).
Qed.

Lemma process_buffered_messages_buffer (env : Env) (monster_key : string) (st : App) :
  message_buffer (_process_buffered_messages env monster_key st)
  = match message_buffer st !! monster_key with
    | Some buffer_data =>
        if processed buffer_data then message_buffer st
        else delete monster_key (message_buffer st)
    | None => message_buffer st
    end.
Proof.
  unfold _process_buffered_messages.
  destruct (message_buffer st !! monster_key) as [buffer_data|]; [|done].
  destruct (processed buffer_data); [done|].
  destruct (select_message (messages buffer_data)) as [selected_message|].
  - rewrite resolve_selected_buffer, audit_skipped. simpl.
    by rewrite delete_insert_eq.
  - simpl. by rewrite delete_insert_eq.
Qed.

Lemma process_log_line_ingest (env : Env) (line : string) (st : App) :
  buffers_open st →
  buffers_open (_process_log_line env line st)
  ∧ ingest_only st (_process_log_line env line st).
Proof.
  intros Hopen. unfold _process_log_line.
  destruct (match parse_line line with
            | Some parsed => Some parsed
            | None => parse_lockout_line line
            end) as [parsed|]; [|done].
  case_bool_decide; [done|].
  match goal with |- context [if ?c then _ else _] => destruct c end.
  { destruct (get_bosses_by_name (bosses st) (monster parsed)) as [|first_boss ?];
      [done|]. by destruct (boss_enabled (bosses st) first_boss). }
  cbn [message_buffer set_recently_processed_lines set_recently_processed_kills
       recently_processed_kills recently_processed_lines].
  destruct (message_buffer st !! Py.lower (monster parsed)) as [buffer_data|] eqn:Hbuf.
  - case_bool_decide; [done|].
    destruct (Hopen _ _ Hbuf) as [Hproc Hmsgs]. rewrite Hproc. cbn [negb].
    split; [|done].
    eapply buffers_open_insert; [reflexivity| | |exact Hopen]; [done|].
    simpl. by destruct (messages buffer_data).
  - destruct (late_check _ parsed); [done|].
    split; [|done].
    eapply buffers_open_insert; [reflexivity| | |exact Hopen]; done.
Qed.

(** X7: Between two handlers no buffer is ever marked as processed.  If that
    holds before a handler runs (it does at start-up, when there is no
    buffer), it holds after it, for each of the handlers of the pipeline;
    the flush triggered by the timer of a target removes the buffer of
    that target and no other; and handling a line then posts nothing and
    shows no dialog: the line is audited or buffered, and the branch of
    [_process_log_line] that processes a "late message" at once is never
    taken. *)
Theorem buffers_are_open_between_handlers (env : Env) (line monster_key : string)
    (st : App) :
  buffers_open st →
  buffers_open (_on_new_log_line line st)
  ∧ buffers_open (_process_log_line env line st)
  ∧ buffers_open (_process_buffered_messages env monster_key st)
  ∧ buffers_open (timer_fired env monster_key st)
  ∧ buffers_open (run_deferred env st)
  ∧ message_buffer (timer_fired env monster_key st) = delete monster_key (message_buffer st)
  ∧ ingest_only st (_process_log_line env line st).
Proof.
  intros Hopen.
  assert (message_buffer (_process_buffered_messages env monster_key st)
          = delete monster_key (message_buffer st)) as Hflush.
  { rewrite process_buffered_messages_buffer.
    destruct (message_buffer st !! monster_key) as [b|] eqn:Hb.
    - destruct (Hopen _ _ Hb) as [-> _]. done.
    - by rewrite delete_id. }
  assert (timer_fired env monster_key st = _process_buffered_messages env monster_key st)
    as Htimer.
  { unfold timer_fired, _process_buffered_messages.
    destruct (message_buffer st !! monster_key) as [b|]; [|done].
    by destruct (processed b). }
  split; [|split; [|split; [|split; [|split; [|split]]]]].
  - unfold _on_new_log_line. case_bool_decide; [done|].
    by eapply buffers_open_same.
  - by apply process_log_line_ingest.
  - by eapply buffers_open_delete.
  - rewrite Htimer. by eapply buffers_open_delete.
  - unfold run_deferred. destruct (deferred_kills st) as [|[parsed boss] rest]; [done|].
    eapply buffers_open_same; [|exact Hopen].
    by destruct (process_boss_kill_wiring env parsed boss (set_deferred_kills rest st))
      as (_ & _ & _ & -> & _).
  - by rewrite Htimer.
  - by apply process_log_line_ingest.
Qed.

(** X8: [_process_queued_log_lines] takes at most ten lines off the queue, the
    oldest first, and leaves the others queued in their order; started
    with no buffer marked as processed, it posts nothing, counts nothing
    and shows no dialog, whatever the lines are ([envs] must hold what
    each handled line reads from outside). *)
Theorem queued_lines_are_handled_ten_at_a_time (envs : list Env) (st : App) :
  buffers_open st →
  (Nat.min 10 (length (log_line_queue st)) ≤ length envs)%nat →
  log_line_queue (_process_queued_log_lines envs st) = drop 10 (log_line_queue st)
  ∧ buffers_open (_process_queued_log_lines envs st)
  ∧ message_queue (_process_queued_log_lines envs st) = message_queue st
  ∧ bosses (_process_queued_log_lines envs st) = bosses st
  ∧ selection_requests (_process_queued_log_lines envs st) = selection_requests st
  ∧ deferred_kills (_process_queued_log_lines envs st) = deferred_kills st.
Proof.
  unfold _process_queued_log_lines. generalize 10%nat. intros n.
  revert envs st. induction n as [|n IH]; intros envs st Hopen Hlen.
  { by destruct envs. }
  destruct (log_line_queue st) as [|line rest] eqn:Hq.
  { assert (process_queued envs (S n) st = st) as ->
      by (destruct envs; simpl; by rewrite Hq).
    by rewrite Hq. }
  destruct envs as [|env envs]; [simpl in Hlen; lia|].
  assert (process_queued (env :: envs) (S n) st
          = process_queued envs n (_process_log_line env line (set_log_line_queue rest st)))
    as -> by (simpl; by rewrite Hq).
  set (st0 := set_log_line_queue rest st).
  assert (buffers_open st0) as Hopen0 by (by eapply buffers_open_same).
  destruct (process_log_line_ingest env line st0 Hopen0)
    as (Hopen1 & Hmq & Hbs & Hsel & Hdef & Hlq).
  destruct (IH envs (_process_log_line env line st0) Hopen1)
    as (Hq' & Hopen' & Hmq' & Hbs' & Hsel' & Hdef').
  { rewrite Hlq. simpl in *. lia. }
  rewrite Hq', Hmq', Hbs', Hsel', Hdef', Hlq, Hmq, Hbs, Hsel, Hdef. done.
Qed.

(** *** A burst of lines at the gate *)

(** The lines of one read of the log handed to [_on_new_log_line] one
    after the other, as the monitor does. *)
Definition on_new_lines (lines : list string) (st : App) : App :=
  foldl (fun st line => _on_new_log_line line st) st lines.

(** X9: Whatever lines the monitor hands over, the gate queues a part of them
    in their order, no two with the same digest and none whose digest was
    in the history; every digest handed over is in the history afterwards,
    and every line whose digest was new is queued itself or represented by
    an earlier line of the same digest. *)
Theorem gate_queues_each_digest_once (lines : list string) (st : App) :
  ∃ new,
    log_line_queue (on_new_lines lines st) = log_line_queue st ++ new
    ∧ new `sublist_of` lines
    ∧ NoDup (md5 <$> new)
    ∧ (∀ line, line ∈ new → md5 line ∉ recently_processed_lines st)
    ∧ (∀ h, h ∈ recently_processed_lines st →
            h ∈ recently_processed_lines (on_new_lines lines st))
    ∧ (∀ line, line ∈ lines → md5 line ∈ recently_processed_lines (on_new_lines lines st))
    ∧ (∀ line, line ∈ lines → md5 line ∉ recently_processed_lines st →
         ∃ first, first ∈ new ∧ md5 first = md5 line).
Proof.
  revert st. induction lines as [|l lines IH]; intros st.
  { exists []. simpl. rewrite app_nil_r. repeat split; try done.
    - constructor.
    - intros line ?%elem_of_nil. done.
    - intros line ?%elem_of_nil. done.
    - intros line ?%elem_of_nil. done. }
  unfold on_new_lines. cbn [foldl]. fold (on_new_lines lines (_on_new_log_line l st)).
  destruct (IH (_on_new_log_line l st)) as (new & Hq & Hsub & Hnd & Hfresh & Hmono & Hseen & Hrep).
  destruct (decide (md5 l ∈ recently_processed_lines st)) as [Hin|Hnin].
  - assert (_on_new_log_line l st = st) as Hst
      by (unfold _on_new_log_line; by rewrite bool_decide_eq_true_2).
    rewrite Hst in *. exists new. repeat split; try done.
    + by apply sublist_cons.
    + intros line [->|Hline]%elem_of_cons; [by apply Hmono|by apply Hseen].
    + intros line [->|Hline]%elem_of_cons Hnew; [done|by apply Hrep].
  - assert (log_line_queue (_on_new_log_line l st) = log_line_queue st ++ [l]
            ∧ ∀ h, h ∈ recently_processed_lines (_on_new_log_line l st)
                   ↔ h = md5 l ∨ h ∈ recently_processed_lines st) as [Hq1 Hseen1].
    { unfold _on_new_log_line. rewrite bool_decide_eq_false_2 by done. simpl.
      split; [done|]. intros h. apply set_add_elem. }
    exists (l :: new). rewrite Hq, Hq1, <- app_assoc. repeat split; try done.
    + by apply sublist_skip.
    + rewrite fmap_cons. apply NoDup_cons. split; [|done].
      intros (line & Heq & Hline)%list_elem_of_fmap.
      apply (Hfresh line Hline). apply Hseen1. by left.
    + intros line [->|Hline]%elem_of_cons; [done|].
      intros Hold. apply (Hfresh line Hline). apply Hseen1. by right.
    + intros h Hh. apply Hmono, Hseen1. by right.
    + intros line [->|Hline]%elem_of_cons; [|by apply Hseen].
      apply Hmono, Hseen1. by left.
    + intros line Hline Hnew.
      destruct (decide (md5 line = md5 l)) as [Heq|Hne].
      * exists l. split; [by left|done].
      * apply elem_of_cons in Hline as [->|Hline]; [done|].
        destruct (Hrep line Hline) as (first & Hfirst & Hmd5).
        { intros [?|?]%Hseen1; done. }
        exists first. split; [by right|done].
Qed.

(** *** Targets that are disabled *)

(** Nothing was queued, counted or deferred, no kill was marked as
    processed, and what was added to the activity log says "not posted". *)
Definition audited_only (st st' : App) : Prop :=
  message_queue st' = message_queue st
  ∧ bosses st' = bosses st
  ∧ deferred_kills st' = deferred_kills st
  ∧ recently_processed_kills st' = recently_processed_kills st
  ∧ ∃ new, activity st' = activity st ++ new ∧ unposted new.

Lemma audited_only_fields (st st' : App) (new : list Activity) :
  message_queue st' = message_queue st → bosses st' = bosses st →
  deferred_kills st' = deferred_kills st →
  recently_processed_kills st' = recently_processed_kills st →
  activity st' = activity st ++ new → unposted new →
  audited_only st st'.
Proof. intros. repeat split; eauto. Qed.

Lemma audited_only_trans (st st1 st2 : App) :
  audited_only st st1 → audited_only st1 st2 → audited_only st st2.
Proof.
  intros (Hq & Hb & Hd & Hk & new & Ha & Hn) (Hq' & Hb' & Hd' & Hk' & new' & Ha' & Hn').
  apply (audited_only_fields st st2 (new ++ new')); try congruence.
  - by rewrite Ha', Ha, <- app_assoc.
  - by apply Forall_app.
Qed.

Ltac solve_audited :=
  first [ eapply (audited_only_fields _ _ []); simpl; rewrite ?app_nil_r;
          first [done | constructor]
        | eapply (audited_only_fields _ _ [_]); simpl;
          first [done | by apply Forall_singleton] ].

Lemma finish_selected_disabled (env : Env) (selected_message : BossKillMessage)
    (all_bosses : list nat) (st : App) (boss : nat) :
  boss_enabled (bosses st) boss = false →
  audited_only st (finish_selected env selected_message all_bosses st boss).
Proof.
  intros Hdis. unfold finish_selected. rewrite Hdis.
  destruct (_ && _); solve_audited.
Qed.

(** X10: When every record of the registry that has the name of the selected
    message is disabled, the flush of the buffer posts nothing: nothing is
    queued or deferred, no kill is counted or marked as processed, and the
    rows added to the activity log all say "not posted"; this holds
    whether or not a selection dialog is shown and however it ends. *)
Theorem disabled_target_is_never_posted (env : Env) (monster_key : string)
    (buffer_data : Buffer) (selected_message : BossKillMessage) (st : App) :
  message_buffer st !! monster_key = Some buffer_data →
  processed buffer_data = false →
  select_message (messages buffer_data) = Some selected_message →
  db_exists (bosses st) (monster selected_message) = true →
  (∀ i b, bosses st !! i = Some b →
          Py.lower (name b) = Py.lower (monster selected_message) → enabled b = false) →
  audited_only st (_process_buffered_messages env monster_key st).
Proof.
  intros Hbuf Hproc Hsel Hex Hdis.
  rewrite (buffered_flush env monster_key buffer_data selected_message) by done.
  set (st0 := flushed monster_key (messages buffer_data) selected_message st).
  assert (∀ boss, boss ∈ get_bosses_by_name (bosses st) (monster selected_message) →
                  boss_enabled (bosses st) boss = false) as Hoff.
  { intros boss (b & Hb & Hn)%get_bosses_by_name_elem.
    unfold boss_enabled. rewrite Hb. simpl. eauto. }
  apply (audited_only_trans st st0).
  { eapply audited_only_fields; try done. apply Forall_fmap. by apply Forall_true. }
  unfold resolve_selected. cbn [bosses st0 flushed set_message_buffer set_activity].
  rewrite Hex. cbn [negb].
  destruct (needs_selection (bosses st) selected_message).
  - case_bool_decide; [solve_audited|].
    unfold _handle_duplicate_boss_selection.
    pose proof (selection_returns_candidate env
                  (get_bosses_by_name (bosses st) (monster selected_message))) as Hcand.
    destruct (selection_outcome env _) as [[boss|]|]; [|solve_audited..].
    match goal with
    | |- audited_only _ (finish_selected ?e ?s ?a ?t ?b) =>
        apply (audited_only_trans _ t); [solve_audited|apply finish_selected_disabled]
    end.
    simpl. by apply Hoff, Hcand.
  - destruct (get_bosses_by_name (bosses st) (monster selected_message))
      as [|boss [|]] eqn:Hall; [solve_audited| |solve_audited].
    apply finish_selected_disabled. simpl. apply Hoff. by left.
Qed.

(** *** A target that is not in the registry *)

Lemma get_boss_unknown (bs : list Boss) (n : string) :
  db_exists bs n = false → get_boss bs n = None.
Proof.
  rewrite db_exists_candidates. intros H%negb_false_iff%bool_decide_eq_true.
  unfold get_boss. by rewrite H.
Qed.

Lemma will_post_fields (env : Env) (parsed : BossKillMessage) (st st' : App) :
  recently_processed_kills st' = recently_processed_kills st →
  recent_kills_by_monster st' = recent_kills_by_monster st →
  _last_discord_post_time_by_monster st' = _last_discord_post_time_by_monster st →
  will_post env parsed st' = will_post env parsed st.
Proof.
  intros Hk Hr Hl. unfold will_post, recent_kill_check, cooldown_hit.
  by rewrite Hk, Hr, Hl.
Qed.

(** X11: A kill of a target that is not in the registry, with the default
    action for new targets set to "enable": the target is added to the
    registry, enabled and with no kill counted, the kill is handed to a
    deferred callback and is no longer pending; when that callback runs
    and nothing stands against a post, the kill is posted and counted on
    the new record.  With the default action "disable" the target is
    added disabled, nothing is deferred or queued, and the kill stays in
    [pending_boss_kills]. *)
Theorem new_target_default_action (env env' : Env) (parsed : BossKillMessage) (st : App) :
  db_exists (bosses st) (monster parsed) = false →
  let st1 := new_boss_detected env parsed st in
  let record en := mkBoss (monster parsed) (location parsed) en 0 None None "" None false in
  (new_boss_default_action env = "enable" →
   bosses st1 = bosses st ++ [record true]
   ∧ deferred_kills st1 = deferred_kills st ++ [(parsed, length (bosses st))]
   ∧ pending_boss_kills st1 !! Py.lower (monster parsed) = None
   ∧ message_queue st1 = message_queue st
   ∧ (deferred_kills st = [] → will_post env' parsed st = true →
      let st2 := run_deferred env' st1 in
      deferred_kills st2 = []
      ∧ (∃ url message, message_queue st2 = message_queue st ++ [(url, message)])
      ∧ kill_count <$> bosses st2 = (kill_count <$> bosses st) ++ [1]
      ∧ (a_status <$> activity st2)
        = (a_status <$> activity st) ++ [NewBossDetected; PostedToDiscord]))
  ∧ (new_boss_default_action env = "disable" →
     bosses st1 = bosses st ++ [record false]
     ∧ deferred_kills st1 = deferred_kills st
     ∧ pending_boss_kills st1 !! Py.lower (monster parsed) = Some parsed
     ∧ message_queue st1 = message_queue st).
Proof.
  intros Hnew st1 record.
  assert (∀ loc en, add_boss (bosses st) (monster parsed) loc en
                    = (bosses st ++ [mkBoss (monster parsed) loc en 0 None None "" None false],
                       length (bosses st))) as Hadd.
  { intros loc en. unfold add_boss. rewrite (get_boss_unknown _ _ Hnew).
    by destruct (bool_decide _). }
  split; intros Hact.
  - assert (st1 = set_pending_boss_kills
                    (delete (Py.lower (monster parsed))
                       (<[Py.lower (monster parsed) := parsed]> (pending_boss_kills st)))
                    (set_deferred_kills (deferred_kills st ++ [(parsed, length (bosses st))])
                       (set_bosses (bosses st ++ [record true])
                          (_add_activity_entry parsed NewBossDetected false None
                             (set_pending_boss_kills
                                (<[Py.lower (monster parsed) := parsed]> (pending_boss_kills st))
                                st))))) as Hst1.
    { unfold st1, new_boss_detected, _handle_new_boss.
      cbn [bosses _add_activity_entry set_activity set_pending_boss_kills].
      rewrite Hnew, Hact. rewrite bool_decide_eq_true_2 by (by left).
      rewrite bool_decide_eq_true_2 by done.
      unfold _add_new_boss. cbn [bosses]. rewrite Hadd.
      simpl. by rewrite lookup_insert_eq. }
    rewrite Hst1. cbn [bosses deferred_kills pending_boss_kills message_queue
      set_pending_boss_kills set_deferred_kills set_bosses _add_activity_entry set_activity].
    split; [done|]. split; [done|]. split; [apply lookup_delete_eq|]. split; [done|].
    intros Hdef Hpost. unfold run_deferred.
    cbn [deferred_kills set_pending_boss_kills set_deferred_kills]. rewrite Hdef. cbn [app].
    match goal with
    | |- context [_process_boss_kill env' parsed ?b ?s] => set (st0 := s)
    end.
    rewrite (process_boss_kill_posts env' parsed _ st0)
      by (rewrite <- Hpost; by apply will_post_fields).
    unfold posted_state.
    cbn [deferred_kills message_queue bosses activity _add_activity_entry set_activity
         set_bosses set_message_queue set_last_discord_post_time_by_monster].
    rewrite record_kill_activity.
    destruct (record_kill_wiring parsed st0) as (_ & -> & _).
    split; [done|]. split; [eauto|]. split.
    + unfold increment_kill_count. unfold st0. cbn [bosses set_deferred_kills
        set_pending_boss_kills set_bosses].
      rewrite alter_app_r_alt by done. rewrite Nat.sub_diag, fmap_app. f_equal.
      simpl. by destruct (Py.truthy _); [destruct (strptime _)|].
    + simpl. by rewrite !fmap_app, <- app_assoc.
  - assert (st1 = set_bosses (bosses st ++ [record false])
                    (_add_activity_entry parsed NewBossDetected false None
                       (set_pending_boss_kills
                          (<[Py.lower (monster parsed) := parsed]> (pending_boss_kills st))
                          st))) as Hst1.
    { unfold st1, new_boss_detected, _handle_new_boss.
      cbn [bosses _add_activity_entry set_activity set_pending_boss_kills].
      rewrite Hnew, Hact. rewrite bool_decide_eq_true_2 by (right; by left).
      rewrite bool_decide_eq_false_2 by done.
      unfold _add_new_boss. cbn [bosses]. by rewrite Hadd. }
    rewrite Hst1. simpl. split; [done|]. split; [done|]. split; [|done].
    apply lookup_insert_eq.
Qed.

(** *** From a line of the log to a post *)

(** X12: One line that reports a kill of a target with exactly one record in
    the registry, that record enabled, met in a state that knows nothing
    of this kill (digest and kill key not seen, no buffer, no recent kill
    and no recent post for the name, a destination configured when the
    timer fires): the gate queues the line; handling the queue only opens
    a buffer for the target and posts nothing; when the timer of the
    buffer fires, exactly one message is queued for delivery, built from
    this event and the note of the record, the kill is counted on the
    record, the activity log gets the row "posted", the buffer is gone and
    the kill is marked as processed. *)
Theorem one_line_one_post (env_line env_timer : Env) (line : string)
    (parsed : BossKillMessage) (boss : nat) (b : Boss) (st : App) :
  match parse_line line with
  | Some parsed => Some parsed
  | None => parse_lockout_line line
  end = Some parsed →
  get_bosses_by_name (bosses st) (monster parsed) = [boss] →
  bosses st !! boss = Some b → enabled b = true →
  md5 line ∉ recently_processed_lines st →
  log_line_queue st = [] →
  (length (recently_processed_lines st) < 2000)%nat →
  (length (recently_processed_kills st) ≤ 1000)%nat →
  kill_key_of parsed ∉ recently_processed_kills st →
  message_buffer st !! Py.lower (monster parsed) = None →
  recent_kills_by_monster st !! Py.lower (monster parsed) = None →
  _last_discord_post_time_by_monster st !! Py.lower (monster parsed) = None →
  delivery_ready env_timer = true →
  let st1 := _on_new_log_line line st in
  let st2 := _process_queued_log_lines [env_line] st1 in
  let st3 := timer_fired env_timer (Py.lower (monster parsed)) st2 in
  let template :=
    if is_lockout (location parsed)
    then lockout_message_template env_timer else message_template env_timer in
  let message := format_message template parsed (Py.strip (note b)) in
  log_line_queue st1 = [line]
  ∧ (log_line_queue st2 = []
     ∧ message_buffer st2 = <[Py.lower (monster parsed) := mkBuffer [parsed] false]>
                             (message_buffer st)
     ∧ message_queue st2 = message_queue st ∧ bosses st2 = bosses st
     ∧ activity st2 = activity st)
  ∧ message_queue st3
    = message_queue st ++ [(_get_webhook_url_for_post (settings_file_3 env_timer), message)]
  ∧ bosses st3 = increment_kill_count (bosses st) (timestamp parsed) boss
  ∧ activity st3 = activity st ++ [mkActivity parsed PostedToDiscord true (Some message)]
  ∧ message_buffer st3 = message_buffer st
  ∧ kill_key_of parsed ∈ recently_processed_kills st3.
Proof.
  intros Hparse Hall Hb Hen Hline Hqueue Hlines Hkills Hkey Hbuf Hrecent Hlast Hready.
  intros st1 st2 st3 template message.
  assert (∀ (A : Type) (n : nat) (s : list A), (length s ≤ n)%nat → evict_half n s = s)
    as Hevict.
  { intros A n s Hn. unfold evict_half. by rewrite (proj2 (Nat.ltb_ge _ _)). }
  assert (st1 = set_log_line_queue [line]
                  (set_recently_processed_lines
                     (recently_processed_lines st ++ [md5 line]) st)) as Hst1.
  { unfold st1, _on_new_log_line. rewrite bool_decide_eq_false_2 by done.
    unfold Py.set_add. rewrite bool_decide_eq_false_2 by done.
    cbn [log_line_queue set_recently_processed_lines]. by rewrite Hqueue. }
  assert (st2 = set_message_buffer
                  (<[Py.lower (monster parsed) := mkBuffer [parsed] false]> (message_buffer st))
                  (set_log_line_queue []
                     (set_recently_processed_lines
                        (recently_processed_lines st ++ [md5 line]) st))) as Hst2.
  { unfold st2, _process_queued_log_lines. rewrite Hst1.
    cbn [process_queued log_line_queue set_log_line_queue].
    unfold _process_log_line. rewrite Hparse.
    cbn [recently_processed_kills bosses set_log_line_queue set_recently_processed_lines].
    rewrite bool_decide_eq_false_2 by done. rewrite Hall.
    cbn [length Nat.ltb Nat.leb andb negb]. rewrite !andb_false_r.
    cbn [andb recently_processed_lines set_recently_processed_lines
         recently_processed_kills set_recently_processed_kills set_log_line_queue].
    unfold Py.set_add.
    rewrite bool_decide_eq_true_2 by (apply elem_of_app; right; by left).
    rewrite !Hevict by first [done | rewrite length_app; simpl; lia].
    unfold late_check, recent_kill_check.
    cbn [message_buffer recent_kills_by_monster set_recently_processed_lines
         set_recently_processed_kills set_log_line_queue].
    rewrite Hbuf, Hrecent. destruct (strptime (timestamp parsed)); by destruct st. }
  assert (select_message [parsed] = Some parsed) as Hsel.
  { unfold select_message.
    destruct (decide (location parsed = "Lockouts")) as [Hl|Hl].
    - rewrite filter_cons_False by (by intros ?). by rewrite filter_cons_True.
    - by rewrite filter_cons_True. }
  assert (skipped_messages [parsed] parsed = []) as Hskip.
  { unfold skipped_messages. by rewrite filter_cons_False by (by intros ?). }
  assert (db_exists (bosses st) (monster parsed) = true) as Hex.
  { rewrite db_exists_candidates, Hall. done. }
  assert (needs_selection (bosses st) parsed = false) as Hneeds.
  { unfold needs_selection. by rewrite Hall. }
  set (st2' := set_message_buffer (message_buffer st)
                 (set_log_line_queue []
                    (set_recently_processed_lines
                       (recently_processed_lines st ++ [md5 line]) st))).
  assert (st3 = posted_state env_timer parsed boss st2') as Hst3.
  { unfold st3, timer_fired. rewrite Hst2.
    cbn [message_buffer set_message_buffer]. rewrite lookup_insert_eq.
    cbn [processed].
    rewrite (buffered_flush env_timer _ (mkBuffer [parsed] false) parsed);
      [|by cbn [message_buffer set_message_buffer]; rewrite lookup_insert_eq|done|done].
    unfold flushed. cbn [messages message_buffer set_message_buffer activity
                         set_log_line_queue set_recently_processed_lines].
    rewrite Hskip, delete_insert_eq, delete_id by done.
    cbn [fmap list_fmap]. rewrite app_nil_r.
    unfold resolve_selected.
    cbn [bosses set_activity set_message_buffer set_log_line_queue
         set_recently_processed_lines].
    rewrite Hex, Hneeds, Hall. cbn [negb].
    unfold finish_selected.
    cbn [bosses set_activity set_message_buffer set_log_line_queue
         set_recently_processed_lines length Nat.ltb Nat.leb andb].
    unfold boss_enabled. rewrite Hb. cbn [from_option]. rewrite Hen.
    rewrite process_boss_kill_posts.
    - done.
    - unfold delivery_ready in Hready.
      apply andb_true_iff in Hready as [[Hd Hw2]%andb_true_iff Hw3].
      unfold will_post, recent_kill_check, cooldown_hit.
      cbn [recently_processed_kills recent_kills_by_monster
           _last_discord_post_time_by_monster set_activity set_message_buffer
           set_log_line_queue set_recently_processed_lines].
      rewrite Hrecent, Hlast, Hd, Hw2, Hw3.
      rewrite bool_decide_eq_false_2 by done.
      by destruct (strptime (timestamp parsed)). }
  split; [by rewrite Hst1|]. split; [by rewrite Hst2|].
  rewrite Hst3. unfold posted_state.
  cbn [message_queue bosses activity message_buffer recently_processed_kills
       _add_activity_entry set_activity set_bosses set_message_queue
       set_last_discord_post_time_by_monster].
  rewrite record_kill_activity, record_kill_kills.
  destruct (record_kill_wiring parsed st2') as (_ & _ & _ & -> & _).
  unfold message, template, boss_note, st2'.
  cbn [message_queue bosses activity message_buffer set_message_buffer
       set_log_line_queue set_recently_processed_lines].
  rewrite Hb. cbn [from_option].
  repeat split; try done.
  apply set_add_elem. by left.
Qed.

(** *** Which records a flush can change *)

Lemma process_boss_kill_other (env : Env) (parsed : BossKillMessage) (boss : nat)
    (st : App) (i : nat) :
  i ≠ boss → bosses (_process_boss_kill env parsed boss st) !! i = bosses st !! i.
Proof.
  intros Hne. destruct (will_post env parsed st) eqn:Hw.
  - rewrite process_boss_kill_posts by done. unfold posted_state. simpl.
    unfold increment_kill_count. by rewrite list_lookup_alter_ne.
  - destruct (process_boss_kill_skips env parsed boss st Hw)
      as (status & _ & [-> | ->]); simpl; [done|by rewrite record_kill_bosses].
Qed.

Lemma finish_selected_other (env : Env) (selected_message : BossKillMessage)
    (all_bosses : list nat) (st : App) (boss i : nat) :
  i ≠ boss →
  bosses (finish_selected env selected_message all_bosses st boss) !! i = bosses st !! i.
Proof.
  intros Hne. unfold finish_selected.
  repeat match goal with |- context [if ?c then _ else _] => destruct c end;
    try done; by apply process_boss_kill_other.
Qed.

Lemma add_boss_other (bs : list Boss) (n loc : string) (en : bool) (i : nat) (b : Boss) :
  bs !! i = Some b → Py.lower (name b) ≠ Py.lower n →
  (add_boss bs n loc en).1 !! i = Some b.
Proof.
  intros Hi Hname. unfold add_boss.
  destruct (if bool_decide (n ∈ duplicate_boss_names) then None else get_boss bs n)
    as [ref|] eqn:Href.
  - assert (i ≠ ref) as Hne.
    { intros ->. destruct (bool_decide (n ∈ duplicate_boss_names)); [done|].
      unfold get_boss in Href. apply head_Some_elem_of in Href.
      apply get_bosses_by_name_elem in Href as (b' & Hb' & Hn). congruence. }
    cbn [fst]. destruct (_ && _); [|done]. by rewrite list_lookup_alter_ne.
  - cbn [fst]. by apply lookup_app_l_Some.
Qed.

(** X13: Whatever a flush of a buffer does to the registry, it does to records
    that have the name of the selected message up to case (or to the
    record it adds): a record of any other name is found afterwards at
    the same place and unchanged, whether a kill was counted, a target was
    added or a selection was made. *)
Theorem flush_leaves_other_records (env : Env) (monster_key : string)
    (buffer_data : Buffer) (selected_message : BossKillMessage) (st : App)
    (i : nat) (b : Boss) :
  message_buffer st !! monster_key = Some buffer_data →
  processed buffer_data = false →
  select_message (messages buffer_data) = Some selected_message →
  bosses st !! i = Some b →
  Py.lower (name b) ≠ Py.lower (monster selected_message) →
  bosses (_process_buffered_messages env monster_key st) !! i = Some b.
Proof.
  intros Hbuf Hproc Hsel Hi Hname.
  rewrite (buffered_flush env monster_key buffer_data selected_message) by done.
  set (st0 := flushed monster_key (messages buffer_data) selected_message st).
  assert (∀ boss, boss ∈ get_bosses_by_name (bosses st) (monster selected_message) →
                  i ≠ boss) as Hnot.
  { intros boss (b' & Hb' & Hn)%get_bosses_by_name_elem ->. congruence. }
  unfold resolve_selected. cbn [bosses st0 flushed set_message_buffer set_activity].
  destruct (db_exists (bosses st) (monster selected_message)) eqn:Hex; cbn [negb].
  - destruct (needs_selection (bosses st) selected_message).
    + case_bool_decide; [done|]. unfold _handle_duplicate_boss_selection.
      pose proof (selection_returns_candidate env
                    (get_bosses_by_name (bosses st) (monster selected_message))) as Hcand.
      destruct (selection_outcome env _) as [[boss|]|]; [|done..].
      rewrite finish_selected_other by (by apply Hnot, Hcand). done.
    + destruct (get_bosses_by_name (bosses st) (monster selected_message))
        as [|boss [|]] eqn:Hall; [done| |done].
      rewrite finish_selected_other by (apply Hnot; by left). done.
  - unfold new_boss_detected, _handle_new_boss.
    cbn [bosses _add_activity_entry set_activity set_pending_boss_kills].
    change (bosses st0) with (bosses st). rewrite Hex.
    destruct (bool_decide (new_boss_default_action env ∈ ["enable"; "disable"]));
      [|by destruct (bool_decide _)].
    unfold _add_new_boss. cbn [bosses]. change (bosses st0) with (bosses st).
    pose proof (add_boss_other (bosses st) (monster selected_message)
                  (location selected_message)
                  (bool_decide (new_boss_default_action env = "enable")) i b Hi Hname)
      as Hadd.
    destruct (add_boss _ _ _ _) as [bs r]. simpl in Hadd.
    destruct (bool_decide (new_boss_default_action env = "enable")); [|done].
    by destruct (pending_boss_kills _ !! _).
Qed.

(** *** The replay of a capture *)

(** The group of [ts_pattern = re.compile(r"^\[(.+?)\]")] when it matches
    at the start of [line]: the characters after the opening bracket up to
    the first closing bracket that follows at least one character; no
    match when a line feed comes first. *)
Fixpoint until_bracket (s : string) : option string :=
  match s with
  | EmptyString => None
  | String c r =>
      if bool_decide (c = "]"%char) then Some EmptyString
      else if bool_decide (c = "010"%char) then None
      else String c <$> until_bracket r
  end.

Definition ts_group (line : string) : option string :=
  match line with
  | String c0 (String c r) =>
      if bool_decide (c0 = "["%char) && negb (bool_decide (c = "010"%char))
      then String c <$> until_bracket r else None
  | _ => None
  end.

(** What the loop of [_build_simulation_batches] works out for one line:
    [monster] and [ts_dt]. *)
Definition line_info (line : string) : string * option Z :=
  let parsed :=
    match parse_line line with
    | Some parsed => Some parsed
    | None => parse_lockout_line line
    end in
  let ts :=
    match parsed with
    | Some parsed => timestamp parsed
    | None => match ts_group line with Some g => Py.strip g | None => EmptyString end
    end in
  let monster := match parsed with Some parsed => Py.lower (monster parsed) | None => EmptyString end in
  (monster, if Py.truthy ts then strptime (Py.strip ts) else None).

(** The test that puts a line into the current batch, given
    [(current_monster, current_ts_dt)] and the [(monster, ts_dt)] of the
    line. *)
Definition joins (current new : string * option Z) : bool :=
  match snd new, snd current with
  | Some ts_dt, Some current_ts_dt =>
      Py.truthy (fst new) && bool_decide (fst current = fst new)
      && (Z.abs (ts_dt - current_ts_dt) <=? 5)
  | _, _ => false
  end.

Record BatchState := mkBatchState {
  batches : list (list string);
  current_batch : list string;
  current_info : string * option Z
}.

(** [batches.append(current_batch)] under [if current_batch:]. *)
Definition close_batch (s : BatchState) : list (list string) :=
  match current_batch s with
  | [] => batches s
  | _ => batches s ++ [current_batch s]
  end.

(** One iteration of the [for line in lines] loop. *)
Definition simulation_step (s : BatchState) (line : string) : BatchState :=
  let info := line_info line in
  if negb (bool_decide (current_batch s = [])) && joins (current_info s) info then
    mkBatchState (batches s) (current_batch s ++ [line]) (current_info s)
  else mkBatchState (close_batch s) [line] info.

(** [_build_simulation_batches(lines)]. *)
Definition _build_simulation_batches (lines : list string) : list (list string) :=
  close_batch (foldl simulation_step (mkBatchState [] [] (EmptyString, None)) lines).

(** A batch: a first line and lines that the test put with it. *)
Definition one_kill (batch : list string) : Prop :=
  ∃ first rest, batch = first :: rest
    ∧ Forall (fun line => joins (line_info first) (line_info line) = true) rest.

Definition batching (s : BatchState) (seen : list string) : Prop :=
  concat (batches s) ++ current_batch s = seen
  ∧ Forall one_kill (batches s)
  ∧ (current_batch s = []
     ∨ ∃ first rest, current_batch s = first :: rest
         ∧ current_info s = line_info first
         ∧ Forall (fun line => joins (line_info first) (line_info line) = true) rest).

Lemma close_batch_spec (s : BatchState) (seen : list string) :
  batching s seen → concat (close_batch s) = seen ∧ Forall one_kill (close_batch s).
Proof.
  intros (Hcat & Hall & Hcur). unfold close_batch.
  destruct Hcur as [Hnil|(first & rest & Hcb & Hinfo & Hrest)].
  - rewrite Hnil in *. by rewrite app_nil_r in Hcat.
  - rewrite Hcb in *. rewrite concat_app. simpl. rewrite app_nil_r.
    split; [done|]. apply Forall_app. split; [done|].
    apply Forall_singleton. by exists first, rest.
Qed.

Lemma simulation_step_batching (s : BatchState) (seen : list string) (line : string) :
  batching s seen → batching (simulation_step s line) (seen ++ [line]).
Proof.
  intros Hs. unfold simulation_step.
  destruct (negb (bool_decide (current_batch s = []))
            && joins (current_info s) (line_info line)) eqn:Hjoin.
  - apply andb_true_iff in Hjoin as [Hne Hjoin].
    destruct Hs as (Hcat & Hall & Hcur). split; [|split; [done|]]; simpl.
    + by rewrite app_assoc, Hcat.
    + right. destruct Hcur as [Hnil|(first & rest & Hcb & Hinfo & Hrest)].
      { rewrite Hnil in Hne. by rewrite bool_decide_eq_true_2 in Hne. }
      exists first, (rest ++ [line]). rewrite Hcb. split; [done|]. split; [done|].
      apply Forall_app. split; [done|]. apply Forall_singleton. by rewrite <- Hinfo.
  - destruct (close_batch_spec s seen Hs) as [Hcat Hall].
    split; [|split]; simpl.
    + by rewrite Hcat.
    + done.
    + right. exists line, []. by repeat split.
Qed.

Lemma foldl_batching (lines : list string) (s : BatchState) (seen : list string) :
  batching s seen → batching (foldl simulation_step s lines) (seen ++ lines).
Proof.
  revert s seen. induction lines as [|line lines IH]; intros s seen Hs; simpl.
  - by rewrite app_nil_r.
  - rewrite (cons_middle line), app_assoc. by apply IH, simulation_step_batching.
Qed.

(** X14: The batches of a replay are the lines of the capture cut into
    consecutive pieces: put one after the other they give back the lines,
    in order, none lost and none twice; no batch is empty; and in every
    batch each line after the first was parsed as a kill of the same name
    as the first (up to case), with a timestamp at most 5 seconds away
    from that of the first.  A line that neither grammar parses, or
    whose timestamp does not parse, is never put with an earlier line. *)
Theorem simulation_batches_cut_the_capture (lines : list string) :
  concat (_build_simulation_batches lines) = lines
  ∧ Forall one_kill (_build_simulation_batches lines)
  ∧ Forall (fun batch => batch ≠ []) (_build_simulation_batches lines)
  ∧ ∀ current line,
      joins current (line_info line) = true →
      ∃ parsed t,
        match parse_line line with
        | Some parsed => Some parsed
        | None => parse_lockout_line line
        end = Some parsed
        ∧ fst current = Py.lower (monster parsed)
        ∧ strptime (Py.strip (timestamp parsed)) = Some t
        ∧ ∃ t0, snd current = Some t0 ∧ Z.abs (t - t0) ≤ 5.
Proof.
  assert (batching (mkBatchState [] [] (EmptyString, None)) []) as Hinit.
  { split; [done|]. split; [constructor|by left]. }
  apply (foldl_batching lines) in Hinit. simpl in Hinit.
  apply close_batch_spec in Hinit as [Hcat Hall].
  split; [done|]. split; [done|]. split.
  - eapply Forall_impl; [exact Hall|]. by intros batch (first & rest & -> & _).
  - intros [m0 t0] line. unfold joins, line_info.
    destruct (match parse_line line with
              | Some parsed => Some parsed
              | None => parse_lockout_line line
              end) as [parsed|]; cbn [fst snd].
    + destruct (Py.truthy (timestamp parsed)); [|done].
      destruct (strptime (Py.strip (timestamp parsed))) as [t|] eqn:Hts; [|done].
      destruct t0 as [t0|]; [|done].
      intros [[_ Hm%bool_decide_eq_true]%andb_true_iff Ht%Z.leb_le]%andb_true_iff.
      exists parsed, t. repeat split; try done. by exists t0.
    + destruct (if Py.truthy _ then _ else _); [|done].
      destruct t0; [|done]. done.
Qed.

(** *** The wall-clock guard *)

Lemma Qltb_lt (x y : Q) : (x < y)%Q → Qltb x y = true.
Proof.
  intros Hlt. unfold Qltb. apply negb_true_iff.
  destruct (Qle_bool y x) eqn:Hle; [|done].
  apply Qle_bool_iff in Hle. by apply Qlt_not_le in Hlt.
Qed.

(** X15: While less than 9 seconds have passed on the wall clock since the
    last post for a name, [_process_boss_kill] posts nothing for that
    name, whatever the timestamps of the events are: nothing is queued, no
    kill is counted, and the event is audited as a duplicate.  An event
    that passed the two checks on its timestamp is stopped by the guard
    only after it has been marked as processed. *)
Theorem wall_clock_guard_holds_back (env : Env) (parsed : BossKillMessage) (boss : nat)
    (last : Q) (st : App) :
  _last_discord_post_time_by_monster st !! Py.lower (monster parsed) = Some last →
  (clock_cooldown env - last < inject_Z SAME_KILL_WINDOW_SECONDS)%Q →
  let st' := _process_boss_kill env parsed boss st in
  message_queue st' = message_queue st
  ∧ bosses st' = bosses st
  ∧ _last_discord_post_time_by_monster st' = _last_discord_post_time_by_monster st
  ∧ (∃ status,
       activity st' = activity st ++ [mkActivity parsed status false None]
       ∧ (status = DuplicateExactMatch
          ∨ (∃ time_diff, status = DuplicateWithin time_diff)
          ∨ status = DuplicatePosted (clock_cooldown env - last)))
  ∧ (kill_key_of parsed ∉ recently_processed_kills st →
     recent_kill_check st parsed = None →
     st' = _add_activity_entry parsed (DuplicatePosted (clock_cooldown env - last))
             false None (record_kill parsed st)
     ∧ kill_key_of parsed ∈ recently_processed_kills st').
Proof.
  intros Hlast Hclock st'.
  assert (cooldown_hit env (Py.lower (monster parsed)) (record_kill parsed st)
          = Some (clock_cooldown env - last)%Q) as Hhit.
  { rewrite cooldown_hit_record_kill. unfold cooldown_hit. rewrite Hlast.
    by rewrite Qltb_lt. }
  unfold st', _process_boss_kill. case_bool_decide as Hkey.
  { simpl. repeat split; try done. eauto. }
  destruct (recent_kill_check st parsed) as [d|] eqn:Hrecent.
  { simpl. repeat split; try done. eauto 6. }
  rewrite Hhit. simpl.
  rewrite record_kill_message_queue, record_kill_bosses, record_kill_last_post,
    record_kill_activity, record_kill_kills.
  repeat split; try done.
  - eauto 6.
  - apply set_add_elem. by left.
Qed.

(** *** The selection within a flush *)

(** X21: when a flush asks for a selection, there are at least two
    candidates, so the selection never lets an exception out, however the
    dialog ends (also when showing it raises): it hands back nothing, or
    one of the candidates, which is a record of the registry with the name
    of the selected message up to case. *)
Theorem selection_in_a_flush_never_raises (env : Env) (bs : list Boss)
    (selected_message : BossKillMessage) :
  needs_selection bs selected_message = true →
  let candidates := get_bosses_by_name bs (monster selected_message) in
  (1 < length candidates)%nat
  ∧ ∃ choice,
      selection_outcome env candidates = Returned choice
      ∧ ∀ boss, choice = Some boss →
          boss ∈ candidates
          ∧ ∃ b, bs !! boss = Some b
                 ∧ Py.lower (name b) = Py.lower (monster selected_message).
Proof.
  intros Hneeds candidates.
  pose proof (needs_selection_multiple bs selected_message Hneeds) as Hmany.
  fold candidates in Hmany. split; [done|].
  assert (∀ boss, boss ∈ candidates →
            boss ∈ candidates
            ∧ ∃ b, bs !! boss = Some b
                   ∧ Py.lower (name b) = Py.lower (monster selected_message)) as Hcand.
  { intros boss Hin. split; [done|]. by apply get_bosses_by_name_elem. }
  unfold selection_outcome.
  destruct candidates as [|first rest] eqn:Hall; [simpl in Hmany; lia|].
  destruct (dialog env) as [| |[i|]|].
  - exists (Some first). split; [done|]. intros boss [= <-]. apply Hcand. by left.
  - exists (Some first). split; [done|]. intros boss [= <-]. apply Hcand. by left.
  - exists ((first :: rest) !! i). split; [done|]. intros boss Hi.
    apply Hcand. by eapply list_elem_of_lookup_2.
  - by exists None.
  - by exists None.
Qed.

End Tracker.

(** ** A concrete reading of the library functions, for closed examples *)

Definition digit (c : ascii) : option Z :=
  let n := nat_of_ascii c in
  if (48 <=? n)%nat && (n <=? 57)%nat then Some (Z.of_nat (n - 48)) else None.

Definition two_digits (a b : ascii) : option Z :=
  match digit a, digit b with
  | Some x, Some y => Some (10 * x + y)
  | _, _ => None
  end.

Definition month_number (a b c : ascii) : option Z :=
  let m := String a (String b (String c EmptyString)) in
  (fun i => Z.of_nat (S i)) <$>
    list_find (fun x => x = m)
      ["Jan"; "Feb"; "Mar"; "Apr"; "May"; "Jun"; "Jul"; "Aug"; "Sep"; "Oct"; "Nov"; "Dec"]
    ≫= (fun p => Some (fst p)).

Definition is_weekday (a b c : ascii) : bool :=
  bool_decide (String a (String b (String c EmptyString))
               ∈ ["Mon"; "Tue"; "Wed"; "Thu"; "Fri"; "Sat"; "Sun"]).

(** Days from 1970-01-01 to the given day of the Gregorian calendar. *)
Definition days_from_civil (y m d : Z) : Z :=
  let y' := if m <=? 2 then y - 1 else y in
  let era := y' / 400 in
  let yoe := y' - era * 400 in
  let doy := (153 * (if 2 <? m then m - 3 else m + 9) + 2) / 5 + d - 1 in
  let doe := yoe * 365 + yoe / 4 - yoe / 100 + doy in
  era * 146097 + doe - 719468.

(** [datetime.strptime(s, "%a %b %d %H:%M:%S %Y")] on the fixed-width form
    the game client writes, ["Sat Feb 07 12:00:00 2026"], as seconds since
    1970; as in Python, the day name is not checked against the date. *)
Definition strptime_log (s : string) : option Z :=
  match Strings.String.list_ascii_of_string s with
  | [w1; w2; w3; sp1; m1; m2; m3; sp2; d1; d2; sp3; h1; h2; c1; mi1; mi2; c2; s1; s2; sp4;
     y1; y2; y3; y4] =>
      if is_weekday w1 w2 w3
         && bool_decide ([sp1; sp2; sp3; sp4] = [" "; " "; " "; " "]%char)
         && bool_decide ([c1; c2] = [":"; ":"]%char) then
        mo ← month_number m1 m2 m3;
        d ← two_digits d1 d2;
        h ← two_digits h1 h2;
        mi ← two_digits mi1 mi2;
        sec ← two_digits s1 s2;
        yh ← two_digits y1 y2;
        yl ← two_digits y3 y4;
        if (1 <=? d) && (d <=? 31) && (h <=? 23) && (mi <=? 59) && (sec <=? 59) then
          Some (days_from_civil (100 * yh + yl) mo d * 86400 + h * 3600 + mi * 60 + sec)
        else None
      else None
  | _ => None
  end.

(** A stand-in for [format_message] that keeps every argument visible. *)
Definition format_fields (template : string) (parsed : BossKillMessage)
    (boss_note : string) : string :=
  template +:+ "|" +:+ timestamp parsed +:+ "|" +:+ monster parsed +:+ "|"
    +:+ location parsed +:+ "|" +:+ player parsed +:+ "|" +:+ boss_note.

(** Two iteration orders a set may have: the order of insertion, and its
    reverse. *)
Definition iteration_in_order (A : Type) (s : list A) : list A := s.

Definition empty_app (bs : list Boss) : App :=
  mkApp bs [] [] ∅ ∅ ∅ ∅ ∅ ∅ [] [] [] [] [].

(** An environment with a webhook in the settings file, no delivery-side
    checker, and the given dialog outcome and clock. *)
Definition env_at (d : DialogOutcome) (clock : Q) : Env :=
  mkEnv d "disable" None
    (Some "https://discord.com/api/webhooks/1/token")
    (Some "https://discord.com/api/webhooks/1/token")
    (Some "https://discord.com/api/webhooks/1/token")
    false false None clock clock
    "{discord_timestamp} {monster} lockout detected!"
    "{discord_timestamp} {monster} was killed in {location}!".

(** ** Closed examples *)

Definition severilous_zone : BossKillMessage :=
  mkMsg "Sat Feb 07 12:00:00 2026" "Druzzil Ro" "Xanax" "Guild" "Severilous"
    "The Emerald Jungle".

Definition severilous_lockout : BossKillMessage :=
  mkMsg "Sat Feb 07 12:00:00 2026" "" "" "" "Severilous" "Lockouts".

Definition xakra_zone : BossKillMessage :=
  mkMsg "Sat Feb 07 12:00:00 2026" "Druzzil Ro" "Xanax" "Guild" "Thall Va Xakra"
    "Vex Thal".

Definition tracked (boss_name loc boss_note : string) : Boss :=
  mkBoss boss_name loc true 0 None None boss_note None false.

Definition buffered (monster_key : string) (msgs : list BossKillMessage)
    (bs : list Boss) : App :=
  set_message_buffer {[ monster_key := mkBuffer msgs false ]} (empty_app bs).

Definition severilous_lockout_later : BossKillMessage :=
  mkMsg "Sat Feb 07 12:00:02 2026" "" "" "" "Severilous" "Lockouts".

(** The first scenario of the specification: a zone line and, two seconds
    later, a lockout line for the one enabled record "Severilous", both in
    the buffer when it is flushed.  One message is queued, built from the
    zone message; the kill is counted once; the lockout message is audited
    as skipped. *)
Example severilous_zone_and_lockout :
  let st := buffered "severilous" [severilous_zone; severilous_lockout_later]
              [tracked "Severilous" "The Emerald Jungle" ""] in
  let st' := _process_buffered_messages strptime_log format_fields
               (env_at DialogRejected 100) "severilous" st in
  snd <$> message_queue st'
    = [format_fields (message_template (env_at DialogRejected 100)) severilous_zone ""]
  ∧ kill_count <$> bosses st' = [1]
  ∧ (fun a => (a_parsed a, a_status a)) <$> activity st'
    = [(severilous_lockout_later, SkippedByBuffer "The Emerald Jungle");
       (severilous_zone, PostedToDiscord)].
Proof. vm_compute. done. Qed.

(** The second scenario: two records named "Thall Va Xakra"; the
    selection is asked for once, "F1 North" is chosen, the message carries
    that note and only that record counts the kill. *)
Example xakra_selects_north :
  let st := buffered "thall va xakra" [xakra_zone]
              [tracked "Thall Va Xakra" "Vex Thal" "F1 North";
               tracked "Thall Va Xakra" "Vex Thal" "F1 South"] in
  let st' := _process_buffered_messages strptime_log format_fields
               (env_at (DialogAccepted (Some 0%nat)) 100) "thall va xakra" st in
  selection_requests st' = [("Thall Va Xakra", [0%nat; 1%nat])]
  ∧ snd <$> message_queue st'
    = [format_fields (message_template (env_at DialogRejected 100)) xakra_zone "F1 North"]
  ∧ kill_count <$> bosses st' = [1; 0].
Proof. vm_compute. done. Qed.

(** C1, the failing input: two lockout lines of the same second that
    differ only in the text after "expires in" parse to the same
    [BossKillMessage].  Both are buffered; the first is selected; the
    second is not the winner, yet [skipped_messages] leaves it out, and
    the activity log gets one row (the post), none for the second. *)
Lemma C1_identical_copy_is_not_audited :
  let st := buffered "severilous" [severilous_lockout; severilous_lockout]
              [tracked "Severilous" "Lockouts" ""] in
  let st' := _process_buffered_messages strptime_log format_fields
               (env_at DialogRejected 100) "severilous" st in
  select_message [severilous_lockout; severilous_lockout] = Some severilous_lockout
  ∧ skipped_messages [severilous_lockout; severilous_lockout] severilous_lockout = []
  ∧ (fun a => (a_parsed a, a_status a)) <$> activity st'
    = [(severilous_lockout, PostedToDiscord)]
  ∧ length (message_queue st') = 1%nat.
Proof. vm_compute. done. Qed.

Definition xakra_zone_later : BossKillMessage :=
  mkMsg "Sat Feb 07 12:00:10 2026" "Druzzil Ro" "Xanax" "Guild" "Thall Va Xakra"
    "Vex Thal".

Definition xakra_north_south : list Boss :=
  [tracked "Thall Va Xakra" "Vex Thal" "F1 North";
   tracked "Thall Va Xakra" "Vex Thal" "F1 South"].

Lemma C2_same_kill_window_witness :
  let st := empty_app xakra_north_south in
  let st1 := _process_boss_kill strptime_log format_fields
               (env_at DialogRejected 103) xakra_zone 0 st in
  let st2 := _process_boss_kill strptime_log format_fields
               (env_at DialogRejected 113) xakra_zone_later 1 st1 in
  st2 = posted_state strptime_log format_fields
          (env_at DialogRejected 113) xakra_zone_later 1 st1.
Proof.
  intros st st1 st2.
  refine (proj2 (proj2 (C2_same_kill_window strptime_log format_fields
    (env_at DialogRejected 103) (env_at DialogRejected 113)
    xakra_zone xakra_zone_later 0 1 1770465600 1770465610 st
    _ _ _ _ _ _ _ _ _)) _ _).
  - reflexivity.
  - reflexivity.
  - reflexivity.
  - reflexivity.
  - reflexivity.
  - apply not_elem_of_nil.
  - apply not_elem_of_nil.
  - reflexivity.
  - reflexivity.
  - vm_compute. discriminate.
  - vm_compute. discriminate.
Defined.

(** C2 as stated fails: two kills of the two records named "Thall Va
    Xakra", 10 seconds apart in the log.  The first is posted late (its
    selection dialog stayed open for 8 seconds), the second reaches
    [_process_boss_kill] 2 seconds after that post on the wall clock, and
    the wall-clock guard suppresses it. *)
Lemma C2_ten_seconds_apart_suppressed :
  let st := empty_app xakra_north_south in
  let st1 := _process_boss_kill strptime_log format_fields
               (env_at DialogRejected 111) xakra_zone 0 st in
  let st2 := _process_boss_kill strptime_log format_fields
               (env_at DialogRejected 113) xakra_zone_later 1 st1 in
  strptime_log (timestamp xakra_zone_later)
    = (fun t => t + 10) <$> strptime_log (timestamp xakra_zone)
  ∧ length (message_queue st1) = 1%nat
  ∧ message_queue st2 = message_queue st1
  ∧ kill_count <$> bosses st2 = [1; 0]
  ∧ last (activity st2)
    = Some (mkActivity xakra_zone_later (DuplicatePosted (113 - 111)) false None).
Proof. vm_compute. done. Qed.

Lemma C3_cancelled_selection_records_nothing_witness :
  let bs := xakra_north_south in
  let st := buffered "thall va xakra" [xakra_zone] bs in
  let st' := _process_buffered_messages strptime_log format_fields
               (env_at DialogRejected 100) "thall va xakra" st in
  message_queue st' = [] ∧ bosses st' = bs
  ∧ activity st' = [mkActivity xakra_zone Cancelled false None].
Proof.
  intros bs st st'.
  pose proof (C3_cancelled_selection_records_nothing strptime_log format_fields
    (env_at DialogRejected 100) "thall va xakra" (mkBuffer [xakra_zone] false)
    xakra_zone st) as H.
  destruct H as (_ & Hq & Hb & _ & _ & _ & _ & Ha).
  - reflexivity.
  - reflexivity.
  - reflexivity.
  - reflexivity.
  - apply not_elem_of_empty.
  - reflexivity.
  - split; [exact Hq|]. split; [exact Hb|exact Ha].
Defined.

Lemma C5_selection_requested_once_witness :
  let bs := xakra_north_south in
  let st := buffered "thall va xakra" [xakra_zone] bs in
  selection_requests
    (_process_buffered_messages strptime_log format_fields
       (env_at (DialogAccepted (Some 0%nat)) 100) "thall va xakra" st)
  = [("Thall Va Xakra", [0%nat; 1%nat])].
Proof.
  intros bs st.
  pose proof (C5_selection_requested_once strptime_log format_fields
    (env_at (DialogAccepted (Some 0%nat)) 100) "thall va xakra"
    (mkBuffer [xakra_zone] false) xakra_zone st) as H.
  destruct H as (_ & Hreq & _).
  - reflexivity.
  - reflexivity.
  - reflexivity.
  - apply Hreq; [reflexivity|apply not_elem_of_empty].
Defined.

(** C5 as stated fails: two records share the name up to case, neither is
    annotated and the name is not one of the two known duplicates; the
    selection is not asked for at all. *)
Lemma C5_two_records_no_selection :
  let bs := [tracked "Severilous" "The Emerald Jungle" "";
             tracked "severilous" "Lockouts" ""] in
  let st := buffered "severilous" [severilous_zone] bs in
  let st' := _process_buffered_messages strptime_log format_fields
               (env_at (DialogAccepted (Some 0%nat)) 100) "severilous" st in
  get_bosses_by_name bs (monster severilous_zone) = [0%nat; 1%nat]
  ∧ selection_requests st' = []
  ∧ message_queue st' = [].
Proof. vm_compute. done. Qed.





Lemma C6_kill_recorded_iff_dispatched_witness :
  let st := empty_app [tracked "Severilous" "The Emerald Jungle" ""] in
  dispatched_once st
    (_process_boss_kill strptime_log format_fields (env_at DialogRejected 100)
       severilous_zone 0 st).
Proof.
  intros st.
  destruct (C6_kill_recorded_iff_dispatched strptime_log format_fields
              (fun line => line) (fun _ => None) (fun _ => None) iteration_in_order
              (env_at DialogRejected 100) "severilous" "" st) as (_ & _ & H).
  destruct (H severilous_zone 0%nat (tracked "Severilous" "The Emerald Jungle" ""))
    as [_ Hpost]; [reflexivity|].
  apply Hpost. reflexivity.
Defined.


(** ** More of [boss_database.py]: finding a record by name *)

(** [next((b for b in self.bosses if ...), None)], as a reference. *)
Fixpoint find_index {A : Type} (f : A → bool) (l : list A) : option nat :=
  match l with
  | [] => None
  | x :: l' => if f x then Some 0%nat else S <$> find_index f l'
  end.

Definition with_enabled (v : bool) (b : Boss) : Boss :=
  mkBoss (name b) (boss_location b) v (kill_count b) (last_killed b)
    (last_killed_timestamp b) (note b) (respawn_hours b) (respawn_hours_is_default b).

(** The record that [enable_boss] and [disable_boss] work on: the one
    handed over in [boss]; or, with a note, the first record of that name
    whose stripped note is the stripped [note]; or else what [get_boss]
    gives. *)
Definition record_for (bs : list Boss) (monster_name : string) (note_arg : option string)
    (boss : option nat) : option nat :=
  match boss with
  | Some ref => Some ref
  | None =>
      if Py.truthy (default EmptyString note_arg) then
        find_index (fun b => name_matches monster_name b
                             && bool_decide (Py.strip (note b)
                                             = Py.strip (default EmptyString note_arg))) bs
      else get_boss bs monster_name
  end.

(** [enable_boss(monster_name, note, boss)]: the registry afterwards and
    the value returned. *)
Definition enable_boss (bs : list Boss) (monster_name : string) (note_arg : option string)
    (boss : option nat) : list Boss * bool :=
  match record_for bs monster_name note_arg boss with
  | Some ref => (alter (with_enabled true) ref bs, true)
  | None => (bs, false)
  end.

(** [disable_boss(monster_name, note, boss)]. *)
Definition disable_boss (bs : list Boss) (monster_name : string) (note_arg : option string)
    (boss : option nat) : list Boss * bool :=
  match record_for bs monster_name note_arg boss with
  | Some ref => (alter (with_enabled false) ref bs, true)
  | None => (bs, false)
  end.

(** [get_enabled_bosses()]. *)
Definition get_enabled_bosses (bs : list Boss) : list string :=
  name <$> filter (fun b => enabled b = true) bs.

Definition with_note (v : string) (b : Boss) : Boss :=
  mkBoss (name b) (boss_location b) (enabled b) (kill_count b) (last_killed b)
    (last_killed_timestamp b) v (respawn_hours b) (respawn_hours_is_default b).

(** [set_note(monster_name, note, boss)]: the registry afterwards and the
    value returned.  A note that is removed ([boss.pop('note', None)])
    reads as the empty string afterwards. *)
Definition set_note (bs : list Boss) (monster_name : string) (note_arg : option string)
    (boss : option nat) : list Boss * bool :=
  let note_text := default EmptyString note_arg in
  match boss with
  | Some ref =>
      (alter (with_note (if Py.truthy note_text then Py.strip note_text else EmptyString))
         ref bs, true)
  | None =>
      if Py.truthy note_text then
        match find_index (fun b => name_matches monster_name b
                                   && bool_decide (Py.strip (note b) = Py.strip note_text))
                bs with
        | Some ref => (alter (with_note (Py.strip note_text)) ref bs, true)
        | None => (bs, false)
        end
      else
        match get_boss bs monster_name with
        | Some ref => (alter (with_note EmptyString) ref bs, true)
        | None => (bs, false)
        end
  end.

Section Registry.

Lemma find_index_first {A : Type} (f : A → bool) (l : list A) (i : nat) :
  find_index f l = Some i
  ↔ (∃ x, l !! i = Some x ∧ f x = true)
    ∧ ∀ j y, (j < i)%nat → l !! j = Some y → f y = false.
Proof.
  revert i. induction l as [|x l IH]; intros i; simpl.
  - split; [done|]. by intros [(y & Hy & _) _].
  - destruct (f x) eqn:Hx.
    + split.
      * intros [= <-]. split; [by exists x|]. intros j y Hj. lia.
      * intros [(y & Hy & Hfy) Hmin]. destruct i as [|i]; [done|].
        specialize (Hmin 0%nat x). rewrite Hmin in Hx; [done|lia|done].
    + destruct i as [|i].
      * split; [by destruct (find_index f l)|].
        intros [(y & Hy & Hfy) _]. simpl in Hy. congruence.
      * split.
        -- destruct (find_index f l) as [i'|]; simpl; [|done].
           intros [= <-]. destruct (proj1 (IH i') eq_refl) as [(y & Hy & Hfy) Hmin].
           split; [by exists y|]. intros [|j] z Hj Hz; simpl in Hz.
           ++ congruence.
           ++ apply (Hmin j z); [lia|done].
        -- intros [(y & Hy & Hfy) Hmin].
           assert (find_index f l = Some i) as ->; [|done].
           apply IH. split; [by exists y|].
           intros j z Hj Hz. apply (Hmin (S j) z); [lia|done].
Qed.

Lemma find_index_none {A : Type} (f : A → bool) (l : list A) :
  find_index f l = None ↔ Forall (fun x => f x = false) l.
Proof.
  induction l as [|x l IH]; simpl; [by split; [constructor|]|].
  rewrite Forall_cons. destruct (f x) eqn:Hx.
  - split; [done|]. by intros [? _].
  - rewrite <- IH. destruct (find_index f l); simpl; split; try done.
    by intros [_ ?].
Qed.

Lemma indices_from_find (k : nat) (bs : list Boss) (n : string) :
  head (indices_from k bs n) = (fun i => (k + i)%nat) <$> find_index (name_matches n) bs.
Proof.
  revert k. induction bs as [|b bs IH]; intros k; simpl; [done|].
  destruct (name_matches n b); simpl.
  - by rewrite Nat.add_0_r.
  - rewrite IH. destruct (find_index _ bs); simpl; [|done].
    f_equal. lia.
Qed.

Lemma get_boss_find (bs : list Boss) (n : string) :
  get_boss bs n = find_index (name_matches n) bs.
Proof.
  unfold get_boss, get_bosses_by_name. rewrite indices_from_find.
  by destruct (find_index _ bs).
Qed.

Lemma db_exists_find (bs : list Boss) (n : string) :
  db_exists bs n = bool_decide (is_Some (find_index (name_matches n) bs)).
Proof.
  unfold db_exists. induction bs as [|b bs IH]; simpl; [done|].
  destruct (name_matches n b); simpl; [done|]. rewrite IH.
  by destruct (find_index _ bs).
Qed.

(** X16: [exists] and [get_boss] agree, and [get_boss] gives the first record
    of the name.  So enabling or disabling by name alone returns [False]
    and changes nothing exactly when no record has the name (up to case),
    and otherwise sets the flag of the first record of that name and of no
    other: a second record of the same name keeps its flag.  Disabling
    after enabling leaves the registry as disabling alone does; after
    enabling, the name of the record is among [get_enabled_bosses]. *)
Theorem enable_by_name_reaches_first_record (bs : list Boss) (n : string) :
  (db_exists bs n = false ↔ get_boss bs n = None)
  ∧ (get_boss bs n = None →
     enable_boss bs n None None = (bs, false) ∧ disable_boss bs n None None = (bs, false))
  ∧ ∀ ref, get_boss bs n = Some ref →
      ∃ b, bs !! ref = Some b ∧ Py.lower (name b) = Py.lower n
        ∧ (∀ j b', (j < ref)%nat → bs !! j = Some b' → Py.lower (name b') ≠ Py.lower n)
        ∧ enable_boss bs n None None = (<[ref := with_enabled true b]> bs, true)
        ∧ disable_boss bs n None None = (<[ref := with_enabled false b]> bs, true)
        ∧ disable_boss (enable_boss bs n None None).1 n None None
          = disable_boss bs n None None
        ∧ boss_enabled (enable_boss bs n None None).1 ref = true
        ∧ boss_enabled (disable_boss bs n None None).1 ref = false
        ∧ name b ∈ get_enabled_bosses (enable_boss bs n None None).1.
Proof.
  split; [|split].
  - rewrite db_exists_find, get_boss_find.
    destruct (find_index _ bs); split; done.
  - intros Hnone. unfold enable_boss, disable_boss, record_for. simpl. by rewrite Hnone.
  - intros ref Href. pose proof Href as Hfind. rewrite get_boss_find in Hfind.
    apply find_index_first in Hfind as [(b & Hb & Hm) Hmin].
    apply bool_decide_eq_true in Hm.
    assert (∀ v, alter (with_enabled v) ref bs = <[ref := with_enabled v b]> bs) as Halter.
    { intros v. rewrite list_insert_alter. apply list_alter_ext; [|done].
      intros x Hx. congruence. }
    assert (get_boss (<[ref := with_enabled true b]> bs) n = Some ref) as Href'.
    { rewrite get_boss_find. apply find_index_first. split.
      - exists (with_enabled true b). split.
        + apply list_lookup_insert_eq. by eapply lookup_lt_Some.
        + by apply bool_decide_eq_true.
      - intros j y Hj Hy. rewrite list_lookup_insert_ne in Hy by lia. eauto. }
    exists b. split; [done|]. split; [done|]. split.
    { intros j b' Hj Hb' Hn. specialize (Hmin j b' Hj Hb').
      unfold name_matches in Hmin. by rewrite bool_decide_eq_true_2 in Hmin. }
    unfold enable_boss, disable_boss, record_for. simpl. rewrite Href, !Halter.
    simpl. rewrite Href'.
    split; [done|]. split; [done|]. split; [|split; [|split]].
    + f_equal.
      rewrite <- (list_insert_insert_eq bs ref (with_enabled false b) (with_enabled true b)).
      rewrite (list_insert_alter _ ref (with_enabled false b)).
      apply list_alter_ext; [|done]. intros x Hx.
      rewrite list_lookup_insert_eq in Hx by (by eapply lookup_lt_Some).
      by injection Hx as <-.
    + unfold boss_enabled. by rewrite list_lookup_insert_eq by (by eapply lookup_lt_Some).
    + unfold boss_enabled. by rewrite list_lookup_insert_eq by (by eapply lookup_lt_Some).
    + unfold get_enabled_bosses.
      change (name b) with (name (with_enabled true b)).
      apply list_elem_of_fmap_2, list_elem_of_filter. split; [done|].
      eapply list_elem_of_lookup_2, list_lookup_insert_eq. by eapply lookup_lt_Some.
Qed.

Lemma db_exists_names (bs : list Boss) (n : string) :
  db_exists bs n
  = existsb (fun nm => bool_decide (Py.lower nm = Py.lower n)) (name <$> bs).
Proof.
  unfold db_exists, name_matches. induction bs as [|b bs IH]; simpl; [done|].
  by rewrite IH.
Qed.

(** X18: [add_boss] and [exists] fit together: after [add_boss] the name is in
    the registry and the record handed back has that name (up to case).
    For a name that is already there, and is not one of the two names that
    may be duplicated, no record is added: the first record of that name
    is handed back, and no record changes its name, its enabled flag or
    its kill bookkeeping.  Otherwise a record with no kill, the given
    location and the given flag is appended, and handed back. *)
Theorem add_boss_then_exists (bs : list Boss) (n loc : string) (en : bool) :
  let bs' := (add_boss bs n loc en).1 in
  let ref := (add_boss bs n loc en).2 in
  db_exists bs' n = true
  ∧ (∃ b, bs' !! ref = Some b ∧ Py.lower (name b) = Py.lower n)
  ∧ (n ∉ duplicate_boss_names → db_exists bs n = true →
     get_boss bs n = Some ref
     ∧ name <$> bs' = name <$> bs
     ∧ enabled <$> bs' = enabled <$> bs
     ∧ kill_record <$> bs' = kill_record <$> bs)
  ∧ (n ∈ duplicate_boss_names ∨ db_exists bs n = false →
     bs' = bs ++ [mkBoss n loc en 0 None None "" None false] ∧ ref = length bs).
Proof.
  intros bs' ref.
  set (new := mkBoss n loc en 0 None None "" None false).
  assert (db_exists (bs ++ [new]) n = true) as Hex_app.
  { unfold db_exists. rewrite existsb_app. simpl. unfold name_matches at 2. simpl.
    rewrite bool_decide_eq_true_2 by done. by rewrite orb_true_r. }
  assert ((bs ++ [new]) !! length bs = Some new) as Hnew by (by apply list_lookup_middle).
  destruct (decide (n ∈ duplicate_boss_names)) as [Hdup|Hdup].
  { assert (add_boss bs n loc en = (bs ++ [new], length bs)) as Hadd.
    { unfold add_boss. by rewrite bool_decide_eq_true_2. }
    unfold bs', ref. rewrite Hadd. simpl.
    split; [done|]. split; [by exists new|]. split; [done|]. done. }
  destruct (get_boss bs n) as [r|] eqn:Hget.
  - pose proof Hget as Hfind. rewrite get_boss_find in Hfind.
    apply find_index_first in Hfind as [(b & Hb & Hm%bool_decide_eq_true) _].
    assert (db_exists bs n = true) as Hex.
    { rewrite db_exists_find, <- get_boss_find, Hget. done. }
    set (f := fun b : Boss => mkBoss (name b) loc (enabled b) (kill_count b)
                                (last_killed b) (last_killed_timestamp b) (note b)
                                (respawn_hours b) (respawn_hours_is_default b)).
    assert (add_boss bs n loc en
            = (if Py.truthy loc && negb (Py.truthy (boss_loc bs r))
               then alter f r bs else bs, r)) as Hadd.
    { unfold add_boss. by rewrite bool_decide_eq_false_2, Hget. }
    unfold bs', ref. rewrite Hadd. cbn [fst snd].
    assert (∀ (A : Type) (g : Boss → A), (∀ x, g (f x) = g x) →
              g <$> (if Py.truthy loc && negb (Py.truthy (boss_loc bs r))
                     then alter f r bs else bs) = g <$> bs) as Hsame.
    { intros A g Hg. destruct (_ && _); [|done].
      erewrite list_fmap_alter with (h := id); [by rewrite list_alter_id|].
      apply Forall_true. intros x. by rewrite Hg. }
    split; [|split; [|split]].
    + by rewrite db_exists_names, (Hsame _ name), <- db_exists_names.
    + destruct (_ && _).
      * exists (f b). by rewrite list_lookup_alter_eq, Hb.
      * by exists b.
    + intros _ _. split; [done|]. split; [by apply Hsame|].
      split; by apply Hsame.
    + intros [?|?]; [done|congruence].
  - assert (db_exists bs n = false) as Hex.
    { rewrite db_exists_find, <- get_boss_find, Hget. done. }
    assert (add_boss bs n loc en = (bs ++ [new], length bs)) as Hadd.
    { unfold add_boss. by rewrite bool_decide_eq_false_2, Hget. }
    unfold bs', ref. rewrite Hadd. simpl.
    split; [done|]. split; [by exists new|]. split; [|done].
    intros _ ?. congruence.
Qed.

(** X17: Without a record handed over, [set_note] looks for the record by the
    name and by the very note it is given.  So a call with a note that is
    not empty never changes what any note of the registry strips to: it
    returns [True] exactly when some record of that name already has that
    note (up to surrounding white space), and then only strips that note;
    every other field of every record is left as it is.  A new note can
    be given to a record only by handing the record over. *)
Theorem set_note_by_name_keeps_notes (bs : list Boss) (n v : string) :
  Py.truthy v = true →
  let bs' := (set_note bs n (Some v) None).1 in
  (fun b => Py.strip (note b)) <$> bs' = (fun b => Py.strip (note b)) <$> bs
  ∧ with_note EmptyString <$> bs' = with_note EmptyString <$> bs
  ∧ ((set_note bs n (Some v) None).2 = true
     ↔ ∃ i b, bs !! i = Some b ∧ Py.lower (name b) = Py.lower n
              ∧ Py.strip (note b) = Py.strip v)
  ∧ ∀ ref b, bs !! ref = Some b →
      (set_note bs n (Some v) (Some ref)).1 = <[ref := with_note (Py.strip v) b]> bs.
Proof.
  intros Hv bs'. unfold bs', set_note.
  change (default EmptyString (Some v)) with v. rewrite Hv.
  set (f := fun b : Boss => name_matches n b
                            && bool_decide (Py.strip (note b) = Py.strip v)).
  destruct (find_index f bs) as [ref|] eqn:Hfind; cbn [fst snd].
  - pose proof Hfind as Hspec.
    apply find_index_first in Hspec as [(b & Hb & Hf) _].
    unfold f in Hf. apply andb_true_iff in Hf as [Hn%bool_decide_eq_true Hnote%bool_decide_eq_true].
    assert (alter (with_note (Py.strip v)) ref bs = <[ref := with_note (Py.strip v) b]> bs)
      as Halter.
    { rewrite list_insert_alter. apply list_alter_ext; [|done]. intros x Hx. congruence. }
    split; [|split; [|split]].
    + rewrite Halter. apply list_eq. intros i. rewrite !list_lookup_fmap.
      destruct (decide (i = ref)) as [->|Hne].
      * rewrite list_lookup_insert_eq by (by eapply lookup_lt_Some). rewrite Hb. simpl.
        by rewrite strip_idemp, Hnote.
      * by rewrite list_lookup_insert_ne.
    + erewrite list_fmap_alter with (h := id); [by rewrite list_alter_id|].
      by apply Forall_true.
    + split; [|done]. intros _. by exists ref, b.
    + intros r b0 Hb0. rewrite list_insert_alter. apply list_alter_ext; [|done].
      intros x Hx. congruence.
  - split; [done|]. split; [done|]. split.
    + split; [done|]. intros (i & b & Hb & Hn & Hnote).
      apply find_index_none in Hfind. rewrite Forall_forall in Hfind.
      specialize (Hfind b (list_elem_of_lookup_2 _ _ _ Hb)). unfold f, name_matches in Hfind.
      by rewrite !bool_decide_eq_true_2 in Hfind.
    + intros r b0 Hb0. rewrite list_insert_alter. apply list_alter_ext; [|done].
      intros x Hx. congruence.
Qed.

Lemma set_note_by_name_keeps_notes_witness :
  (fun b => Py.strip (note b))
    <$> (set_note [tracked "Thall Va Xakra" "Vex Thal" "F1 North"] "Thall Va Xakra"
           (Some "F1 South") None).1
  = ["F1 North"].
Proof.
  exact (proj1 (set_note_by_name_keeps_notes
                  [tracked "Thall Va Xakra" "Vex Thal" "F1 North"] "Thall Va Xakra"
                  "F1 South" eq_refl)).
Defined.

End Registry.

(** ** From [notify] to the worker *)

Section Delivery.
Import DiscordNotifier.

(** Calls of [notify(message, webhook_url)] made one after the other;
    a call is given as [(message, webhook_url)]. *)
Definition notify_all (default_webhook_url : option string)
    (calls : list (string * option string)) (queue : list (string * string))
  : list (string * string) :=
  foldl (fun queue call => notify default_webhook_url call.1 call.2 queue) queue calls.

(** What a call of [notify] puts on the queue, if anything. *)
Definition queued_by (default_webhook_url : option string)
    (call : string * option string) : option (string * string) :=
  let url :=
    Py.strip (match call.2 with
              | Some webhook_url => webhook_url
              | None => default EmptyString default_webhook_url
              end) in
  if Py.truthy url then Some (url, call.1) else None.

Lemma notify_all_queue (dflt : option string) (calls : list (string * option string))
    (queue : list (string * string)) :
  notify_all dflt calls queue = queue ++ omap (queued_by dflt) calls.
Proof.
  revert queue. induction calls as [|[message webhook_url] calls IH]; intros queue.
  - by rewrite app_nil_r.
  - unfold notify_all in *. cbn [foldl omap list_omap]. rewrite IH.
    unfold notify, queued_by. cbn [fst snd].
    destruct webhook_url as [u|]; simpl.
    + destruct (Py.truthy (Py.strip u)); [by rewrite <- app_assoc|done].
    + destruct (Py.truthy (Py.strip (default "" dflt))); [by rewrite <- app_assoc|done].
Qed.

Lemma queued_by_sendable (dflt : option string) (call : string * option string)
    (it : string * string) :
  queued_by dflt call = Some it → sendable (Some it) = true.
Proof.
  unfold queued_by.
  destruct (Py.truthy (Py.strip _)) eqn:Hurl; [|done]. intros [= <-]. simpl.
  by rewrite strip_idemp, Hurl.
Qed.

Lemma until_stop_all (queue : list (string * string)) : until_stop (Some <$> queue) = queue.
Proof. induction queue as [|it queue IH]; [done|]. rewrite fmap_cons. simpl. by f_equal. Qed.

Lemma filter_all {A : Type} (P : A → Prop) `{!∀ x, Decision (P x)} (l : list A) :
  Forall P l → filter P l = l.
Proof.
  induction 1 as [|x l Hx _ IH]; [done|]. by rewrite filter_cons_True, IH.
Qed.

(** X19: Whatever is put on the queue by [notify] is sent by the worker: every
    queued entry has a destination that is not blank, so the worker skips
    none; it posts the entries in the order of the calls, each once and
    with the message as it was handed to [notify], and leaves the queue
    empty.  A call whose destination is blank after stripping queues
    nothing; a destination that was passed in, even an empty one, is never
    replaced by the default. *)
Theorem notified_messages_are_posted_in_order (default_webhook_url : option string)
    (calls : list (string * option string)) (net : nat → PostResult) (k : nat) :
  let queue := notify_all default_webhook_url calls [] in
  queue = omap (queued_by default_webhook_url) calls
  ∧ Forall (fun it => sendable (Some it) = true) queue
  ∧ posts (_worker net k (Some <$> queue)).1 = queue
  ∧ (_worker net k (Some <$> queue)).2 = [].
Proof.
  intros queue.
  assert (queue = omap (queued_by default_webhook_url) calls) as Hqueue
    by (unfold queue; by rewrite notify_all_queue).
  assert (Forall (fun it => sendable (Some it) = true) queue) as Hsend.
  { rewrite Hqueue. apply Forall_forall. intros it Hit.
    apply list_elem_of_omap in Hit as (call & _ & Hcall).
    by eapply queued_by_sendable. }
  split; [done|]. split; [done|]. split.
  - rewrite worker_posts, until_stop_all. by apply filter_all.
  - pose proof (worker_app net k queue []) as Happ.
    rewrite app_nil_r in Happ. by rewrite Happ.
Qed.

End Delivery.

(** ** Closed instances of the properties of the handlers *)


Lemma recorded_kill_is_remembered_witness :
  ∃ recent,
    recent_kills_by_monster (record_kill strptime_log severilous_zone (empty_app []))
      !! "severilous" = Some recent
    ∧ last recent = Some (1770465600, "The Emerald Jungle").
Proof.
  destruct (recorded_kill_is_remembered strptime_log severilous_zone 1770465600
              (empty_app [])) as (recent & Hlook & _ & Hlast & _).
  - reflexivity.
  - exists recent. split; [exact Hlook|exact Hlast].
Defined.

Lemma buffers_are_open_between_handlers_witness :
  let st := buffered "severilous" [severilous_zone]
              [tracked "Severilous" "The Emerald Jungle" ""] in
  message_buffer
    (timer_fired strptime_log format_fields (env_at DialogRejected 100) "severilous" st)
  = delete "severilous" (message_buffer st).
Proof.
  intros st.
  destruct (buffers_are_open_between_handlers strptime_log format_fields (fun line => line)
              (fun _ => None) (fun _ => None) iteration_in_order
              (env_at DialogRejected 100) "" "severilous" st) as (_ & _ & _ & _ & _ & H & _).
  - intros k b Hb. unfold st, buffered in Hb.
    cbn [message_buffer set_message_buffer] in Hb.
    apply lookup_singleton_Some in Hb as [_ <-]. done.
  - exact H.
Defined.

Lemma queued_lines_are_handled_ten_at_a_time_witness :
  let st := set_log_line_queue ["one"; "two"] (empty_app []) in
  log_line_queue
    (_process_queued_log_lines strptime_log format_fields (fun line => line)
       (fun _ => None) (fun _ => None) iteration_in_order
       [env_at DialogRejected 100; env_at DialogRejected 100] st)
  = [].
Proof.
  intros st.
  refine (proj1 (queued_lines_are_handled_ten_at_a_time strptime_log format_fields
    (fun line => line) (fun _ => None) (fun _ => None) iteration_in_order
    [env_at DialogRejected 100; env_at DialogRejected 100] st _ _)).
  - intros k b Hb. unfold st, empty_app in Hb.
    cbn [message_buffer set_log_line_queue] in Hb. by rewrite lookup_empty in Hb.
  - simpl. lia.
Defined.

Lemma disabled_target_is_never_posted_witness :
  let off := mkBoss "Severilous" "The Emerald Jungle" false 0 None None "" None false in
  let st := buffered "severilous" [severilous_zone] [off] in
  message_queue
    (_process_buffered_messages strptime_log format_fields (env_at DialogRejected 100)
       "severilous" st)
  = message_queue st.
Proof.
  intros off st.
  refine (proj1 (disabled_target_is_never_posted strptime_log format_fields
    (env_at DialogRejected 100) "severilous" (mkBuffer [severilous_zone] false)
    severilous_zone st _ _ _ _ _)).
  - reflexivity.
  - reflexivity.
  - reflexivity.
  - reflexivity.
  - intros [|i] b Hb _; simpl in Hb; [|done]. by injection Hb as <-.
Defined.

Lemma new_target_default_action_witness :
  let env := mkEnv DialogRejected "enable" None
               (Some "https://discord.com/api/webhooks/1/token")
               (Some "https://discord.com/api/webhooks/1/token")
               (Some "https://discord.com/api/webhooks/1/token")
               false false None 100 100
               "{monster} lockout detected!" "{monster} was killed in {location}!" in
  let st1 := new_boss_detected env severilous_zone (empty_app []) in
  kill_count <$> bosses (run_deferred strptime_log format_fields env st1) = [1].
Proof.
  intros env st1.
  pose proof (new_target_default_action strptime_log format_fields env env
                severilous_zone (empty_app [])) as H.
  destruct H as [Hen _]; [reflexivity|].
  destruct Hen as (_ & _ & _ & _ & Hrun); [reflexivity|].
  destruct Hrun as (_ & _ & Hcount & _); [reflexivity|reflexivity|].
  exact Hcount.
Defined.

Lemma one_line_one_post_witness :
  let parse_line := fun line : string =>
    if bool_decide (line = "zone line") then Some severilous_zone else None in
  let st := empty_app [tracked "Severilous" "The Emerald Jungle" ""] in
  let st1 := _on_new_log_line (fun line => line) "zone line" st in
  let st2 := _process_queued_log_lines strptime_log format_fields (fun line => line)
               parse_line (fun _ => None) iteration_in_order
               [env_at DialogRejected 100] st1 in
  let st3 := timer_fired strptime_log format_fields (env_at DialogRejected 103)
               "severilous" st2 in
  message_queue st2 = []
  ∧ activity st3
    = [mkActivity severilous_zone PostedToDiscord true
         (Some (format_fields (message_template (env_at DialogRejected 103))
                  severilous_zone ""))].
Proof.
  intros parse_line st st1 st2 st3.
  pose proof (one_line_one_post strptime_log format_fields (fun line => line)
                parse_line (fun _ => None) iteration_in_order
                (env_at DialogRejected 100) (env_at DialogRejected 103) "zone line"
                severilous_zone 0 (tracked "Severilous" "The Emerald Jungle" "") st) as H.
  destruct H as (_ & (_ & _ & Hq & _) & _ & _ & Ha & _).
  - reflexivity.
  - reflexivity.
  - reflexivity.
  - reflexivity.
  - apply not_elem_of_nil.
  - reflexivity.
  - simpl. lia.
  - simpl. lia.
  - apply not_elem_of_nil.
  - reflexivity.
  - reflexivity.
  - reflexivity.
  - reflexivity.
  - split; [exact Hq|exact Ha].
Defined.

Lemma flush_leaves_other_records_witness :
  let st := buffered "severilous" [severilous_zone]
              [tracked "Severilous" "The Emerald Jungle" "";
               tracked "Vulak`Aerr" "Temple of Veeshan" ""] in
  bosses (_process_buffered_messages strptime_log format_fields (env_at DialogRejected 100)
            "severilous" st) !! 1%nat
  = Some (tracked "Vulak`Aerr" "Temple of Veeshan" "").
Proof.
  intros st.
  refine (flush_leaves_other_records strptime_log format_fields
    (env_at DialogRejected 100) "severilous" (mkBuffer [severilous_zone] false)
    severilous_zone st 1 (tracked "Vulak`Aerr" "Temple of Veeshan" "") _ _ _ _ _).
  - reflexivity.
  - reflexivity.
  - reflexivity.
  - reflexivity.
  - vm_compute. discriminate.
Defined.

Lemma wall_clock_guard_holds_back_witness :
  let st := empty_app xakra_north_south in
  let st1 := _process_boss_kill strptime_log format_fields
               (env_at DialogRejected 111) xakra_zone 0 st in
  let st2 := _process_boss_kill strptime_log format_fields
               (env_at DialogRejected 113) xakra_zone_later 1 st1 in
  message_queue st2 = message_queue st1.
Proof.
  intros st st1 st2.
  refine (proj1 (wall_clock_guard_holds_back strptime_log format_fields
    (env_at DialogRejected 113) xakra_zone_later 1 111 st1 _ _)).
  - reflexivity.
  - reflexivity.
Defined.

Lemma selection_in_a_flush_never_raises_witness :
  ∃ choice,
    selection_outcome (env_at DialogException 100)
      (get_bosses_by_name xakra_north_south (monster xakra_zone))
    = Returned choice.
Proof.
  destruct (selection_in_a_flush_never_raises (env_at DialogException 100)
              xakra_north_south xakra_zone) as (_ & choice & Hout & _).
  - reflexivity.
  - exists choice. exact Hout.
Defined.
